(** * Flight search: a shallow embedding of the backend core

    The development follows the backend sources

      - [src/types/index.ts]                   (records)
      - [src/utils/dateUtils.ts]               (time normaliser)
      - [src/utils/connectionRules.ts]         (connection rules)
      - [src/services/DataLoader.ts]           (flight store)
      - [src/services/FlightSearchService.ts]  (itinerary search)

    JavaScript values are modelled as follows.  A [Date] is its time value
    in milliseconds, or [None] for an Invalid Date.  A [number] that holds a
    count of minutes is an integer, or [None] for NaN.  A [Map<string, V>] is
    a [gmap string V].  A function that can throw returns a [Result]; a
    method that also mutates the loader singleton or draws from the random
    source runs in the state-and-exception monad [ST]. *)

From Stdlib Require Import ZArith String Ascii List Sorted Permutation PrimFloat.
From stdpp Require Import gmap strings list fin_maps pretty.

Local Open Scope string_scope.
Local Open Scope list_scope.

(** ** JavaScript numbers and dates *)

(** A JavaScript number holding whole minutes or milliseconds; [None] is NaN. *)
Definition number := option Z.

(** A JavaScript [Date]: the time value in milliseconds since the epoch;
    [None] is an Invalid Date. *)
Definition Date := option Z.

Definition num_add (a b : number) : number :=
  match a, b with
  | Some x, Some y => Some (x + y)%Z
  | _, _ => None
  end.

Definition num_sub (a b : number) : number :=
  match a, b with
  | Some x, Some y => Some (x - y)%Z
  | _, _ => None
  end.

(** [a >= b] on numbers; a comparison with NaN is false. *)
Definition num_geb (a : number) (b : Z) : bool :=
  match a with
  | Some x => (b <=? x)%Z
  | None => false
  end.

(** [a <= b] on numbers; a comparison with NaN is false. *)
Definition num_leb (a : number) (b : Z) : bool :=
  match a with
  | Some x => (x <=? b)%Z
  | None => false
  end.

(** [d1 <= d2] on dates compares the time values; false if either is invalid. *)
Definition date_leb (d1 d2 : Date) : bool :=
  match d1, d2 with
  | Some x, Some y => (x <=? y)%Z
  | _, _ => false
  end.

(** [d1 < d2] as a proposition on absolute instants. *)
Definition date_lt (d1 d2 : Date) : Prop :=
  match d1, d2 with
  | Some x, Some y => (x < y)%Z
  | _, _ => False
  end.

Definition getTime (d : Date) : number := d.

(** [new Date(value)]: TimeClip maps NaN and values beyond 8.64e15 ms to
    an Invalid Date. *)
Definition newDate (v : number) : Date :=
  match v with
  | Some x => if (Z.abs x <=? 8640000000000000)%Z then Some x else None
  | None => None
  end.

(** ** Errors and results *)

Inductive Error : Type :=
  | InvalidOriginAirport (code : string)
      (* `Invalid origin airport code: ${origin}` *)
  | InvalidDestinationAirport (code : string)
      (* `Invalid destination airport code: ${destination}` *)
  | SameOriginDestination
      (* 'Origin and destination must be different' *)
  | InvalidDateFormat
      (* 'Invalid date format. Expected YYYY-MM-DD' *)
  | MissingAirportData (flightNumber origin destination : string)
      (* `Missing airport data for flight ...` *)
  | FlightDataNotLoaded
      (* 'Flight data not loaded' *)
  | FailedToLoad (cause : Error)
      (* `Failed to load flight data: ${error}` *)
  | RangeErrorInvalidTime.
      (* the RangeError thrown by format: 'Invalid time value' for an
         Invalid Date, 'Invalid time zone specified: ...' for a zone the
         library does not know *)

Inductive Result (A : Type) : Type :=
  | Ok (a : A)
  | Throw (e : Error).
Arguments Ok {A} a.
Arguments Throw {A} e.

(** ** src/types/index.ts *)

Record Airport := mkAirport {
  code : string;
  name : string;
  city : string;
  country : string;
  timezone : string
}.

Record Flight := mkFlight {
  flightNumber : string;
  airline : string;
  origin : string;
  destination : string;
  departureTime : string;
  arrivalTime : string;
  price : float;
  aircraft : string
}.

Record FlightData := mkFlightData {
  airports : list Airport;
  flights : list Flight
}.

Record SearchParams := mkSearchParams {
  sp_origin : string;
  sp_destination : string;
  sp_date : string
}.

Record FlightSegment := mkFlightSegment {
  seg_flightNumber : string;
  seg_airline : string;
  seg_origin : string;
  seg_originCountry : string;
  seg_originCity : string;
  seg_destination : string;
  seg_destinationCountry : string;
  seg_destinationCity : string;
  seg_departureTime : string;
  seg_arrivalTime : string;
  seg_duration : number;
  seg_price : float
}.

Record Layover := mkLayover {
  lay_airport : string;
  lay_airportCity : string;
  lay_airportCountry : string;
  lay_duration : number;
  lay_isDomestic : bool
}.

Record Itinerary := mkItinerary {
  id : string;
  segments : list FlightSegment;
  layovers : list Layover;
  totalDuration : number;
  totalPrice : float;
  stops : Z
}.

Record SearchResponse := mkSearchResponse {
  itineraries : list Itinerary;
  searchParams : SearchParams;
  totalResults : nat
}.

(** [FlightWithMetadata extends Flight]: the coercion gives a flight with
    metadata every field of the raw flight it was spread from. *)
Record FlightWithMetadata := mkFlightWithMetadata {
  flight :> Flight;
  originAirport : Airport;
  destinationAirport : Airport;
  departureDateUTC : Date;
  arrivalDateUTC : Date;
  durationMinutes : number
}.

Record ConnectionCandidate := mkConnectionCandidate {
  cand_segments : list FlightWithMetadata;
  cand_totalDuration : number;
  cand_totalPrice : float
}.

(** ** The date libraries (date-fns, date-fns-tz)

    The three library functions whose result depends on the time-zone
    database and on the zone of the process are an interface; everything
    proved for all searches holds for every implementation of it.  The two
    laws are the libraries' behaviour on an Invalid Date: [utcToZonedTime]
    returns an Invalid Date, [format] throws a RangeError. *)
Class DateLibrary := {
  parseISO : string -> Date;
  utcToZonedTime : Date -> string -> Date;
  (* format(date, "yyyy-MM-dd'T'HH:mm:ssXXX", { timeZone }); None: throws *)
  format : Date -> string -> option string;
  utcToZonedTime_invalid : forall tz, utcToZonedTime None tz = None;
  format_invalid : forall tz, format None tz = None
}.

(** [differenceInMinutes(dateLeft, dateRight)]: the difference of the time
    values in minutes, rounded towards zero; NaN if either date is invalid.
    The library subtracts and divides doubles; that is this exact quotient
    whenever the two time values are less than 2^53 ms apart. *)
Definition differenceInMinutes (dateLeft dateRight : Date) : number :=
  match dateLeft, dateRight with
  | Some l, Some r => Some (Z.quot (l - r) 60000)
  | _, _ => None
  end.

(** ** src/utils/dateUtils.ts *)

Section DateUtils.
Context `{DateLibrary}.

Definition localTimeToUTC (localTimeString timezone : string) : Date :=
  let date := parseISO localTimeString in
  let zonedDate := utcToZonedTime date timezone in
  newDate (num_sub (getTime date)
                   (num_sub (getTime zonedDate) (getTime date))).

Definition utcToLocalTime (utcDate : Date) (timezone : string)
  : option string :=
  let zonedDate := utcToZonedTime utcDate timezone in
  format zonedDate timezone.

Definition calculateDuration (departureUTC arrivalUTC : Date) : number :=
  differenceInMinutes arrivalUTC departureUTC.

Definition calculateLayoverDuration (firstArrivalUTC secondDepartureUTC : Date)
  : number :=
  differenceInMinutes secondDepartureUTC firstArrivalUTC.
End DateUtils.

(** ** src/utils/connectionRules.ts *)

Module LAYOVER_CONSTRAINTS.
Definition MIN_DOMESTIC : Z := 45.
Definition MIN_INTERNATIONAL : Z := 90.
Definition MAX : Z := 360.
End LAYOVER_CONSTRAINTS.

Definition isDomesticConnection (arrivingFlight departingFlight : FlightWithMetadata)
  : bool :=
  String.eqb (country (destinationAirport arrivingFlight))
             (country (originAirport departingFlight)).

Definition isValidLayoverDuration (layoverMinutes : number) (isDomestic : bool)
  : bool :=
  let minRequired :=
    if isDomestic then LAYOVER_CONSTRAINTS.MIN_DOMESTIC
    else LAYOVER_CONSTRAINTS.MIN_INTERNATIONAL in
  num_geb layoverMinutes minRequired && num_leb layoverMinutes LAYOVER_CONSTRAINTS.MAX.

Definition canConnect (firstFlight secondFlight : FlightWithMetadata)
    (layoverMinutes : number) : bool :=
  if negb (String.eqb (destination firstFlight) (origin secondFlight)) then false
  else if date_leb (departureDateUTC secondFlight) (arrivalDateUTC firstFlight)
  then false
  else
    let isDomestic := isDomesticConnection firstFlight secondFlight in
    isValidLayoverDuration layoverMinutes isDomestic.

(** [/^\d{4}-\d{2}-\d{2}$/.test(date)] *)
Definition isDigit (c : ascii) : bool :=
  let n := nat_of_ascii c in (48 <=? n)%nat && (n <=? 57)%nat.

Definition isDash (c : ascii) : bool := Ascii.eqb c "-"%char.

Definition isValidDateFormat (date : string) : bool :=
  match date with
  | String y1 (String y2 (String y3 (String y4 (String d1
      (String m1 (String m2 (String d2 (String a1 (String a2 EmptyString)))))))))
    => isDigit y1 && isDigit y2 && isDigit y3 && isDigit y4 && isDash d1
       && isDigit m1 && isDigit m2 && isDash d2 && isDigit a1 && isDigit a2
  | _ => false
  end.

(** ** The state-and-exception monad

    A computation reads and updates a state [S] and either returns a value
    or throws; the state reached when it throws is kept, as a JavaScript
    exception does not undo the assignments made before it. *)

Definition ST (S A : Type) : Type := S -> Result A * S.

Definition ret {S A} (a : A) : ST S A := fun s => (Ok a, s).

Definition throw {S A} (e : Error) : ST S A := fun s => (Throw e, s).

Definition bind {S A B} (m : ST S A) (k : A -> ST S B) : ST S B :=
  fun s =>
    match m s with
    | (Ok a, s') => k a s'
    | (Throw e, s') => (Throw e, s')
    end.

Definition get {S} : ST S S := fun s => (Ok s, s).

Definition put {S} (s : S) : ST S unit := fun _ => (Ok tt, s).

(** A function that only throws, run inside a stateful computation. *)
Definition liftResult {S A} (r : Result A) : ST S A := fun s => (r, s).

Notation "'let*' x ':=' m 'in' k" := (bind m (fun x => k))
  (at level 10, x name, m at level 100, k at level 200).
Notation "'do' m 'then' k" := (bind m (fun _ => k))
  (at level 10, m at level 100, k at level 200).

(** [array.map(f)] where [f] may throw or change the state: elements are
    visited left to right and the first exception ends the traversal. *)
Fixpoint mapST {S A B} (f : A -> ST S B) (l : list A) : ST S (list B) :=
  match l with
  | [] => ret []
  | x :: l' =>
      let* y := f x in
      let* ys := mapST f l' in
      ret (y :: ys)
  end.

(** ** src/services/DataLoader.ts *)

Record DataLoader := mkDataLoader {
  flightData : option FlightData;
  airportMap : gmap string Airport;
  flightsWithMetadata : list FlightWithMetadata;
  flightsByOrigin : gmap string (list FlightWithMetadata);
  flightsByDestination : gmap string (list FlightWithMetadata);
  flightsByDate : gmap string (list FlightWithMetadata)
}.

(** The singleton as its private constructor leaves it. *)
Definition newDataLoader : DataLoader :=
  mkDataLoader None ∅ [] ∅ ∅ ∅.

(** [s.split('T')[0]]: the part of [s] before its first ['T']. *)
Fixpoint splitT0 (s : string) : string :=
  match s with
  | EmptyString => EmptyString
  | String c s' => if Ascii.eqb c "T"%char then EmptyString else String c (splitT0 s')
  end.

(** One of the three [forEach] loops of [buildIndices]:
    [const flights = index.get(key) || []; flights.push(flight);
     index.set(key, flights)]. *)
Definition indexFlight (key : FlightWithMetadata -> string)
    (index : gmap string (list FlightWithMetadata)) (flight : FlightWithMetadata)
  : gmap string (list FlightWithMetadata) :=
  let flights := default [] (index !! key flight) in
  <[key flight := flights ++ [flight]]> index.

Section Loader.
Context `{DateLibrary}.

Definition enrichFlightWithMetadata (this : DataLoader) (flight : Flight)
  : Result FlightWithMetadata :=
  match airportMap this !! origin flight, airportMap this !! destination flight with
  | Some originAirport, Some destinationAirport =>
      let departureDateUTC :=
        localTimeToUTC (departureTime flight) (timezone originAirport) in
      let arrivalDateUTC :=
        localTimeToUTC (arrivalTime flight) (timezone destinationAirport) in
      let durationMinutes := calculateDuration departureDateUTC arrivalDateUTC in
      Ok (mkFlightWithMetadata flight originAirport destinationAirport
            departureDateUTC arrivalDateUTC durationMinutes)
  | _, _ =>
      Throw (MissingAirportData (flightNumber flight) (origin flight)
               (destination flight))
  end.

Definition buildIndices : ST DataLoader unit :=
  let* this := get in
  match flightData this with
  | None => throw FlightDataNotLoaded
  | Some data =>
      (* Build airport map *)
      let airportMap' :=
        foldl (fun m airport => <[code airport := airport]> m)
              (airportMap this) (airports data) in
      do put (mkDataLoader (flightData this) airportMap'
                (flightsWithMetadata this) (flightsByOrigin this)
                (flightsByDestination this) (flightsByDate this)) then
      let* this := get in
      (* Process flights and build metadata *)
      let* enriched :=
        mapST (fun flight => liftResult (enrichFlightWithMetadata this flight))
              (flights data) in
      (* Index by origin, by destination, by departure date *)
      let byOrigin :=
        foldl (indexFlight (fun f => origin f)) (flightsByOrigin this) enriched in
      let byDestination :=
        foldl (indexFlight (fun f => destination f))
              (flightsByDestination this) enriched in
      let byDate :=
        foldl (indexFlight (fun f => splitT0 (departureTime f)))
              (flightsByDate this) enriched in
      put (mkDataLoader (flightData this) (airportMap this) enriched
             byOrigin byDestination byDate)
  end.

(** [loadData]: the argument is the parsed content of the data file. *)
Definition loadData (data : FlightData) : ST DataLoader unit :=
  fun this =>
    let this' := mkDataLoader (Some data) (airportMap this)
                   (flightsWithMetadata this) (flightsByOrigin this)
                   (flightsByDestination this) (flightsByDate this) in
    match buildIndices this' with
    | (Ok u, this'') => (Ok u, this'')
    | (Throw error, this'') => (Throw (FailedToLoad error), this'')
    end.
End Loader.

Definition getAirport (this : DataLoader) (code : string) : option Airport :=
  airportMap this !! code.

Definition getFlightsByOriginAndDate (this : DataLoader) (origin' date : string)
  : list FlightWithMetadata :=
  let allFlightsFromOrigin : list FlightWithMetadata :=
    default [] (flightsByOrigin this !! origin') in
  List.filter (fun flight : FlightWithMetadata =>
            let departureDate := splitT0 (departureTime flight) in
            String.eqb departureDate date)
         allFlightsFromOrigin.

Definition getDirectFlights (this : DataLoader) (origin' destination' date : string)
  : list FlightWithMetadata :=
  let flightsFromOrigin := getFlightsByOriginAndDate this origin' date in
  List.filter (fun flight : FlightWithMetadata =>
            String.eqb (destination flight) destination')
         flightsFromOrigin.

Definition getFlightsDepartingFrom (this : DataLoader) (airport : string)
  : list FlightWithMetadata :=
  default [] (flightsByOrigin this !! airport).

Definition isDataLoaded (this : DataLoader) : bool :=
  match flightData this with Some _ => true | None => false end.

(** ** The process state seen by a search

    A search reads the loader singleton and draws identifiers from the
    random source behind [uuidv4()]; [uuidSource n] is the [n]-th identifier
    the source will produce next. *)

Record World := mkWorld {
  dataLoader : DataLoader;
  uuidSource : nat -> string
}.

(** [uuidv4()]: returns the next identifier and advances the source. *)
Definition uuidv4 : ST World string :=
  fun w => (Ok (uuidSource w 0%nat),
            mkWorld (dataLoader w) (fun n => uuidSource w (S n))).

Definition reads {S A} (f : S -> A) : ST S A := fun s => (Ok (f s), s).

(** ** [Array.prototype.sort(compareFn)]

    The sort is stable, and [x] goes after [y] only when
    [compareFn(x, y) > 0]; a NaN from the comparator counts as [+0].  With a
    consistent comparator these rules fix the result, computed here by
    insertion from the right. *)

Definition compareValue (v : number) : Z :=
  match v with Some z => z | None => 0%Z end.

Section ArraySort.
Context {A : Type} (compareFn : A -> A -> number).

Fixpoint sortInsert (x : A) (l : list A) : list A :=
  match l with
  | [] => [x]
  | y :: l' =>
      if (0 <? compareValue (compareFn x y))%Z then y :: sortInsert x l'
      else x :: y :: l'
  end.

Fixpoint Array_sort (l : list A) : list A :=
  match l with
  | [] => []
  | x :: l' => sortInsert x (Array_sort l')
  end.
End ArraySort.

(** ** src/services/FlightSearchService.ts *)

Definition validateSearchParams (loader : DataLoader) (params : SearchParams)
  : Result unit :=
  let origin' := sp_origin params in
  let destination' := sp_destination params in
  let date := sp_date params in
  (* Check if airports exist *)
  let originAirport := getAirport loader origin' in
  let destinationAirport := getAirport loader destination' in
  match originAirport with
  | None => Throw (InvalidOriginAirport origin')
  | Some _ =>
  match destinationAirport with
  | None => Throw (InvalidDestinationAirport destination')
  | Some _ =>
  (* Check if origin and destination are different *)
  if String.eqb origin' destination' then Throw SameOriginDestination
  (* Validate date format *)
  else if negb (isValidDateFormat date) then Throw InvalidDateFormat
  else Ok tt
  end end.

Definition findDirectFlights (loader : DataLoader) (origin' destination' date : string)
  : list ConnectionCandidate :=
  let directFlights := getDirectFlights loader origin' destination' date in
  List.map (fun flight : FlightWithMetadata =>
         mkConnectionCandidate [flight] (durationMinutes flight) (price flight))
      directFlights.

Section Search.
Context `{DateLibrary}.

Definition findOneStopConnections (loader : DataLoader)
    (origin' destination' date : string) : list ConnectionCandidate :=
  let firstLegFlights := getFlightsByOriginAndDate loader origin' date in
  List.flat_map (fun firstFlight : FlightWithMetadata =>
    (* Skip if it's a direct flight to destination *)
    if String.eqb (destination firstFlight) destination' then []
    else
      let secondLegFlights :=
        getFlightsDepartingFrom loader (destination firstFlight) in
      List.flat_map (fun secondFlight : FlightWithMetadata =>
        (* Must go to our destination *)
        if negb (String.eqb (destination secondFlight) destination') then []
        else
          let layoverMinutes :=
            calculateLayoverDuration (arrivalDateUTC firstFlight)
                                     (departureDateUTC secondFlight) in
          if canConnect firstFlight secondFlight layoverMinutes then
            let totalDuration :=
              num_add (num_add (durationMinutes firstFlight) layoverMinutes)
                      (durationMinutes secondFlight) in
            [mkConnectionCandidate [firstFlight; secondFlight] totalDuration
               (price firstFlight + price secondFlight)%float]
          else [])
        secondLegFlights)
    firstLegFlights.

Definition findTwoStopConnections (loader : DataLoader)
    (origin' destination' date : string) : list ConnectionCandidate :=
  let firstLegFlights := getFlightsByOriginAndDate loader origin' date in
  List.flat_map (fun firstFlight : FlightWithMetadata =>
    (* Skip if direct to destination *)
    if String.eqb (destination firstFlight) destination' then []
    else
      let secondLegFlights :=
        getFlightsDepartingFrom loader (destination firstFlight) in
      List.flat_map (fun secondFlight : FlightWithMetadata =>
        (* Skip if reaches destination (that's 1-stop, not 2-stop) *)
        if String.eqb (destination secondFlight) destination' then []
        (* Skip if goes back to origin (circular route) *)
        else if String.eqb (destination secondFlight) origin' then []
        else
          let firstLayover :=
            calculateLayoverDuration (arrivalDateUTC firstFlight)
                                     (departureDateUTC secondFlight) in
          if negb (canConnect firstFlight secondFlight firstLayover) then []
          else
            let thirdLegFlights :=
              getFlightsDepartingFrom loader (destination secondFlight) in
            List.flat_map (fun thirdFlight : FlightWithMetadata =>
              (* Must reach destination *)
              if negb (String.eqb (destination thirdFlight) destination') then []
              else
                let secondLayover :=
                  calculateLayoverDuration (arrivalDateUTC secondFlight)
                                           (departureDateUTC thirdFlight) in
                if canConnect secondFlight thirdFlight secondLayover then
                  let totalDuration :=
                    num_add (num_add (num_add (num_add
                      (durationMinutes firstFlight) firstLayover)
                      (durationMinutes secondFlight)) secondLayover)
                      (durationMinutes thirdFlight) in
                  [mkConnectionCandidate
                     [firstFlight; secondFlight; thirdFlight] totalDuration
                     (price firstFlight + price secondFlight
                      + price thirdFlight)%float]
                else [])
              thirdLegFlights)
        secondLegFlights)
    firstLegFlights.

(** [utcToLocalTime] inside a search: a throwing [format] ends the search. *)
Definition utcToLocalTimeST (utcDate : Date) (timezone : string)
  : ST World string :=
  match utcToLocalTime utcDate timezone with
  | Some s => ret s
  | None => throw RangeErrorInvalidTime
  end.

Definition toSegment (flight : FlightWithMetadata) : ST World FlightSegment :=
  let* departureTime' :=
    utcToLocalTimeST (departureDateUTC flight) (timezone (originAirport flight)) in
  let* arrivalTime' :=
    utcToLocalTimeST (arrivalDateUTC flight)
                     (timezone (destinationAirport flight)) in
  ret (mkFlightSegment
         (flightNumber flight) (airline flight)
         (origin flight)
         (country (originAirport flight)) (city (originAirport flight))
         (destination flight)
         (country (destinationAirport flight)) (city (destinationAirport flight))
         departureTime' arrivalTime'
         (durationMinutes flight) (price flight)).

(** The loop [for (i = 0; i < segments.length - 1; i++)] over adjacent
    flights. *)
Fixpoint toLayovers (segments : list FlightWithMetadata) : list Layover :=
  match segments with
  | currentFlight :: ((nextFlight :: _) as rest) =>
      let layoverDuration :=
        calculateLayoverDuration (arrivalDateUTC currentFlight)
                                 (departureDateUTC nextFlight) in
      let isDomestic := isDomesticConnection currentFlight nextFlight in
      mkLayover (destination currentFlight)
                (city (destinationAirport currentFlight))
                (country (destinationAirport currentFlight))
                layoverDuration isDomestic
      :: toLayovers rest
  | _ => []
  end.

Definition candidateToItinerary (candidate : ConnectionCandidate)
  : ST World Itinerary :=
  let* segments' := mapST toSegment (cand_segments candidate) in
  let layovers' := toLayovers (cand_segments candidate) in
  let* id' := uuidv4 in
  ret (mkItinerary id' segments' layovers'
         (cand_totalDuration candidate) (cand_totalPrice candidate)
         (Z.of_nat (length (cand_segments candidate)) - 1)%Z).

Definition convertToItineraries (candidates : list ConnectionCandidate)
  : ST World (list Itinerary) :=
  mapST candidateToItinerary candidates.

Definition byTotalDuration (a b : Itinerary) : number :=
  num_sub (totalDuration a) (totalDuration b).

Definition search (params : SearchParams) : ST World SearchResponse :=
  let origin' := sp_origin params in
  let destination' := sp_destination params in
  let date := sp_date params in
  (* Validate inputs *)
  let* loader := reads dataLoader in
  do liftResult (validateSearchParams loader params) then
  (* Find direct flights *)
  let* loader := reads dataLoader in
  let directFlights := findDirectFlights loader origin' destination' date in
  let* direct := convertToItineraries directFlights in
  (* Find 1-stop connections *)
  let* loader := reads dataLoader in
  let oneStopConnections :=
    findOneStopConnections loader origin' destination' date in
  let* oneStop := convertToItineraries oneStopConnections in
  (* Find 2-stop connections *)
  let* loader := reads dataLoader in
  let twoStopConnections :=
    findTwoStopConnections loader origin' destination' date in
  let* twoStop := convertToItineraries twoStopConnections in
  (* Sort by total duration (shortest first) *)
  let itineraries' := Array_sort byTotalDuration (direct ++ oneStop ++ twoStop) in
  ret (mkSearchResponse itineraries' params (length itineraries')).
End Search.

(** ** An executable model of the date libraries

    [DateFns] implements the [DateLibrary] interface for a process whose own
    zone is UTC, for the wall-clock strings of the data file
    ([yyyy-MM-ddTHH:mm:ss], years 0000 to 9999) and for a small table of
    IANA zones with their 2024 daylight-saving rules.  It is what the
    concrete examples below run on, all of them in 2024, where the table
    is that of the time-zone database. *)

Module DateFns.
Local Open Scope Z_scope.

Definition isLeapYear (y : Z) : bool :=
  ((y mod 4 =? 0) && negb (y mod 100 =? 0)) || (y mod 400 =? 0).

Definition daysInMonth (y m : Z) : Z :=
  if m =? 2 then (if isLeapYear y then 29 else 28)
  else if (m =? 4) || (m =? 6) || (m =? 9) || (m =? 11) then 30
  else 31.

(** Days from 1970-01-01 to the civil date [y]-[m]-[d]. *)
Definition daysFromCivil (y m d : Z) : Z :=
  let y' := if m <=? 2 then y - 1 else y in
  let era := y' / 400 in
  let yoe := y' - era * 400 in
  let mp := if 2 <? m then m - 3 else m + 9 in
  let doy := (153 * mp + 2) / 5 + d - 1 in
  let doe := yoe * 365 + yoe / 4 - yoe / 100 + doy in
  era * 146097 + doe - 719468.

(** The civil date (year, month, day) of a day count from 1970-01-01. *)
Definition civilFromDays (z : Z) : Z * Z * Z :=
  let z' := z + 719468 in
  let era := z' / 146097 in
  let doe := z' - era * 146097 in
  let yoe := (doe - doe / 1460 + doe / 36524 - doe / 146096) / 365 in
  let doy := doe - (365 * yoe + yoe / 4 - yoe / 100) in
  let mp := (5 * doy + 2) / 153 in
  let d := doy - (153 * mp + 2) / 5 + 1 in
  let m := if mp <? 10 then mp + 3 else mp - 9 in
  let y := yoe + era * 400 in
  (if m <=? 2 then y + 1 else y, m, d).

(** [Date.UTC(y, m - 1, d, hh, mm, ss)] *)
Definition utc (y m d hh mm ss : Z) : Z :=
  ((daysFromCivil y m d * 24 + hh) * 60 + mm) * 60000 + ss * 1000.

Definition digitValue (c : ascii) : option Z :=
  if isDigit c then Some (Z.of_nat (nat_of_ascii c) - 48) else None.

Definition twoDigits (a b : ascii) : option Z :=
  x ← digitValue a; y ← digitValue b; Some (10 * x + y).

Definition validateDate (y m d : Z) : bool :=
  (1 <=? m) && (m <=? 12) && (1 <=? d) && (d <=? daysInMonth y m).

Definition validateTime (hh mm ss : Z) : bool :=
  if hh =? 24 then (mm =? 0) && (ss =? 0)
  else (ss <? 60) && (mm <? 60) && (hh <? 25).

(** [parseISO] on a date-time without offset: the wall-clock reading is
    taken in the zone of the process, here UTC; a string of another shape,
    or one that fails the library's range checks, gives an Invalid Date. *)
Definition parseISO (s : string) : Date :=
  match list_ascii_of_string s with
  | [y1; y2; y3; y4; s1; m1; m2; s2; d1; d2; t; h1; h2; c1; n1; n2; c2; e1; e2] =>
      if isDash s1 && isDash s2 && Ascii.eqb t "T" && Ascii.eqb c1 ":"
         && Ascii.eqb c2 ":"
      then
        yh ← twoDigits y1 y2; yl ← twoDigits y3 y4;
        m ← twoDigits m1 m2; d ← twoDigits d1 d2;
        hh ← twoDigits h1 h2; mm ← twoDigits n1 n2; ss ← twoDigits e1 e2;
        let y := 100 * yh + yl in
        if validateDate y m d && validateTime hh mm ss
        then Some (utc y m d hh mm ss) else None
      else None
  | _ => None
  end.

Definition hour : Z := 3600000.

(** A zone that keeps [standard] except between the two instants, where
    it is one hour ahead. *)
Definition withDST (standard dstStart dstEnd : Z) (instant : Z) : Z :=
  if (dstStart <=? instant) && (instant <? dstEnd) then standard + hour
  else standard.

(** The offset from UTC, in milliseconds, of a zone at an absolute
    instant; [None] for an identifier outside the table. *)
Definition zoneOffset (timezone : string) : option (Z -> Z) :=
  if String.eqb timezone "UTC" then Some (fun _ => 0)
  else if String.eqb timezone "America/New_York" then
    Some (withDST (-5 * hour) (utc 2024 3 10 7 0 0) (utc 2024 11 3 6 0 0))
  else if String.eqb timezone "America/Chicago" then
    Some (withDST (-6 * hour) (utc 2024 3 10 8 0 0) (utc 2024 11 3 7 0 0))
  else if String.eqb timezone "America/Los_Angeles" then
    Some (withDST (-8 * hour) (utc 2024 3 10 10 0 0) (utc 2024 11 3 9 0 0))
  else if String.eqb timezone "Europe/London" then
    Some (withDST 0 (utc 2024 3 31 1 0 0) (utc 2024 10 27 1 0 0))
  else None.

(** [utcToZonedTime(date, timeZone)]: a Date whose fields, read in the
    zone of the process, show the wall clock of [timeZone] at [date]. *)
Definition utcToZonedTime (date : Date) (timezone : string) : Date :=
  instant ← date; offset ← zoneOffset timezone; Some (instant + offset instant).

Definition digitChar (n : Z) : ascii := ascii_of_nat (Z.to_nat (48 + n mod 10)).

Definition pad2 (n : Z) : string :=
  String (digitChar (n / 10)) (String (digitChar n) EmptyString).

Definition pad4 (n : Z) : string := (pad2 (n / 100) ++ pad2 (n mod 100))%string.

(** The token [XXX]: [Z] for a zero offset, else sign, hours and minutes. *)
Definition formatOffset (offset : Z) : string :=
  if offset =? 0 then "Z"
  else
    let minutes := Z.abs offset / 60000 in
    let sign := if offset <? 0 then "-" else "+" in
    (sign ++ pad2 (minutes / 60) ++ ":" ++ pad2 (minutes mod 60))%string.

(** [format(date, "yyyy-MM-dd'T'HH:mm:ssXXX", { timeZone })]: the fields of
    [date] in the zone of the process, then the offset of [timeZone] at
    [date]; throws on an Invalid Date. *)
Definition format (date : Date) (timezone : string) : option string :=
  t ← date; offset ← zoneOffset timezone;
  let '(y, m, d) := civilFromDays (t / 86400000) in
  let ms := t mod 86400000 in
  let HH := pad2 (ms / 3600000) in
  let mm := pad2 (ms / 60000 mod 60) in
  let ss := pad2 (ms / 1000 mod 60) in
  Some (pad4 y ++ "-" ++ pad2 m ++ "-" ++ pad2 d ++ "T"
        ++ HH ++ ":" ++ mm ++ ":" ++ ss ++ formatOffset (offset t))%string.

End DateFns.

#[export] Instance dateFns : DateLibrary := {|
  parseISO := DateFns.parseISO;
  utcToZonedTime := DateFns.utcToZonedTime;
  format := DateFns.format;
  utcToZonedTime_invalid := fun _ => eq_refl;
  format_invalid := fun _ => eq_refl
|}.

(** ** Properties of a search result, as the specification words them *)

(** Every pair of neighbours in a list is related by [R]. *)
Fixpoint adjacent {A : Type} (R : A -> A -> Prop) (l : list A) : Prop :=
  match l with
  | x :: ((y :: _) as rest) => R x y /\ adjacent R rest
  | _ => True
  end.

(** Leg [a] hands over to leg [b]: same airport, and [b] leaves strictly
    after [a] has arrived, both as absolute instants. *)
Definition connects (a b : FlightWithMetadata) : Prop :=
  destination a = origin b /\
  date_lt (arrivalDateUTC a) (departureDateUTC b).

(** [a <= b] on numbers as a proposition; false when either is NaN. *)
Definition num_le (a b : number) : Prop :=
  match a, b with
  | Some x, Some y => (x <= y)%Z
  | _, _ => False
  end.

(** The layover records [ls] sit between the neighbouring legs of [legs],
    each flagged domestic exactly when the two airports share a country and
    each with a duration inside the window of its flag. *)
Fixpoint layoverRule (legs : list FlightWithMetadata) (ls : list Layover) : Prop :=
  match legs, ls with
  | arriving :: ((departing :: _) as rest), l :: ls' =>
      (lay_isDomestic l = true <->
       country (destinationAirport arriving) = country (originAirport departing))
      /\ (exists minutes,
            lay_duration l = Some minutes /\
            ((if lay_isDomestic l then 45 else 90) <= minutes <= 360)%Z)
      /\ layoverRule rest ls'
  | [_], [] => True
  | [], [] => True
  | _, _ => False
  end.

(** The condition on a search date as the specification words it: the
    shape [YYYY-MM-DD] and a day that exists in the calendar. *)
Definition specCalendarValidDate (date : string) : bool :=
  isValidDateFormat date &&
  match list_ascii_of_string date with
  | [y1; y2; y3; y4; _; m1; m2; _; d1; d2] =>
      match DateFns.twoDigits y1 y2, DateFns.twoDigits y3 y4,
            DateFns.twoDigits m1 m2, DateFns.twoDigits d1 d2 with
      | Some yh, Some yl, Some m, Some d =>
          DateFns.validateDate (100 * yh + yl) m d
      | _, _, _, _ => false
      end
  | _ => false
  end.

(** Itinerary [a] is not longer than itinerary [b]. *)
Definition durationLe (a b : Itinerary) : Prop :=
  num_le (totalDuration a) (totalDuration b).

(** The itinerary lasts exactly [minutes]. *)
Definition lasts (minutes : Z) (it : Itinerary) : bool :=
  match totalDuration it with
  | Some m => (m =? minutes)%Z
  | None => false
  end.

(** The date and time of a formatted timestamp without its offset suffix:
    the first 19 characters. *)
Definition wallClock (formatted : string) : string :=
  String.substring 0 19 formatted.

(** An itinerary with its identifier blanked, to compare responses up to
    the identifiers drawn for them. *)
Definition withoutId (it : Itinerary) : Itinerary :=
  mkItinerary "" (segments it) (layovers it) (totalDuration it)
    (totalPrice it) (stops it).

Definition mapResult {A B} (f : A -> B) (r : Result A) : Result B :=
  match r with
  | Ok a => Ok (f a)
  | Throw e => Throw e
  end.

Definition withoutIds (r : Result SearchResponse) : Result SearchResponse :=
  match r with
  | Ok resp =>
      Ok (mkSearchResponse (List.map withoutId (itineraries resp))
            (searchParams resp) (totalResults resp))
  | Throw e => Throw e
  end.

(** The loader once [buildIndices] has filled the airport table from
    [data], before any flight is processed. *)
Definition withAirports (this : DataLoader) (data : FlightData) : DataLoader :=
  mkDataLoader (flightData this)
    (foldl (fun m airport => <[code airport := airport]> m)
           (airportMap this) (airports data))
    (flightsWithMetadata this) (flightsByOrigin this)
    (flightsByDestination this) (flightsByDate this).

(** The loader once [loadData] has stored the parsed file. *)
Definition withData (this : DataLoader) (data : FlightData) : DataLoader :=
  mkDataLoader (Some data) (airportMap this) (flightsWithMetadata this)
    (flightsByOrigin this) (flightsByDestination this) (flightsByDate this).

Section Stores.
Context `{DateLibrary}.

(** Itinerary [it] is what [candidateToItinerary] makes of [candidate]. *)
Definition assembledFrom (candidate : ConnectionCandidate) (it : Itinerary)
  : Prop :=
  exists w w', candidateToItinerary candidate w = (Ok it, w').

(** The loader states a process can reach: the fresh singleton, then any
    number of [loadData] calls, whether they return or throw. *)
Inductive reachable : DataLoader -> Prop :=
  | reachable_new : reachable newDataLoader
  | reachable_load data this r this' :
      reachable this -> loadData data this = (r, this') -> reachable this'.

(** What every bucket of the by-origin index holds: flights that leave
    from the bucket's key and whose duration is the difference of their
    two instants. *)
Definition originIndexOk (this : DataLoader) : Prop :=
  forall key bucket,
    flightsByOrigin this !! key = Some bucket ->
    Forall (fun f : FlightWithMetadata =>
              origin f = key /\
              durationMinutes f
              = calculateDuration (departureDateUTC f) (arrivalDateUTC f))
           bucket.
End Stores.

(** What the search knows of a candidate: the legs it is made of, how each
    hands over to the next, where they come from in the store, and the
    total duration computed for them. *)
Inductive candidateShape (loader : DataLoader) (o d date : string)
  : ConnectionCandidate -> Prop :=
| shape_direct f price' :
    In f (getFlightsByOriginAndDate loader o date) ->
    destination f = d ->
    candidateShape loader o d date
      (mkConnectionCandidate [f] (durationMinutes f) price')
| shape_oneStop f1 f2 price' :
    In f1 (getFlightsByOriginAndDate loader o date) ->
    In f2 (getFlightsDepartingFrom loader (destination f1)) ->
    canConnect f1 f2
      (calculateLayoverDuration (arrivalDateUTC f1) (departureDateUTC f2)) = true ->
    destination f2 = d ->
    candidateShape loader o d date
      (mkConnectionCandidate [f1; f2]
         (num_add (num_add (durationMinutes f1)
                     (calculateLayoverDuration (arrivalDateUTC f1)
                        (departureDateUTC f2)))
                  (durationMinutes f2))
         price')
| shape_twoStop f1 f2 f3 price' :
    In f1 (getFlightsByOriginAndDate loader o date) ->
    In f2 (getFlightsDepartingFrom loader (destination f1)) ->
    In f3 (getFlightsDepartingFrom loader (destination f2)) ->
    destination f2 <> o ->
    destination f2 <> d ->
    canConnect f1 f2
      (calculateLayoverDuration (arrivalDateUTC f1) (departureDateUTC f2)) = true ->
    canConnect f2 f3
      (calculateLayoverDuration (arrivalDateUTC f2) (departureDateUTC f3)) = true ->
    destination f3 = d ->
    candidateShape loader o d date
      (mkConnectionCandidate [f1; f2; f3]
         (num_add (num_add (num_add (num_add (durationMinutes f1)
            (calculateLayoverDuration (arrivalDateUTC f1) (departureDateUTC f2)))
            (durationMinutes f2))
            (calculateLayoverDuration (arrivalDateUTC f2) (departureDateUTC f3)))
            (durationMinutes f3))
         price').

(** ** Sample data *)

Module Sample.
Definition JFK := mkAirport "JFK" "John F. Kennedy International" "New York"
                    "US" "America/New_York".
Definition ORD := mkAirport "ORD" "O'Hare International" "Chicago"
                    "US" "America/Chicago".
Definition SFO := mkAirport "SFO" "San Francisco International"
                    "San Francisco" "US" "America/Los_Angeles".
Definition LAX := mkAirport "LAX" "Los Angeles International" "Los Angeles"
                    "US" "America/Los_Angeles".
Definition LHR := mkAirport "LHR" "Heathrow" "London" "GB" "Europe/London".

Definition SP101 := mkFlight "SP101" "SkyPath" "JFK" "LAX"
  "2024-03-15T08:30:00" "2024-03-15T11:45:00" 299%float "A320".
Definition SP201 := mkFlight "SP201" "SkyPath" "JFK" "ORD"
  "2024-03-15T08:00:00" "2024-03-15T09:30:00" 120%float "B737".
Definition SP202 := mkFlight "SP202" "SkyPath" "ORD" "LAX"
  "2024-03-15T10:15:00" "2024-03-15T12:30:00" 150%float "B737".
Definition SP203 := mkFlight "SP203" "SkyPath" "ORD" "SFO"
  "2024-03-15T10:30:00" "2024-03-15T13:00:00" 140%float "A320".
Definition SP204 := mkFlight "SP204" "SkyPath" "SFO" "LAX"
  "2024-03-15T14:00:00" "2024-03-15T15:30:00" 80%float "E175".
(* a sightseeing round trip: leaves from and lands at JFK *)
Definition SP301 := mkFlight "SP301" "SkyPath" "JFK" "JFK"
  "2024-03-15T05:00:00" "2024-03-15T07:00:00" 50%float "DHC6".
(* lands, on the absolute time line, four hours before it leaves *)
Definition SP900 := mkFlight "SP900" "SkyPath" "LAX" "JFK"
  "2024-03-15T10:00:00" "2024-03-15T09:00:00" 99%float "A320".

Definition allAirports := [JFK; ORD; SFO; LAX; LHR].

Definition data : FlightData :=
  mkFlightData allAirports [SP101; SP201; SP202; SP203; SP204].

Definition dataWithRoundTrip : FlightData :=
  mkFlightData allAirports [SP201; SP202; SP301].

Definition dataWithNegativeDuration : FlightData :=
  mkFlightData allAirports [SP101; SP900].

Definition oneFlight : FlightData := mkFlightData [JFK; LAX] [SP101].

(** The identifiers the random source hands out: here the decimal
    numerals 0, 1, 2, ..., each drawn once. *)
Definition numerals (n : nat) : string := pretty n.

Definition loaderAfter (d : FlightData) : DataLoader :=
  snd (loadData d newDataLoader).

Definition worldAfter (d : FlightData) : World :=
  mkWorld (loaderAfter d) numerals.

(** The flight numbers in a bucket of an index, in bucket order. *)
Definition flightNumbers (bucket : option (list FlightWithMetadata))
  : list string :=
  List.map (fun f : FlightWithMetadata => flightNumber f) (default [] bucket).

(** The loader after [loadData] has run a second time on the same data. *)
Definition loaderAfterTwo (d : FlightData) : DataLoader :=
  snd (loadData d (loaderAfter d)).

Definition JFKtoLAX (date : string) : SearchParams :=
  mkSearchParams "JFK" "LAX" date.

Definition march15 : SearchParams := JFKtoLAX "2024-03-15".

(** The response to the search JFK to LAX on 2024-03-15 once [d] is
    loaded, and its [n]-th itinerary. *)
Definition response (d : FlightData) : SearchResponse :=
  match fst (search march15 (worldAfter d)) with
  | Ok r => r
  | Throw _ => mkSearchResponse [] march15 0
  end.

Definition itinerary (d : FlightData) (n : nat) : Itinerary :=
  nth n (itineraries (response d)) (mkItinerary "" [] [] None 0%float 0%Z).

(** The world the first search leaves behind, in which a second call of
    the same search runs. *)
Definition worldAfterSearch (d : FlightData) : World :=
  snd (search march15 (worldAfter d)).

Definition identifiers (r : Result SearchResponse) : list string :=
  match r with
  | Ok resp => List.map id (itineraries resp)
  | Throw _ => []
  end.
End Sample.

(** * The rest of the backend and the display helpers

    The functions below are the remaining exports of
    [connectionRules.ts], [dateUtils.ts] and [DataLoader.ts], the error
    middleware ([middleware/errorHandler.ts]) and the display helpers of the
    frontend ([features/flights/utils/flightUtils.ts] and the result header
    of [components/search/FlightResults.tsx]). *)

(** ** More JavaScript numbers *)

(** [a < b], [a > b] and [a === b] against an integer; false on NaN. *)
Definition num_ltb (a : number) (b : Z) : bool :=
  match a with
  | Some x => (x <? b)%Z
  | None => false
  end.

Definition num_gtb (a : number) (b : Z) : bool :=
  match a with
  | Some x => (b <? x)%Z
  | None => false
  end.

Definition num_eqb (a : number) (b : Z) : bool :=
  match a with
  | Some x => (x =? b)%Z
  | None => false
  end.

(** [Math.floor(a / b)] for integers [a] and a positive integer [b].  The
    code divides doubles; for [|a| < 2^53] and [b <= 60000] the double
    quotient has the floor of the exact one. *)
Definition num_floor_div (a : number) (b : Z) : number :=
  match a with
  | Some x => Some (x / b)%Z
  | None => None
  end.

(** [a % b]: the remainder takes the sign of the dividend. *)
Definition num_rem (a : number) (b : Z) : number :=
  match a with
  | Some x => Some (Z.rem x b)
  | None => None
  end.

(** The string a template literal makes of a number: the decimal numeral
    for an integer (exact below 10^21 in magnitude, which covers every
    count of minutes between two Dates), [NaN] for NaN. *)
Definition numberToString (v : number) : string :=
  match v with
  | Some z => pretty z
  | None => "NaN"
  end.

(** [haystack.includes(needle)] *)
Fixpoint includes (haystack needle : string) : bool :=
  String.prefix needle haystack ||
  match haystack with
  | EmptyString => false
  | String _ rest => includes rest needle
  end.

(** ** src/utils/connectionRules.ts, continued *)

(** The loop of [isValidItinerary] over the connections of a path, with
    the layover it computes itself:
    [Math.floor((next.departure - current.arrival) / (1000 * 60))]. *)
Fixpoint everyConnectionValid (segments : list FlightWithMetadata) : bool :=
  match segments with
  | currentFlight :: ((nextFlight :: _) as rest) =>
      let layoverMinutes :=
        num_floor_div
          (num_sub (getTime (departureDateUTC nextFlight))
                   (getTime (arrivalDateUTC currentFlight)))
          (1000 * 60) in
      if negb (canConnect currentFlight nextFlight layoverMinutes) then false
      else everyConnectionValid rest
  | _ => true
  end.

Definition isValidItinerary (segments : list FlightWithMetadata) : bool :=
  match segments with
  | [] => false
  | [_] => true
  | _ => everyConnectionValid segments
  end.

Definition getMinimumLayover (arrivingFlight departingFlight : FlightWithMetadata)
  : Z :=
  let isDomestic := isDomesticConnection arrivingFlight departingFlight in
  if isDomestic then LAYOVER_CONSTRAINTS.MIN_DOMESTIC
  else LAYOVER_CONSTRAINTS.MIN_INTERNATIONAL.

(** ** src/utils/dateUtils.ts, continued *)

Definition formatDuration (minutes : number) : string :=
  let hours := num_floor_div minutes 60 in
  let mins := num_rem minutes 60 in
  if num_eqb hours 0 then numberToString mins ++ "m"
  else if num_gtb mins 0
       then numberToString hours ++ "h " ++ numberToString mins ++ "m"
       else numberToString hours ++ "h".

(** ** src/services/DataLoader.ts, continued *)

Definition getFlightsByDestination (this : DataLoader) (destination' : string)
  : list FlightWithMetadata :=
  default [] (flightsByDestination this !! destination').

Definition getFlightsArrivingAt (this : DataLoader) (airport : string)
  : list FlightWithMetadata :=
  default [] (flightsByDestination this !! airport).

(** [Array.prototype.sort()] without a comparator orders strings by their
    UTF-16 code units; [String.ltb] orders them by their bytes.  On strings
    of ASCII characters, [isASCII], the two orders are the same; what is
    said about the order of the result is said for such strings only. *)
Definition isASCII (s : string) : bool :=
  List.forallb (fun a => (N_of_ascii a <? 128)%N) (list_ascii_of_string s).

Definition compareStrings (x y : string) : number :=
  if String.ltb x y then Some (-1)%Z
  else if String.ltb y x then Some 1%Z
  else Some 0%Z.

Record Stats := mkStats {
  totalAirports : nat;
  totalFlights : nat;
  stats_airports : list string
}.

Definition getStats (this : DataLoader) : Stats :=
  mkStats (size (airportMap this))
          (length (flightsWithMetadata this))
          (Array_sort compareStrings
             (List.map fst (map_to_list (airportMap this)))).

(** [loadData(filePath)] from the path on.  [path.resolve],
    [fs.readFileSync] and [JSON.parse(rawData) as FlightData] make of a path
    either the parsed file or an exception, given here as [String(error)];
    a file whose JSON is not of the shape [FlightData] is outside the
    model.  The [catch] wraps whatever was thrown. *)
Definition FileSystem := string -> FlightData + string.

Inductive LoadError : Type :=
  | ReadFailed (text : string)
      (* `Failed to load flight data: ${error}`, thrown while reading or
         parsing *)
  | IndexFailed (e : Error).
      (* the same, thrown by buildIndices: [e] is [FailedToLoad cause] *)

Section LoadFile.
Context `{DateLibrary}.

Definition loadDataFile (fs : FileSystem) (filePath : string)
    (this : DataLoader) : (unit + LoadError) * DataLoader :=
  match fs filePath with
  | inr text => (inr (ReadFailed text), this)
  | inl data =>
      match loadData data this with
      | (Ok u, this') => (inl u, this')
      | (Throw e, this') => (inr (IndexFailed e), this')
      end
  end.
End LoadFile.

(** ** middleware/errorHandler.ts *)

(** The text of each error, as the throwing code builds it; [String(error)]
    of an [Error] is its name, a colon and its message.  The text of the
    RangeError is the date library's, [libraryText]. *)
Fixpoint errorMessage (libraryText : string) (e : Error) : string :=
  match e with
  | InvalidOriginAirport o => "Invalid origin airport code: " ++ o
  | InvalidDestinationAirport d => "Invalid destination airport code: " ++ d
  | SameOriginDestination => "Origin and destination must be different"
  | InvalidDateFormat => "Invalid date format. Expected YYYY-MM-DD"
  | MissingAirportData n o d =>
      "Missing airport data for flight " ++ n ++ ": " ++ o ++ " -> " ++ d
  | FlightDataNotLoaded => "Flight data not loaded"
  | FailedToLoad cause =>
      "Failed to load flight data: "
      ++ match cause with RangeErrorInvalidTime => "RangeError: " | _ => "Error: " end
      ++ errorMessage libraryText cause
  | RangeErrorInvalidTime => libraryText
  end.

(** An error object as the middleware sees it: its message, its stack, and
    for an [AppError] its status code and code. *)
Record JsError := mkJsError {
  err_message : string;
  err_stack : string;
  err_app : option (Z * string)
}.

(** What the middleware sends: [res.status(statusCode).json({ message,
    code, stack })], the stack only in development. *)
Record ErrorResponse := mkErrorResponse {
  res_status : Z;
  res_message : string;
  res_code : string;
  res_stack : option string
}.

Definition errorHandler (development : bool) (err : JsError) : ErrorResponse :=
  let stack := if development then Some (err_stack err) else None in
  match err_app err with
  | Some (statusCode, code') =>
      mkErrorResponse statusCode (err_message err) code' stack
  | None =>
      if negb (String.eqb (err_message err) "") then
        let message := err_message err in
        if includes message "Invalid" || includes message "must be" then
          mkErrorResponse 400 message "VALIDATION_ERROR" stack
        else if includes message "not found" || includes message "does not exist"
        then mkErrorResponse 404 message "NOT_FOUND" stack
        else mkErrorResponse 500 message "INTERNAL_ERROR" stack
      else
        mkErrorResponse 500 "An unexpected error occurred" "INTERNAL_ERROR" stack
  end.

(** The object a [throw new Error(...)] of the backend hands to the
    middleware. *)
Definition thrown (libraryText : string) (e : Error) (stack : string)
  : JsError :=
  mkJsError (errorMessage libraryText e) stack None.

(** ** The display helpers of the frontend *)

Module Frontend.

(** [flightUtils.ts] has the same [formatDuration] as the backend. *)
Definition formatDuration (minutes : number) : string :=
  let hours := num_floor_div minutes 60 in
  let mins := num_rem minutes 60 in
  if num_eqb hours 0 then numberToString mins ++ "m"
  else if num_gtb mins 0
       then numberToString hours ++ "h " ++ numberToString mins ++ "m"
       else numberToString hours ++ "h".

Definition getStopText (stops : Z) : string :=
  if (stops =? 0)%Z then "Direct"
  else if (stops =? 1)%Z then "1 stop"
  else numberToString (Some stops) ++ " stops".

Inductive Category : Type := short | moderate | long.

Definition getLayoverCategory (minutes : number) : Category * string :=
  if num_ltb minutes 90 then (short, "Quick layover")
  else if num_ltb minutes 180 then (moderate, "Moderate layover")
  else (long, "Long layover").

(** The three counters of the result header:
    [itineraries.filter(i => i.stops === n).length]. *)
Definition stopCount (n : Z) (its : list Itinerary) : nat :=
  length (List.filter (fun i => (stops i =? n)%Z) its).

(** The badge of a card: [!layovers.every(l => l.isDomestic)]. *)
Definition showsInternational (it : Itinerary) : bool :=
  negb (List.forallb lay_isDomestic (layovers it)).

End Frontend.

(** ** A segment and the stored flight it presents *)

Definition segmentOf (f : FlightWithMetadata) (s : FlightSegment) : Prop :=
  seg_flightNumber s = flightNumber f /\
  seg_origin s = origin f /\ seg_destination s = destination f /\
  seg_duration s = durationMinutes f /\ seg_price s = price f /\
  seg_originCity s = city (originAirport f) /\
  seg_originCountry s = country (originAirport f) /\
  seg_destinationCity s = city (destinationAirport f) /\
  seg_destinationCountry s = country (destinationAirport f).

(** ** A connection that [isValidItinerary] accepts *)

(** Leg [a] hands over to leg [b] at one airport, [b] leaves strictly after
    [a] has arrived, and the whole minutes in between are at least the
    minimum for the pair and at most 360. *)
Definition validConnection (a b : FlightWithMetadata) : Prop :=
  connects a b /\
  exists arrival departure,
    arrivalDateUTC a = Some arrival /\
    departureDateUTC b = Some departure /\
    (getMinimumLayover a b <= (departure - arrival) / 60000 <= 360)%Z.

(** ** Sums, as the specification words the total of an itinerary *)

Definition sumNumbers (l : list number) : number :=
  List.fold_left num_add l (Some 0%Z).

(** The sum of prices in the order [p1 + p2 + p3]. *)
Definition sumPrices (l : list float) : option float :=
  match l with
  | [] => None
  | p :: ps => Some (List.fold_left PrimFloat.add ps p)
  end.

(** ** More sample data *)

Module Demo.

Definition noSegment : FlightSegment :=
  mkFlightSegment "" "" "" "" "" "" "" "" "" "" None 0%float.

Definition world : World := Sample.worldAfter Sample.data.

(** The response to the search JFK to LAX on 2024-03-15 over [Sample.data]:
    a direct, a one-stop and a two-stop itinerary, in that order. *)
Definition response : SearchResponse := Sample.response Sample.data.

Definition direct : Itinerary := Sample.itinerary Sample.data 0.
Definition oneStop : Itinerary := Sample.itinerary Sample.data 1.
Definition twoStop : Itinerary := Sample.itinerary Sample.data 2.

Definition noAirport : Airport := mkAirport "" "" "" "" "".

Definition noFlight : FlightWithMetadata :=
  mkFlightWithMetadata (mkFlight "" "" "" "" "" "" 0%float "") noAirport
    noAirport None None None.

(** The [n]-th stored flight leaving [airport], in the store of [world]. *)
Definition departing (airport : string) (n : nat) : FlightWithMetadata :=
  nth n (getFlightsDepartingFrom (dataLoader world) airport) noFlight.

(** A flight into an airport whose time zone the zone table does not
    know: its arrival instant is an Invalid Date. *)
Definition XXA := mkAirport "XXA" "Nowhere Field" "Nowhere" "US" "Mars/Olympus".

Definition SP700 := mkFlight "SP700" "SkyPath" "JFK" "XXA"
  "2024-03-15T08:00:00" "2024-03-15T09:00:00" 10%float "A320".

Definition dataWithUnknownZone : FlightData :=
  mkFlightData [Sample.JFK; XXA] [SP700].

Definition worldWithUnknownZone : World :=
  Sample.worldAfter dataWithUnknownZone.

(** A data set whose second flight names an airport that is not in the
    table. *)
Definition SP800 := mkFlight "SP800" "SkyPath" "JFK" "ZZZ"
  "2024-03-15T08:00:00" "2024-03-15T09:00:00" 10%float "A320".

Definition dataWithMissingAirport : FlightData :=
  mkFlightData [Sample.JFK; Sample.LAX] [Sample.SP101; SP800].

(** The response to the same search, called a second time. *)
Definition secondResponse : SearchResponse :=
  match fst (search Sample.march15 (Sample.worldAfterSearch Sample.data)) with
  | Ok r => r
  | Throw _ => mkSearchResponse [] Sample.march15 0
  end.

(** A directory with two files: one holds [dataWithMissingAirport], the
    other is not JSON; any other path does not exist. *)
Definition files : FileSystem := fun filePath =>
  if String.eqb filePath "/data/flights.json" then inl dataWithMissingAirport
  else if String.eqb filePath "/data/broken.json"
  then inr "SyntaxError: Unexpected end of JSON input"
  else inr ("Error: ENOENT: no such file or directory, open '"
            ++ filePath ++ "'")%string.

End Demo.

(** * Theorems *)

(** ** The executable library model on sample inputs *)

Example parseISO_sample :
  parseISO "2024-03-15T08:30:00" = Some 1710491400000%Z.
Proof. reflexivity. Qed.

Example utcToLocalTime_sample :
  utcToLocalTime (localTimeToUTC "2024-03-15T08:30:00" "America/New_York")
                 "America/New_York"
  = Some "2024-03-15T08:30:00-04:00".
Proof. vm_compute. reflexivity. Qed.

Example sample_load_returns :
  loadData Sample.data newDataLoader = (Ok tt, Sample.loaderAfter Sample.data).
Proof. vm_compute. reflexivity. Qed.

(** ** Monad and traversal lemmas *)

Lemma mapST_Ok_Forall2 {S A B} (f : A -> ST S B) (l : list A) :
  forall s ys s',
    mapST f l s = (Ok ys, s') ->
    Forall2 (fun x y => exists s1 s2, f x s1 = (Ok y, s2)) l ys.
Proof.
  induction l as [|x l IH]; intros s ys s' Hm; simpl in Hm.
  - inversion Hm; subst. constructor.
  - unfold bind in Hm.
    destruct (f x s) as [[y|e] s1] eqn:Hfx; [|discriminate].
    destruct (mapST f l s1) as [[ys'|e] s2] eqn:Hrest; [|discriminate].
    inversion Hm; subst. constructor; eauto.
Qed.

Lemma mapST_state_inv {S A B} (P : S -> Prop) (f : A -> ST S B) :
  (forall x s r s', f x s = (r, s') -> P s -> P s') ->
  forall l s r s', mapST f l s = (r, s') -> P s -> P s'.
Proof.
  intros Hf. induction l as [|x l IH]; intros s r s' Hm Hs; simpl in Hm.
  - inversion Hm; subst. exact Hs.
  - unfold bind in Hm.
    destruct (f x s) as [[y|e] s1] eqn:Hfx.
    + destruct (mapST f l s1) as [[ys|e] s2] eqn:Hrest;
        inversion Hm; subst; eapply IH; eauto.
    + inversion Hm; subst. eauto.
Qed.

Section SearchFacts.
Context `{DateLibrary}.

Lemma utcToLocalTimeST_state d tz w r w' :
  utcToLocalTimeST d tz w = (r, w') -> w' = w.
Proof.
  unfold utcToLocalTimeST. destruct (utcToLocalTime d tz); cbv [ret throw];
    intros E; inversion E; reflexivity.
Qed.

Lemma toSegment_state f w r w' : toSegment f w = (r, w') -> w' = w.
Proof.
  unfold toSegment, bind. intros E.
  destruct (utcToLocalTimeST _ _ w) as [[a|e] w1] eqn:E1;
    apply utcToLocalTimeST_state in E1; subst w1.
  - destruct (utcToLocalTimeST _ _ w) as [[b|e] w2] eqn:E2 in E;
      apply utcToLocalTimeST_state in E2; subst w2;
      cbv [ret] in E; inversion E; reflexivity.
  - inversion E; reflexivity.
Qed.

Lemma toSegments_state l w r w' : mapST toSegment l w = (r, w') -> w' = w.
Proof.
  intros E.
  symmetry. apply (mapST_state_inv (fun s => w = s) toSegment) with (3 := eq_refl) in E;
    [exact E|].
  intros x s r0 s' Hx ->. apply toSegment_state in Hx. congruence.
Qed.

(** Assembling an itinerary never touches the loader. *)
Lemma candidateToItinerary_loader c w r w' :
  candidateToItinerary c w = (r, w') -> dataLoader w' = dataLoader w.
Proof.
  unfold candidateToItinerary, bind. intros E.
  destruct (mapST toSegment (cand_segments c) w) as [[segs|e] w1] eqn:E1;
    apply toSegments_state in E1; subst w1.
  - cbv [uuidv4 ret] in E. inversion E; reflexivity.
  - inversion E; reflexivity.
Qed.

Lemma convertToItineraries_loader cs w r w' :
  convertToItineraries cs w = (r, w') -> dataLoader w' = dataLoader w.
Proof.
  intros E. unfold convertToItineraries in E.
  apply (mapST_state_inv (fun s => dataLoader s = dataLoader w)
           candidateToItinerary) with (3 := eq_refl) in E; [exact E|].
  intros x s r0 s' Hx Hs. apply candidateToItinerary_loader in Hx. congruence.
Qed.

(** The stages of a search, read off its result. *)
Lemma search_inv p w r w' :
  search p w = (r, w') ->
  let loader := dataLoader w in
  let o := sp_origin p in
  let d := sp_destination p in
  let date := sp_date p in
  (exists e, validateSearchParams loader p = Throw e /\ r = Throw e /\ w' = w)
  \/
  (validateSearchParams loader p = Ok tt /\
   exists r1 w1,
     convertToItineraries (findDirectFlights loader o d date) w = (r1, w1) /\
     match r1 with
     | Throw e => r = Throw e /\ w' = w1
     | Ok direct =>
       exists r2 w2,
         convertToItineraries (findOneStopConnections loader o d date) w1
         = (r2, w2) /\
         match r2 with
         | Throw e => r = Throw e /\ w' = w2
         | Ok oneStop =>
           exists r3,
             convertToItineraries (findTwoStopConnections loader o d date) w2
             = (r3, w') /\
             match r3 with
             | Throw e => r = Throw e
             | Ok twoStop =>
                 let its :=
                   Array_sort byTotalDuration (direct ++ oneStop ++ twoStop) in
                 r = Ok (mkSearchResponse its p (length its))
             end
         end
     end).
Proof.
  intros E loader o d date. unfold search in E.
  cbv [bind reads liftResult] in E. fold loader o d date in E.
  destruct (validateSearchParams loader p) as [[]|e] eqn:Hv.
  2:{ left. exists e. inversion E; auto. }
  right. split; [reflexivity|].
  destruct (convertToItineraries (findDirectFlights loader o d date) w)
    as [r1 w1] eqn:E1.
  exists r1, w1. split; [reflexivity|].
  pose proof (convertToItineraries_loader _ _ _ _ E1) as L1.
  destruct r1 as [direct|e]; [|inversion E; auto].
  rewrite L1 in E. fold loader in E.
  destruct (convertToItineraries (findOneStopConnections loader o d date) w1)
    as [r2 w2] eqn:E2.
  exists r2, w2. split; [reflexivity|].
  pose proof (convertToItineraries_loader _ _ _ _ E2) as L2.
  destruct r2 as [oneStop|e]; [|inversion E; auto].
  rewrite L2, L1 in E. fold loader in E.
  destruct (convertToItineraries (findTwoStopConnections loader o d date) w2)
    as [r3 w3] eqn:E3.
  exists r3.
  destruct r3 as [twoStop|e]; cbv [ret] in E; inversion E; subst; auto.
Qed.
End SearchFacts.

Lemma mapST_Throw {S A B} (f : A -> ST S B) (l : list A) :
  forall s e s',
    mapST f l s = (Throw e, s') ->
    exists x s1 s2, In x l /\ f x s1 = (Throw e, s2).
Proof.
  induction l as [|x l IH]; intros s e s' Hm; simpl in Hm.
  - inversion Hm.
  - unfold bind in Hm.
    destruct (f x s) as [[y|e0] s1] eqn:Hfx.
    + destruct (mapST f l s1) as [[ys|e1] s2] eqn:Hrest; [discriminate|].
      inversion Hm; subst.
      destruct (IH _ _ _ Hrest) as (x' & t1 & t2 & Hin & Hx').
      exists x', t1, t2. split; [right; exact Hin | exact Hx'].
    + inversion Hm; subst. exists x, s, s'. split; [left; reflexivity | exact Hfx].
Qed.

Section Validation.
Context `{DateLibrary}.

Lemma utcToLocalTimeST_Throw d tz w e w' :
  utcToLocalTimeST d tz w = (Throw e, w') -> e = RangeErrorInvalidTime.
Proof.
  unfold utcToLocalTimeST. destruct (utcToLocalTime d tz); cbv [ret throw];
    intros E; inversion E; reflexivity.
Qed.

Lemma toSegment_Throw f w e w' :
  toSegment f w = (Throw e, w') -> e = RangeErrorInvalidTime.
Proof.
  unfold toSegment, bind. intros E.
  destruct (utcToLocalTimeST _ _ w) as [[a|e1] w1] eqn:E1.
  - destruct (utcToLocalTimeST _ _ w1) as [[b|e2] w2] eqn:E2.
    + cbv [ret] in E. discriminate.
    + inversion E; subst. eapply utcToLocalTimeST_Throw; eauto.
  - inversion E; subst. eapply utcToLocalTimeST_Throw; eauto.
Qed.

(** The only exception the assembly of itineraries can raise is the
    RangeError of [format]. *)
Lemma convertToItineraries_Throw cs w e w' :
  convertToItineraries cs w = (Throw e, w') -> e = RangeErrorInvalidTime.
Proof.
  intros E. apply mapST_Throw in E as (c & s1 & s2 & _ & Hc).
  unfold candidateToItinerary, bind in Hc.
  destruct (mapST toSegment (cand_segments c) s1) as [[segs|e1] s3] eqn:E1.
  - cbv [uuidv4 ret] in Hc. discriminate.
  - inversion Hc; subst.
    apply mapST_Throw in E1 as (f & t1 & t2 & _ & Hf).
    eapply toSegment_Throw; eauto.
Qed.

Lemma search_validation_Throw p w e :
  validateSearchParams (dataLoader w) p = Throw e ->
  search p w = (Throw e, w).
Proof.
  intros Hv. unfold search. cbv [bind reads liftResult]. rewrite Hv. reflexivity.
Qed.

(** A search that throws one of the four validation errors threw it from
    [validateSearchParams]. *)
Lemma search_Throw_origin p w e :
  fst (search p w) = Throw e -> e <> RangeErrorInvalidTime ->
  validateSearchParams (dataLoader w) p = Throw e.
Proof.
  intros Hs Hne. destruct (search p w) as [r w'] eqn:E. simpl in Hs. subst r.
  apply search_inv in E.
  destruct E as [(e' & Hv & He & _)|(_ & r1 & w1 & E1 & Hrest)].
  - congruence.
  - exfalso. destruct r1 as [direct|e1].
    + destruct Hrest as (r2 & w2 & E2 & Hrest). destruct r2 as [oneStop|e2].
      * destruct Hrest as (r3 & E3 & Hrest). destruct r3 as [twoStop|e3].
        -- discriminate.
        -- apply convertToItineraries_Throw in E3. congruence.
      * destruct Hrest as [He _].
        apply convertToItineraries_Throw in E2. congruence.
    + destruct Hrest as [He _].
      apply convertToItineraries_Throw in E1. congruence.
Qed.

(** C10. Validation has a fixed precedence: an unknown origin is reported
    before anything else, then an unknown destination, then equal
    airports, then a malformed date; and the same-airport error is
    reported only when both codes resolve to airports. *)
Theorem validation_precedence (p : SearchParams) (w : World) :
  let loader := dataLoader w in
  let o := sp_origin p in
  let d := sp_destination p in
  (getAirport loader o = None ->
   search p w = (Throw (InvalidOriginAirport o), w))
  /\ (is_Some (getAirport loader o) -> getAirport loader d = None ->
      search p w = (Throw (InvalidDestinationAirport d), w))
  /\ (is_Some (getAirport loader o) -> is_Some (getAirport loader d) ->
      o = d ->
      search p w = (Throw SameOriginDestination, w))
  /\ (is_Some (getAirport loader o) -> is_Some (getAirport loader d) ->
      o <> d -> isValidDateFormat (sp_date p) = false ->
      search p w = (Throw InvalidDateFormat, w))
  /\ (fst (search p w) = Throw SameOriginDestination ->
      is_Some (getAirport loader o) /\ is_Some (getAirport loader d)).
Proof.
  intros loader o d.
  split; [|split; [|split; [|split]]].
  - intros Ho. apply search_validation_Throw.
    unfold validateSearchParams. fold loader o. rewrite Ho. reflexivity.
  - intros [a Ho] Hd. apply search_validation_Throw.
    unfold validateSearchParams. fold loader o d. rewrite Ho, Hd. reflexivity.
  - intros [a Ho] [b Hd] Heq. apply search_validation_Throw.
    unfold validateSearchParams. fold loader o d. rewrite Ho, Hd.
    apply String.eqb_eq in Heq. rewrite Heq. reflexivity.
  - intros [a Ho] [b Hd] Hne Hfmt. apply search_validation_Throw.
    unfold validateSearchParams. fold loader o d. rewrite Ho, Hd.
    apply String.eqb_neq in Hne. rewrite Hne, Hfmt. reflexivity.
  - intros Hs. apply search_Throw_origin in Hs; [|discriminate].
    unfold validateSearchParams in Hs. fold loader o d in Hs.
    destruct (getAirport loader o); [|discriminate].
    destruct (getAirport loader d); [|discriminate]. eauto.
Qed.

(** C4, as the code has it. With both airports known and distinct, a
    search fails with the invalid-date error exactly when the date string
    does not have the shape of four digits, a dash, two digits, a dash
    and two digits; whether the day exists in the calendar is not looked
    at. *)
Theorem invalid_date_iff_shape (p : SearchParams) (w : World) :
  is_Some (getAirport (dataLoader w) (sp_origin p)) ->
  is_Some (getAirport (dataLoader w) (sp_destination p)) ->
  sp_origin p <> sp_destination p ->
  (fst (search p w) = Throw InvalidDateFormat
   <-> isValidDateFormat (sp_date p) = false).
Proof.
  intros [a Ho] [b Hd] Hne. split.
  - intros Hs. apply search_Throw_origin in Hs; [|discriminate].
    unfold validateSearchParams in Hs. rewrite Ho, Hd in Hs.
    apply String.eqb_neq in Hne. rewrite Hne in Hs.
    destruct (isValidDateFormat (sp_date p)); [discriminate | reflexivity].
  - intros Hfmt. rewrite search_validation_Throw with (e := InvalidDateFormat);
      [reflexivity|].
    unfold validateSearchParams. rewrite Ho, Hd.
    apply String.eqb_neq in Hne. rewrite Hne, Hfmt. reflexivity.
Qed.
End Validation.

Lemma validation_precedence_witness :
  getAirport (dataLoader (Sample.worldAfter Sample.data)) "XXX" = None /\
  search (mkSearchParams "XXX" "LAX" "15/03/2024") (Sample.worldAfter Sample.data)
  = (Throw (InvalidOriginAirport "XXX"), Sample.worldAfter Sample.data).
Proof.
  split; [vm_compute; reflexivity|].
  apply (validation_precedence (mkSearchParams "XXX" "LAX" "15/03/2024")
           (Sample.worldAfter Sample.data)).
  vm_compute; reflexivity.
Defined.

Lemma invalid_date_iff_shape_witness :
  fst (search (Sample.JFKtoLAX "15/03/2024") (Sample.worldAfter Sample.data))
  = Throw InvalidDateFormat.
Proof.
  apply (invalid_date_iff_shape (Sample.JFKtoLAX "15/03/2024")
           (Sample.worldAfter Sample.data)).
  - vm_compute. eexists. reflexivity.
  - vm_compute. eexists. reflexivity.
  - vm_compute. discriminate.
  - vm_compute. reflexivity.
Defined.

(** C4, counterexample. The dates 2024-13-99 and 2024-02-30 are not days of
    the calendar, both airports exist and differ, and each search returns a
    (here empty) list of itineraries instead of the invalid-date error. *)
Lemma search_accepts_impossible_dates :
  specCalendarValidDate "2024-13-99" = false /\
  specCalendarValidDate "2024-02-30" = false /\
  is_Some (getAirport (Sample.loaderAfter Sample.data) "JFK") /\
  is_Some (getAirport (Sample.loaderAfter Sample.data) "LAX") /\
  fst (search (Sample.JFKtoLAX "2024-13-99") (Sample.worldAfter Sample.data))
  = Ok (mkSearchResponse [] (Sample.JFKtoLAX "2024-13-99") 0) /\
  fst (search (Sample.JFKtoLAX "2024-02-30") (Sample.worldAfter Sample.data))
  = Ok (mkSearchResponse [] (Sample.JFKtoLAX "2024-02-30") 0).
Proof.
  repeat split; try (vm_compute; reflexivity); vm_compute; eexists; reflexivity.
Qed.

(** ** The sort *)

Section ArraySortFacts.
Context {A : Type} (compareFn : A -> A -> number).

Lemma sortInsert_Permutation x l :
  Permutation (sortInsert compareFn x l) (x :: l).
Proof.
  induction l as [|y l IH]; simpl; [reflexivity|].
  destruct (0 <? compareValue (compareFn x y))%Z; [|reflexivity].
  rewrite IH. apply perm_swap.
Qed.

Lemma Array_sort_Permutation l : Permutation (Array_sort compareFn l) l.
Proof.
  induction l as [|x l IH]; simpl; [reflexivity|].
  rewrite sortInsert_Permutation. constructor. exact IH.
Qed.

Lemma Array_sort_In x l : In x (Array_sort compareFn l) <-> In x l.
Proof.
  split; apply Permutation_in;
    [apply Array_sort_Permutation | symmetry; apply Array_sort_Permutation].
Qed.
End ArraySortFacts.

(** ** The connection rules *)

Lemma isValidLayoverDuration_true layoverMinutes isDomestic :
  isValidLayoverDuration layoverMinutes isDomestic = true ->
  exists minutes,
    layoverMinutes = Some minutes /\
    ((if isDomestic then 45 else 90) <= minutes <= 360)%Z.
Proof.
  unfold isValidLayoverDuration, num_geb, num_leb.
  destruct layoverMinutes as [m|]; [|discriminate].
  intros Hv. apply andb_true_iff in Hv as [Hmin Hmax].
  exists m. split; [reflexivity|].
  apply Z.leb_le in Hmin, Hmax.
  unfold LAYOVER_CONSTRAINTS.MAX in Hmax.
  destruct isDomestic;
    [unfold LAYOVER_CONSTRAINTS.MIN_DOMESTIC in Hmin
    |unfold LAYOVER_CONSTRAINTS.MIN_INTERNATIONAL in Hmin]; lia.
Qed.

Lemma canConnect_true a b layoverMinutes :
  canConnect a b layoverMinutes = true ->
  destination a = origin b /\
  date_leb (departureDateUTC b) (arrivalDateUTC a) = false /\
  isValidLayoverDuration layoverMinutes (isDomesticConnection a b) = true.
Proof.
  unfold canConnect.
  destruct (String.eqb (destination a) (origin b)) eqn:Hair; simpl; [|discriminate].
  destruct (date_leb (departureDateUTC b) (arrivalDateUTC a)) eqn:Hlate;
    [discriminate|].
  intros Hv. apply String.eqb_eq in Hair. auto.
Qed.

(** A connection accepted with the layover the search computes for it. *)
Lemma canConnect_connects a b :
  canConnect a b
    (calculateLayoverDuration (arrivalDateUTC a) (departureDateUTC b)) = true ->
  connects a b.
Proof.
  intros Hc. apply canConnect_true in Hc as (Hair & Hlate & Hv).
  split; [exact Hair|].
  apply isValidLayoverDuration_true in Hv as (m & Hm & _).
  unfold calculateLayoverDuration, differenceInMinutes in Hm.
  unfold date_lt, date_leb in *.
  destruct (departureDateUTC b) as [dep|]; [|discriminate].
  destruct (arrivalDateUTC a) as [arr|]; [|discriminate].
  apply Z.leb_gt in Hlate. exact Hlate.
Qed.

Lemma canConnect_layoverRule a b :
  canConnect a b
    (calculateLayoverDuration (arrivalDateUTC a) (departureDateUTC b)) = true ->
  (isDomesticConnection a b = true <->
   country (destinationAirport a) = country (originAirport b)) /\
  exists minutes,
    calculateLayoverDuration (arrivalDateUTC a) (departureDateUTC b)
    = Some minutes /\
    ((if isDomesticConnection a b then 45 else 90) <= minutes <= 360)%Z.
Proof.
  intros Hc. apply canConnect_true in Hc as (_ & _ & Hv).
  split; [apply String.eqb_eq|].
  apply isValidLayoverDuration_true. exact Hv.
Qed.

(** ** The three enumeration stages *)

Lemma findDirectFlights_shape loader o d date c :
  In c (findDirectFlights loader o d date) -> candidateShape loader o d date c.
Proof.
  unfold findDirectFlights, getDirectFlights. intros Hc.
  apply in_map_iff in Hc as (f & <- & Hf).
  apply filter_In in Hf as [Hf Hd]. apply String.eqb_eq in Hd.
  constructor; assumption.
Qed.

Lemma findOneStopConnections_shape loader o d date c :
  In c (findOneStopConnections loader o d date) ->
  candidateShape loader o d date c.
Proof.
  unfold findOneStopConnections. intros Hc.
  apply in_flat_map in Hc as (f1 & Hf1 & Hc).
  destruct (String.eqb (destination f1) d); [destruct Hc|].
  apply in_flat_map in Hc as (f2 & Hf2 & Hc).
  destruct (String.eqb (destination f2) d) eqn:Hd; simpl in Hc; [|destruct Hc].
  destruct (canConnect f1 f2 _) eqn:Hconn; [|destruct Hc].
  destruct Hc as [<-|[]]. apply String.eqb_eq in Hd.
  constructor; assumption.
Qed.

Lemma findTwoStopConnections_shape loader o d date c :
  In c (findTwoStopConnections loader o d date) ->
  candidateShape loader o d date c.
Proof.
  unfold findTwoStopConnections. intros Hc.
  apply in_flat_map in Hc as (f1 & Hf1 & Hc).
  destruct (String.eqb (destination f1) d); [destruct Hc|].
  apply in_flat_map in Hc as (f2 & Hf2 & Hc).
  destruct (String.eqb (destination f2) d) eqn:Hd2; [destruct Hc|].
  destruct (String.eqb (destination f2) o) eqn:Ho2; [destruct Hc|].
  destruct (canConnect f1 f2 _) eqn:Hconn1; simpl in Hc; [|destruct Hc].
  apply in_flat_map in Hc as (f3 & Hf3 & Hc).
  destruct (String.eqb (destination f3) d) eqn:Hd3; simpl in Hc; [|destruct Hc].
  destruct (canConnect f2 f3 _) eqn:Hconn2; [|destruct Hc].
  destruct Hc as [<-|[]].
  apply String.eqb_neq in Hd2, Ho2. apply String.eqb_eq in Hd3.
  constructor; assumption.
Qed.

Lemma Forall2_In_r {A B} (R : A -> B -> Prop) l ys y :
  Forall2 R l ys -> In y ys -> exists x, In x l /\ R x y.
Proof.
  induction 1 as [|x y' l ys Hxy _ IH]; intros Hin; [destruct Hin|].
  destruct Hin as [->|Hin].
  - exists x. split; [left; reflexivity | exact Hxy].
  - destruct (IH Hin) as (x' & Hx' & HR). exists x'. split; [right|]; assumption.
Qed.

Lemma Forall2_In_l {A B} (R : A -> B -> Prop) l ys x :
  Forall2 R l ys -> In x l -> exists y, In y ys /\ R x y.
Proof.
  induction 1 as [|x' y l ys Hxy _ IH]; intros Hin; [destruct Hin|].
  destruct Hin as [->|Hin].
  - exists y. split; [left; reflexivity | exact Hxy].
  - destruct (IH Hin) as (y' & Hy' & HR). exists y'. split; [right|]; assumption.
Qed.

Section Assembly.
Context `{DateLibrary}.

Lemma toSegment_Ok f w s w' :
  toSegment f w = (Ok s, w') ->
  seg_origin s = origin f /\ seg_destination s = destination f /\
  utcToLocalTime (departureDateUTC f) (timezone (originAirport f))
  = Some (seg_departureTime s) /\
  utcToLocalTime (arrivalDateUTC f) (timezone (destinationAirport f))
  = Some (seg_arrivalTime s) /\
  seg_duration s = durationMinutes f.
Proof.
  unfold toSegment, bind, utcToLocalTimeST. intros E.
  destruct (utcToLocalTime (departureDateUTC f) _) as [dep|];
    cbv [ret throw] in E; [|discriminate].
  destruct (utcToLocalTime (arrivalDateUTC f) _) as [arr|];
    cbv [ret throw] in E; [|discriminate].
  inversion E; subst. simpl. auto.
Qed.

Lemma assembledFrom_inv c it :
  assembledFrom c it ->
  layovers it = toLayovers (cand_segments c) /\
  totalDuration it = cand_totalDuration c /\
  Forall2 (fun f s => exists w w', toSegment f w = (Ok s, w'))
          (cand_segments c) (segments it).
Proof.
  intros (w & w' & E). unfold candidateToItinerary, bind in E.
  destruct (mapST toSegment (cand_segments c) w) as [[segs|e] w1] eqn:E1;
    [|discriminate].
  cbv [uuidv4 ret] in E. inversion E; subst. simpl.
  repeat split. eapply mapST_Ok_Forall2; eauto.
Qed.

(** Every itinerary of a response was assembled from a candidate that one
    of the three stages enumerated. *)
Lemma search_itinerary_candidate p w r w' it :
  search p w = (Ok r, w') -> In it (itineraries r) ->
  exists c,
    assembledFrom c it /\
    candidateShape (dataLoader w) (sp_origin p) (sp_destination p) (sp_date p) c.
Proof.
  intros E Hin. apply search_inv in E. cbv zeta in E.
  destruct E as [(e & _ & He & _)|(_ & r1 & w1 & E1 & Hrest)]; [discriminate|].
  destruct r1 as [direct|e]; [|destruct Hrest; discriminate].
  destruct Hrest as (r2 & w2 & E2 & Hrest).
  destruct r2 as [oneStop|e]; [|destruct Hrest; discriminate].
  destruct Hrest as (r3 & E3 & Hrest).
  destruct r3 as [twoStop|e]; [|discriminate].
  inversion Hrest; subst r. simpl in Hin.
  apply Array_sort_In in Hin.
  assert (Hstage : forall cs s its s',
             convertToItineraries cs s = (Ok its, s') -> In it its ->
             exists c, In c cs /\ assembledFrom c it).
  { intros cs s its s' Hcs Hit.
    apply mapST_Ok_Forall2 in Hcs.
    destruct (Forall2_In_r _ _ _ _ Hcs Hit) as (c & Hc & Hmade).
    exists c. split; [exact Hc | exact Hmade]. }
  apply in_app_or in Hin as [Hin|Hin]; [|apply in_app_or in Hin as [Hin|Hin]].
  - destruct (Hstage _ _ _ _ E1 Hin) as (c & Hc & Hmade).
    exists c. split; [exact Hmade|]. apply findDirectFlights_shape; exact Hc.
  - destruct (Hstage _ _ _ _ E2 Hin) as (c & Hc & Hmade).
    exists c. split; [exact Hmade|]. apply findOneStopConnections_shape; exact Hc.
  - destruct (Hstage _ _ _ _ E3 Hin) as (c & Hc & Hmade).
    exists c. split; [exact Hmade|]. apply findTwoStopConnections_shape; exact Hc.
Qed.

Lemma segments_adjacent legs segs :
  Forall2 (fun f s => exists w w', toSegment f w = (Ok s, w')) legs segs ->
  adjacent connects legs ->
  adjacent (fun s t => seg_destination s = seg_origin t) segs.
Proof.
  induction 1 as [|f s legs segs (w & w' & Hs) Hrest IH]; [constructor|].
  destruct Hrest as [|g t legs segs (v & v' & Ht) Hrest]; [constructor|].
  intros [[Hair _] Hadj]. split.
  - apply toSegment_Ok in Hs as (_ & -> & _).
    apply toSegment_Ok in Ht as (-> & _). exact Hair.
  - apply IH. exact Hadj.
Qed.

(** C1. In every itinerary a search returns, each segment lands where the
    next one takes off, and the next one leaves, as an absolute instant,
    strictly after the previous one has arrived. The instants are those
    of the legs the itinerary was assembled from. *)
Theorem segments_connect (p : SearchParams) (w w' : World)
    (r : SearchResponse) (it : Itinerary) :
  search p w = (Ok r, w') ->
  In it (itineraries r) ->
  exists candidate,
    assembledFrom candidate it /\
    adjacent connects (cand_segments candidate) /\
    adjacent (fun s t => seg_destination s = seg_origin t) (segments it).
Proof.
  intros E Hin.
  destruct (search_itinerary_candidate _ _ _ _ _ E Hin) as (c & Hmade & Hshape).
  exists c. split; [exact Hmade|].
  assert (Hlegs : adjacent connects (cand_segments c)).
  { destruct Hshape as [f ? _ _
                       |f1 f2 ? _ _ Hc _
                       |f1 f2 f3 ? _ _ _ _ _ Hc1 Hc2 _]; simpl.
    - exact I.
    - split; [apply canConnect_connects; exact Hc | exact I].
    - repeat split; try apply canConnect_connects; assumption. }
  split; [exact Hlegs|].
  apply assembledFrom_inv in Hmade as (_ & _ & Hsegs).
  eapply segments_adjacent; eauto.
Qed.

Lemma layoverRule_Forall legs ls :
  layoverRule legs ls ->
  Forall (fun l =>
            exists minutes,
              lay_duration l = Some minutes /\
              ((if lay_isDomestic l then 45 else 90) <= minutes <= 360)%Z) ls.
Proof.
  revert ls. induction legs as [|a legs IH]; intros ls Hrule.
  - destruct ls; [constructor | destruct Hrule].
  - destruct legs as [|b legs].
    + destruct ls; [constructor | destruct Hrule].
    + destruct ls as [|l ls]; [destruct Hrule|].
      destruct Hrule as (_ & Hmin & Hrest). constructor; [exact Hmin|].
      apply IH. exact Hrest.
Qed.

(** C2. In every itinerary a search returns, each layover is flagged
    domestic exactly when the arriving leg's destination airport and the
    departing leg's origin airport share a country, and lasts between 45
    and 360 minutes if domestic, between 90 and 360 if not. *)
Theorem layovers_within_bounds (p : SearchParams) (w w' : World)
    (r : SearchResponse) (it : Itinerary) :
  search p w = (Ok r, w') ->
  In it (itineraries r) ->
  Forall (fun l =>
            exists minutes,
              lay_duration l = Some minutes /\
              ((if lay_isDomestic l then 45 else 90) <= minutes <= 360)%Z)
         (layovers it) /\
  exists candidate,
    assembledFrom candidate it /\
    layoverRule (cand_segments candidate) (layovers it).
Proof.
  intros E Hin.
  destruct (search_itinerary_candidate _ _ _ _ _ E Hin) as (c & Hmade & Hshape).
  assert (Hrule : layoverRule (cand_segments c) (layovers it));
    [|split; [eapply layoverRule_Forall; exact Hrule | eauto]].
  apply assembledFrom_inv in Hmade as (-> & _ & _).
  destruct Hshape as [f ? _ _
                     |f1 f2 ? _ _ Hc _
                     |f1 f2 f3 ? _ _ _ _ _ Hc1 Hc2 _]; simpl.
  - exact I.
  - apply canConnect_layoverRule in Hc as [Hdom Hmin]. auto.
  - apply canConnect_layoverRule in Hc1 as [Hdom1 Hmin1].
    apply canConnect_layoverRule in Hc2 as [Hdom2 Hmin2]. auto.
Qed.
End Assembly.

Lemma segments_connect_witness :
  exists candidate,
    assembledFrom candidate (Sample.itinerary Sample.data 2) /\
    adjacent connects (cand_segments candidate) /\
    adjacent (fun s t => seg_destination s = seg_origin t)
             (segments (Sample.itinerary Sample.data 2)).
Proof.
  apply (segments_connect Sample.march15 (Sample.worldAfter Sample.data)
           (snd (search Sample.march15 (Sample.worldAfter Sample.data)))
           (Sample.response Sample.data)).
  - vm_compute. reflexivity.
  - vm_compute. right. right. left. reflexivity.
Defined.

Lemma layovers_within_bounds_witness :
  Forall (fun l =>
            exists minutes,
              lay_duration l = Some minutes /\
              ((if lay_isDomestic l then 45 else 90) <= minutes <= 360)%Z)
         (layovers (Sample.itinerary Sample.data 2)) /\
  exists candidate,
    assembledFrom candidate (Sample.itinerary Sample.data 2) /\
    layoverRule (cand_segments candidate)
                (layovers (Sample.itinerary Sample.data 2)).
Proof.
  apply (layovers_within_bounds Sample.march15 (Sample.worldAfter Sample.data)
           (snd (search Sample.march15 (Sample.worldAfter Sample.data)))
           (Sample.response Sample.data)).
  - vm_compute. reflexivity.
  - vm_compute. right. right. left. reflexivity.
Defined.

Example sample_response_shape :
  List.map (fun it => (stops it, totalDuration it, List.map lay_duration (layovers it)))
      (itineraries (Sample.response Sample.data))
  = [(0%Z, Some 375%Z, []);
     (1%Z, Some 450%Z, [Some 45%Z]);
     (2%Z, Some 630%Z, [Some 60%Z; Some 60%Z])].
Proof. vm_compute. reflexivity. Qed.

(** ** The loader *)

Lemma foldl_indexFlight_Forall (Q : string -> FlightWithMetadata -> Prop)
    (key : FlightWithMetadata -> string) (fs : list FlightWithMetadata) :
  forall index : gmap string (list FlightWithMetadata),
    (forall k bucket, index !! k = Some bucket -> Forall (Q k) bucket) ->
    Forall (fun f => Q (key f) f) fs ->
    forall k bucket,
      foldl (indexFlight key) index fs !! k = Some bucket -> Forall (Q k) bucket.
Proof.
  induction fs as [|f fs IH]; intros index Hindex Hfs k bucket; simpl.
  - apply Hindex.
  - inversion Hfs as [|? ? Hf Hrest]; subst.
    apply IH; [|exact Hrest].
    intros k' bucket' Hlook. unfold indexFlight in Hlook.
    destruct (decide (key f = k')) as [<-|Hne].
    + rewrite lookup_insert_eq in Hlook. inversion Hlook; subst.
      apply Forall_app. split; [|repeat constructor; exact Hf].
      destruct (index !! key f) as [old|] eqn:Hold; simpl; [|constructor].
      eapply Hindex; eauto.
    + rewrite lookup_insert_ne in Hlook by exact Hne. eapply Hindex; eauto.
Qed.

Lemma mapST_liftResult_state {S A B} (g : A -> Result B) (l : list A) :
  forall (s : S) r s', mapST (fun x => liftResult (g x)) l s = (r, s') -> s' = s.
Proof.
  intros s r s' E. symmetry.
  apply (mapST_state_inv (fun t => s = t) (fun x => liftResult (g x)))
    with (3 := eq_refl) in E; [exact E|].
  intros x t r0 t' Hx ->. cbv [liftResult] in Hx. inversion Hx; reflexivity.
Qed.

Lemma mapST_liftResult_Ok {S A B} (g : A -> Result B) (l : list A) :
  forall (s : S) ys s',
    mapST (fun x => liftResult (g x)) l s = (Ok ys, s') ->
    Forall2 (fun x y => g x = Ok y) l ys.
Proof.
  intros s ys s' E. apply mapST_Ok_Forall2 in E.
  eapply Forall2_impl; [exact E|].
  intros x y (s1 & s2 & Hx). cbv [liftResult] in Hx. congruence.
Qed.

Section LoaderFacts.
Context `{DateLibrary}.

Lemma enrichFlightWithMetadata_Ok this f fm :
  enrichFlightWithMetadata this f = Ok fm ->
  flight fm = f /\
  airportMap this !! origin f = Some (originAirport fm) /\
  airportMap this !! destination f = Some (destinationAirport fm) /\
  departureDateUTC fm
  = localTimeToUTC (departureTime f) (timezone (originAirport fm)) /\
  arrivalDateUTC fm
  = localTimeToUTC (arrivalTime f) (timezone (destinationAirport fm)) /\
  durationMinutes fm
  = calculateDuration (departureDateUTC fm) (arrivalDateUTC fm).
Proof.
  unfold enrichFlightWithMetadata.
  destruct (airportMap this !! origin f) as [oa|]; [|discriminate].
  destruct (airportMap this !! destination f) as [da|]; [|discriminate].
  intros E. inversion E; subst. simpl. auto 10.
Qed.

Lemma enrichFlightWithMetadata_Throw this f e :
  enrichFlightWithMetadata this f = Throw e ->
  airportMap this !! origin f = None \/ airportMap this !! destination f = None.
Proof.
  unfold enrichFlightWithMetadata.
  destruct (airportMap this !! origin f) as [oa|]; [|auto].
  destruct (airportMap this !! destination f) as [da|]; [discriminate|auto].
Qed.

Lemma buildIndices_inv this r this' :
  buildIndices this = (r, this') ->
  match flightData this with
  | None => r = Throw FlightDataNotLoaded /\ this' = this
  | Some data =>
      let this1 := withAirports this data in
      (exists e f,
          In f (flights data) /\
          enrichFlightWithMetadata this1 f = Throw e /\
          r = Throw e /\ this' = this1)
      \/
      (exists enriched,
          Forall2 (fun f fm => enrichFlightWithMetadata this1 f = Ok fm)
                  (flights data) enriched /\
          r = Ok tt /\
          this' = mkDataLoader (flightData this) (airportMap this1) enriched
                    (foldl (indexFlight (fun f => origin f))
                           (flightsByOrigin this) enriched)
                    (foldl (indexFlight (fun f => destination f))
                           (flightsByDestination this) enriched)
                    (foldl (indexFlight (fun f => splitT0 (departureTime f)))
                           (flightsByDate this) enriched))
  end.
Proof.
  unfold buildIndices. cbv [bind get put throw]. intros E.
  destruct (flightData this) as [data|] eqn:Hdata;
    [|inversion E; auto].
  fold (withAirports this data) in E. rewrite <- Hdata in E.
  fold (withAirports this data) in E.
  set (this1 := withAirports this data) in *.
  destruct (mapST _ (flights data) this1) as [[enriched|e] s] eqn:Hmap.
  - right. exists enriched.
    pose proof (mapST_liftResult_state _ _ _ _ _ Hmap) as ->.
    apply mapST_liftResult_Ok in Hmap.
    inversion E; subst. rewrite Hdata. auto.
  - left. pose proof (mapST_liftResult_state _ _ _ _ _ Hmap) as ->.
    apply mapST_Throw in Hmap as (f & s1 & s2 & Hin & Hf).
    cbv [liftResult] in Hf. inversion Hf as [[Hthrow Hs]].
    inversion E; subst. exists e, f. auto.
Qed.
End LoaderFacts.

Section LoadFacts.
Context `{DateLibrary}.

Lemma loadData_inv data this r this' :
  loadData data this = (r, this') ->
  let this1 := withAirports (withData this data) data in
  (exists e f,
      In f (flights data) /\
      enrichFlightWithMetadata this1 f = Throw e /\
      r = Throw (FailedToLoad e) /\ this' = this1)
  \/
  (exists enriched,
      Forall2 (fun f fm => enrichFlightWithMetadata this1 f = Ok fm)
              (flights data) enriched /\
      r = Ok tt /\
      this' = mkDataLoader (Some data) (airportMap this1) enriched
                (foldl (indexFlight (fun f => origin f))
                       (flightsByOrigin this) enriched)
                (foldl (indexFlight (fun f => destination f))
                       (flightsByDestination this) enriched)
                (foldl (indexFlight (fun f => splitT0 (departureTime f)))
                       (flightsByDate this) enriched)).
Proof.
  intros E this1. unfold loadData in E. fold (withData this data) in E.
  cbv zeta in E.
  destruct (buildIndices (withData this data)) as [r0 s] eqn:Hb.
  apply buildIndices_inv in Hb. simpl in Hb. fold this1 in Hb.
  destruct Hb as [(e & f & Hin & Hf & -> & ->)|(enriched & Hall & -> & ->)].
  - left. exists e, f. inversion E; subst. auto.
  - right. exists enriched. inversion E; subst. auto.
Qed.

Lemma loadData_originIndexOk data this r this' :
  loadData data this = (r, this') -> originIndexOk this -> originIndexOk this'.
Proof.
  intros E Hok. apply loadData_inv in E.
  destruct E as [(e & f & _ & _ & _ & ->)|(enriched & Hall & _ & ->)].
  - exact Hok.
  - unfold originIndexOk. simpl.
    apply (foldl_indexFlight_Forall
             (fun k (f : FlightWithMetadata) =>
                origin f = k /\
                durationMinutes f
                = calculateDuration (departureDateUTC f) (arrivalDateUTC f))).
    + exact Hok.
    + clear -Hall. induction Hall as [|f fm fs fms Hf _ IH]; constructor.
      * apply enrichFlightWithMetadata_Ok in Hf as (_ & _ & _ & _ & _ & Hd).
        split; [reflexivity | exact Hd].
      * exact IH.
Qed.

(** The by-origin index of every reachable loader is well formed. *)
Lemma reachable_originIndexOk this : reachable this -> originIndexOk this.
Proof.
  induction 1 as [|data this r this' _ IH Hload].
  - intros key bucket Hlook. simpl in Hlook. rewrite lookup_empty in Hlook.
    discriminate.
  - eapply loadData_originIndexOk; eauto.
Qed.

(** C3, as the code has it. Loading rejects a data set exactly when one of
    its flights names an airport that is missing from the airport table;
    the duration stored with a flight is the difference of its two
    converted instants, whatever its sign. *)
Theorem load_rejects_only_missing_airports (data : FlightData)
    (this : DataLoader) :
  let table := airportMap (withAirports (withData this data) data) in
  (fst (loadData data this) = Ok tt <->
   Forall (fun f : Flight =>
             is_Some (table !! origin f) /\ is_Some (table !! destination f))
          (flights data))
  /\ (fst (loadData data this) = Ok tt ->
      Forall2 (fun (f : Flight) (fm : FlightWithMetadata) =>
                 flight fm = f /\
                 durationMinutes fm
                 = calculateDuration
                     (localTimeToUTC (departureTime f)
                                     (timezone (originAirport fm)))
                     (localTimeToUTC (arrivalTime f)
                                     (timezone (destinationAirport fm))))
              (flights data)
              (flightsWithMetadata (snd (loadData data this)))).
Proof.
  intros table.
  destruct (loadData data this) as [r this'] eqn:E. simpl.
  apply loadData_inv in E. fold table in E.
  destruct E as [(e & f & Hin & Hf & -> & ->)|(enriched & Hall & -> & ->)].
  - split; [split|]; try discriminate.
    intros Hairports. exfalso.
    rewrite Forall_forall in Hairports.
    destruct (Hairports f) as [[a Ha] [b Hb]].
    { apply list_elem_of_In. exact Hin. }
    apply enrichFlightWithMetadata_Throw in Hf as [Hf|Hf];
      unfold table in *; congruence.
  - split; [split; [intros _|reflexivity]|intros _]; simpl.
    + clear -Hall. induction Hall as [|f fm fs fms Hf _ IH]; constructor.
      * apply enrichFlightWithMetadata_Ok in Hf as (_ & Ho & Hd & _).
        unfold table. rewrite Ho, Hd. eauto.
      * exact IH.
    + clear -Hall. induction Hall as [|f fm fs fms Hf _ IH]; constructor.
      * apply enrichFlightWithMetadata_Ok in Hf as (Hfl & _ & _ & Hdep & Harr & Hdur).
        split; [exact Hfl|]. rewrite Hdur, Hdep, Harr. reflexivity.
      * exact IH.
Qed.
End LoadFacts.

(** C3, counterexample. Flight SP900 lands, on the absolute time line, 240
    minutes before it takes off; the load returns normally and the store
    holds the flight with a duration of -240 minutes. *)
Lemma load_accepts_negative_duration :
  fst (loadData Sample.dataWithNegativeDuration newDataLoader) = Ok tt /\
  List.map (fun fm : FlightWithMetadata => (flightNumber fm, durationMinutes fm))
      (getFlightsDepartingFrom
         (Sample.loaderAfter Sample.dataWithNegativeDuration) "LAX")
  = [("SP900", Some (-240)%Z)].
Proof. split; vm_compute; reflexivity. Qed.

(** ** Two-stop itineraries and the search origin *)

Lemma getFlightsByOriginAndDate_In this o date f :
  In f (getFlightsByOriginAndDate this o date) ->
  exists bucket,
    flightsByOrigin this !! o = Some bucket /\ In f bucket /\
    splitT0 (departureTime f) = date.
Proof.
  unfold getFlightsByOriginAndDate. intros Hin.
  apply filter_In in Hin as [Hin Hdate]. apply String.eqb_eq in Hdate.
  destruct (flightsByOrigin this !! o) as [bucket|]; simpl in Hin; [|destruct Hin].
  exists bucket. auto.
Qed.

Section OriginGuard.
Context `{DateLibrary}.

Lemma first_leg_leaves_origin this o date f :
  reachable this -> In f (getFlightsByOriginAndDate this o date) -> origin f = o.
Proof.
  intros Hreach Hin. apply reachable_originIndexOk in Hreach.
  apply getFlightsByOriginAndDate_In in Hin as (bucket & Hlook & Hin & _).
  specialize (Hreach _ _ Hlook). rewrite Forall_forall in Hreach.
  apply Hreach. apply list_elem_of_In. exact Hin.
Qed.

(** C5, as the code has it. In a returned two-stop itinerary the second
    segment never lands at the search origin; the first segment lands
    there only when it is itself a flight from the origin back to the
    origin. *)
Theorem two_stop_origin_guard (p : SearchParams) (w w' : World)
    (r : SearchResponse) (it : Itinerary) (s1 s2 s3 : FlightSegment) :
  reachable (dataLoader w) ->
  search p w = (Ok r, w') ->
  In it (itineraries r) ->
  segments it = [s1; s2; s3] ->
  seg_destination s2 <> sp_origin p /\
  (seg_destination s1 = sp_origin p -> seg_origin s1 = seg_destination s1).
Proof.
  intros Hreach E Hin Hsegs.
  destruct (search_itinerary_candidate _ _ _ _ _ E Hin) as (c & Hmade & Hshape).
  apply assembledFrom_inv in Hmade as (_ & _ & Hall). rewrite Hsegs in Hall.
  destruct Hshape as [f ? _ _
                     |f1 f2 ? _ _ _ _
                     |f1 f2 f3 ? Hf1 _ _ Hno _ _ _ _]; simpl in Hall.
  - inversion Hall as [|? ? ? ? _ Hrest]; subst. inversion Hrest.
  - inversion Hall as [|? ? ? ? _ Hrest]; subst.
    inversion Hrest as [|? ? ? ? _ Hrest']; subst. inversion Hrest'.
  - inversion Hall as [|? ? ? ? (v1 & v1' & Hs1) Hrest]; subst.
    inversion Hrest as [|? ? ? ? (v2 & v2' & Hs2) _]; subst.
    apply toSegment_Ok in Hs1 as (Ho1 & Hd1 & _).
    apply toSegment_Ok in Hs2 as (_ & Hd2 & _).
    split; [rewrite Hd2; exact Hno|].
    intros Hback. rewrite Ho1, Hback.
    eapply first_leg_leaves_origin; eauto.
Qed.
End OriginGuard.

Lemma two_stop_origin_guard_witness :
  seg_destination (nth 1 (segments (Sample.itinerary Sample.data 2))
                     (mkFlightSegment "" "" "" "" "" "" "" "" "" "" None 0%float))
  <> "JFK".
Proof.
  refine (proj1 (two_stop_origin_guard Sample.march15
           (Sample.worldAfter Sample.data)
           (snd (search Sample.march15 (Sample.worldAfter Sample.data)))
           (Sample.response Sample.data) (Sample.itinerary Sample.data 2)
           (nth 0 (segments (Sample.itinerary Sample.data 2))
                (mkFlightSegment "" "" "" "" "" "" "" "" "" "" None 0%float))
           (nth 1 (segments (Sample.itinerary Sample.data 2))
                (mkFlightSegment "" "" "" "" "" "" "" "" "" "" None 0%float))
           (nth 2 (segments (Sample.itinerary Sample.data 2))
                (mkFlightSegment "" "" "" "" "" "" "" "" "" "" None 0%float))
           _ _ _ _)).
  - apply (reachable_load Sample.data newDataLoader (Ok tt));
      [apply reachable_new | vm_compute; reflexivity].
  - vm_compute. reflexivity.
  - vm_compute. right. right. left. reflexivity.
  - vm_compute. reflexivity.
Defined.

(** C5, counterexample. With a flight that leaves from and lands at JFK in
    the data, the search from JFK to LAX returns a two-stop itinerary whose
    first segment lands at JFK, the search origin. *)
Lemma origin_revisited_by_first_leg :
  search Sample.march15 (Sample.worldAfter Sample.dataWithRoundTrip)
  = (Ok (Sample.response Sample.dataWithRoundTrip),
     snd (search Sample.march15 (Sample.worldAfter Sample.dataWithRoundTrip))) /\
  In (Sample.itinerary Sample.dataWithRoundTrip 1)
     (itineraries (Sample.response Sample.dataWithRoundTrip)) /\
  List.map (fun s => (seg_origin s, seg_destination s))
      (segments (Sample.itinerary Sample.dataWithRoundTrip 1))
  = [("JFK", "JFK"); ("JFK", "ORD"); ("ORD", "LAX")] /\
  sp_origin Sample.march15 = "JFK".
Proof.
  repeat split; try (vm_compute; reflexivity).
  vm_compute. right. left. reflexivity.
Qed.

(** ** Loading twice *)

Lemma foldl_indexFlight_lookup (key : FlightWithMetadata -> string)
    (fs : list FlightWithMetadata) :
  forall (index : gmap string (list FlightWithMetadata)) k,
    foldl (indexFlight key) index fs !! k
    = match List.filter (fun f => String.eqb (key f) k) fs with
      | [] => index !! k
      | extra => Some (default [] (index !! k) ++ extra)
      end.
Proof.
  induction fs as [|f fs IH]; intros index k; [reflexivity|].
  cbn [foldl List.filter]. rewrite IH. unfold indexFlight.
  destruct (String.eqb (key f) k) eqn:Hk.
  - apply String.eqb_eq in Hk. subst k. rewrite lookup_insert_eq. simpl.
    destruct (List.filter _ fs); rewrite <- ?app_assoc; reflexivity.
  - apply String.eqb_neq in Hk. rewrite lookup_insert_ne by exact Hk.
    reflexivity.
Qed.

(** Indexing the same flights into an index built from them doubles every
    bucket. *)
Lemma reindex_doubles (key : FlightWithMetadata -> string)
    (fs : list FlightWithMetadata) k bucket :
  foldl (indexFlight key) ∅ fs !! k = Some bucket ->
  foldl (indexFlight key) (foldl (indexFlight key) ∅ fs) fs !! k
  = Some (bucket ++ bucket).
Proof.
  intros Hone. rewrite foldl_indexFlight_lookup.
  rewrite Hone. simpl.
  rewrite foldl_indexFlight_lookup, lookup_empty in Hone.
  destruct (List.filter _ fs) as [|f extra]; [discriminate|].
  simpl in Hone. inversion Hone. reflexivity.
Qed.

Lemma foldl_airports_union (l : list Airport) :
  forall m : gmap string Airport,
    foldl (fun m airport => <[code airport := airport]> m) m l
    = foldl (fun m airport => <[code airport := airport]> m) ∅ l ∪ m.
Proof.
  induction l as [|a l IH]; intros m; simpl.
  - symmetry. apply (left_id_L ∅ (∪)).
  - rewrite IH. rewrite (IH (<[code a:=a]> ∅)).
    rewrite <- (assoc_L (∪)). f_equal.
    rewrite insert_empty. rewrite <- insert_union_singleton_l. reflexivity.
Qed.

Lemma Forall2_Ok_functional {A B} (g g' : A -> Result B) l ys ys' :
  (forall x, g' x = g x) ->
  Forall2 (fun x y => g x = Ok y) l ys ->
  Forall2 (fun x y => g' x = Ok y) l ys' ->
  ys' = ys.
Proof.
  intros Hsame Hall. revert ys'.
  induction Hall as [|x y l ys Hx _ IH]; intros ys' Hall';
    inversion Hall' as [|? y' ? ys'' Hx' Hrest]; subst; [reflexivity|].
  rewrite Hsame in Hx'. f_equal; [congruence | apply IH; exact Hrest].
Qed.

Section SecondLoad.
Context `{DateLibrary}.

Lemma enrichFlightWithMetadata_table this this' f :
  airportMap this = airportMap this' ->
  enrichFlightWithMetadata this f = enrichFlightWithMetadata this' f.
Proof. unfold enrichFlightWithMetadata. intros ->. reflexivity. Qed.

(** Whatever the data set, a second [loadData] on a loader that has just
    loaded it returns normally, leaves the airport table and the list of
    enriched flights as they were, and appends to every bucket of the three
    indices the flights the bucket already holds. *)
Lemma second_load_doubles_every_bucket (data : FlightData)
    (once twice : DataLoader) (r : Result unit) :
  loadData data newDataLoader = (Ok tt, once) ->
  loadData data once = (r, twice) ->
  r = Ok tt /\
  airportMap twice = airportMap once /\
  flightsWithMetadata twice = flightsWithMetadata once /\
  (forall k bucket, flightsByOrigin once !! k = Some bucket ->
                    flightsByOrigin twice !! k = Some (bucket ++ bucket)) /\
  (forall k bucket, flightsByDestination once !! k = Some bucket ->
                    flightsByDestination twice !! k = Some (bucket ++ bucket)) /\
  (forall k bucket, flightsByDate once !! k = Some bucket ->
                    flightsByDate twice !! k = Some (bucket ++ bucket)).
Proof.
  intros E1 E2. apply loadData_inv in E1. cbv zeta in E1.
  destruct E1 as [(e & f & _ & _ & He & _)|(enriched & Hall & _ & ->)];
    [discriminate|].
  apply loadData_inv in E2. cbv zeta in E2.
  set (this1 := withAirports (withData newDataLoader data) data) in *.
  set (once := mkDataLoader _ _ _ _ _ _) in *.
  set (this2 := withAirports (withData once data) data) in *.
  assert (Htable : airportMap this2 = airportMap this1).
  { unfold this2, this1, withAirports, withData, once. simpl.
    rewrite (foldl_airports_union (airports data) (foldl _ ∅ (airports data))).
    apply (idemp_L (∪)). }
  assert (Hsame : forall f, enrichFlightWithMetadata this2 f
                            = enrichFlightWithMetadata this1 f)
    by (intros f; apply enrichFlightWithMetadata_table; exact Htable).
  destruct E2 as [(e & f & Hin & Hf & _ & _)|(enriched' & Hall' & -> & ->)].
  - exfalso. rewrite Hsame in Hf.
    destruct (Forall2_In_l _ _ _ _ Hall Hin) as (fm & _ & Hok).
    congruence.
  - assert (Heq : enriched' = enriched)
      by (eapply Forall2_Ok_functional; eauto).
    subst enriched'. simpl.
    repeat split; try assumption; intros k bucket; apply reindex_doubles.
Qed.
End SecondLoad.

(** C8 at a failing input. After one load of a data set with the single
    flight SP101 every index bucket holds it once; after a second load of
    the same data each bucket holds it twice, while the airport table and
    the list of enriched flights are as after the first load. *)
Lemma second_load_duplicates_buckets :
  fst (loadData Sample.oneFlight (Sample.loaderAfter Sample.oneFlight)) = Ok tt /\
  Sample.flightNumbers
    (flightsByOrigin (Sample.loaderAfter Sample.oneFlight) !! "JFK")
  = ["SP101"] /\
  Sample.flightNumbers
    (flightsByOrigin (Sample.loaderAfterTwo Sample.oneFlight) !! "JFK")
  = ["SP101"; "SP101"] /\
  Sample.flightNumbers
    (flightsByDestination (Sample.loaderAfterTwo Sample.oneFlight) !! "LAX")
  = ["SP101"; "SP101"] /\
  Sample.flightNumbers
    (flightsByDate (Sample.loaderAfterTwo Sample.oneFlight) !! "2024-03-15")
  = ["SP101"; "SP101"] /\
  flightsByOrigin (Sample.loaderAfterTwo Sample.oneFlight)
  <> flightsByOrigin (Sample.loaderAfter Sample.oneFlight) /\
  airportMap (Sample.loaderAfterTwo Sample.oneFlight)
  = airportMap (Sample.loaderAfter Sample.oneFlight) /\
  flightsWithMetadata (Sample.loaderAfterTwo Sample.oneFlight)
  = flightsWithMetadata (Sample.loaderAfter Sample.oneFlight).
Proof.
  repeat split; try (vm_compute; reflexivity).
  intros Heq.
  assert (Hb : Sample.flightNumbers
                 (flightsByOrigin (Sample.loaderAfterTwo Sample.oneFlight) !! "JFK")
               = ["SP101"]) by (rewrite Heq; vm_compute; reflexivity).
  vm_compute in Hb. discriminate.
Qed.

(** ** The round trip through an absolute instant *)

(** In the library model, [localTimeToUTC] subtracts from the wall-clock
    reading the offset the zone has at the instant obtained by reading the
    wall clock as UTC, and the way back adds the offset at the result: the
    wall clock comes back exactly when these two offsets agree. *)
Lemma localTimeToUTC_offset_instant t tz wall offset :
  DateFns.parseISO t = Some wall ->
  DateFns.zoneOffset tz = Some offset ->
  (Z.abs (wall - offset wall) <= 8640000000000000)%Z ->
  localTimeToUTC t tz = Some (wall - offset wall)%Z /\
  utcToZonedTime (localTimeToUTC t tz) tz
  = Some (wall - offset wall + offset (wall - offset wall))%Z.
Proof.
  intros Hparse Hzone Hrange.
  assert (Hutc : localTimeToUTC t tz = Some (wall - offset wall)%Z).
  { unfold localTimeToUTC. cbn [parseISO utcToZonedTime dateFns].
    unfold DateFns.utcToZonedTime. rewrite Hparse, Hzone. simpl.
    replace (wall - (wall + offset wall - wall))%Z with (wall - offset wall)%Z
      by lia.
    apply Z.leb_le in Hrange. rewrite Hrange. reflexivity. }
  split; [exact Hutc|].
  rewrite Hutc. cbn [utcToZonedTime dateFns].
  unfold DateFns.utcToZonedTime. rewrite Hzone. reflexivity.
Qed.

(** C7 at a failing input. In New York the clocks went from 02:00 to 03:00
    on 2024-03-10, so 04:00 that morning is a wall-clock time that exists,
    four hours behind UTC, at the instant 08:00 UTC. The conversion reads
    the offset at 04:00 UTC instead, when the zone was still five hours
    behind, and answers 09:00 UTC; formatted back, that is 05:00. *)
Lemma round_trip_off_by_one_hour :
  wallClock <$> utcToLocalTime (Some (DateFns.utc 2024 3 10 8 0 0)) "America/New_York"
  = Some "2024-03-10T04:00:00" /\
  localTimeToUTC "2024-03-10T04:00:00" "America/New_York"
  = Some (DateFns.utc 2024 3 10 9 0 0) /\
  wallClock <$> utcToLocalTime
                  (localTimeToUTC "2024-03-10T04:00:00" "America/New_York")
                  "America/New_York"
  = Some "2024-03-10T05:00:00".
Proof. repeat split; vm_compute; reflexivity. Qed.

(** ** The order of the response *)

Lemma durationLe_trans a b c : durationLe a b -> durationLe b c -> durationLe a c.
Proof.
  unfold durationLe, num_le.
  destruct (totalDuration a), (totalDuration b), (totalDuration c);
    intros; try contradiction; lia.
Qed.

Lemma sortInsert_StronglySorted x l :
  is_Some (totalDuration x) ->
  Forall (fun it => is_Some (totalDuration it)) l ->
  StronglySorted durationLe l ->
  StronglySorted durationLe (sortInsert byTotalDuration x l).
Proof.
  intros [kx Hx] Hnum Hsorted.
  induction l as [|y l IH]; simpl; [repeat constructor|].
  inversion Hnum as [|? ? [ky Hy] Hnum']; subst.
  inversion Hsorted as [|? ? Hsl Hyl]; subst.
  unfold byTotalDuration at 1. rewrite Hx, Hy. simpl.
  destruct (0 <? kx - ky)%Z eqn:Hcmp.
  - apply Z.ltb_lt in Hcmp. constructor; [apply IH; assumption|].
    eapply Permutation_Forall;
      [symmetry; apply sortInsert_Permutation|].
    constructor; [|exact Hyl].
    unfold durationLe, num_le. rewrite Hx, Hy. lia.
  - apply Z.ltb_ge in Hcmp.
    assert (Hxy : durationLe x y)
      by (unfold durationLe, num_le; rewrite Hx, Hy; lia).
    constructor; [exact Hsorted|].
    constructor; [exact Hxy|].
    eapply List.Forall_impl; [|exact Hyl].
    intros z Hyz. eapply durationLe_trans; eauto.
Qed.

Lemma Array_sort_StronglySorted l :
  Forall (fun it => is_Some (totalDuration it)) l ->
  StronglySorted durationLe (Array_sort byTotalDuration l).
Proof.
  induction 1 as [|x l Hx Hl IH]; simpl; [constructor|].
  apply sortInsert_StronglySorted; [exact Hx| |exact IH].
  eapply Permutation_Forall; [symmetry; apply Array_sort_Permutation | exact Hl].
Qed.

(** Inserting an itinerary moves it past strictly shorter ones only, so
    among the itineraries of any one duration the order is kept. *)
Lemma sortInsert_filter minutes x l :
  List.filter (lasts minutes) (sortInsert byTotalDuration x l)
  = List.filter (lasts minutes) (x :: l).
Proof.
  induction l as [|y l IH]; [reflexivity|].
  cbn [sortInsert].
  destruct (0 <? compareValue (byTotalDuration x y))%Z eqn:Hcmp; [|reflexivity].
  cbn [List.filter] in *. rewrite IH.
  destruct (lasts minutes y) eqn:Hy; [|reflexivity].
  destruct (lasts minutes x) eqn:Hx; [|reflexivity].
  exfalso. unfold lasts in Hx, Hy. unfold byTotalDuration in Hcmp.
  destruct (totalDuration x) as [kx|]; [|discriminate].
  destruct (totalDuration y) as [ky|]; [|discriminate].
  simpl in Hcmp. apply Z.eqb_eq in Hx, Hy. apply Z.ltb_lt in Hcmp. lia.
Qed.

Lemma Array_sort_filter minutes l :
  List.filter (lasts minutes) (Array_sort byTotalDuration l)
  = List.filter (lasts minutes) l.
Proof.
  induction l as [|x l IH]; [reflexivity|].
  cbn [Array_sort]. rewrite sortInsert_filter.
  cbn [List.filter]. rewrite IH. reflexivity.
Qed.

Lemma getFlightsDepartingFrom_In this airport f :
  In f (getFlightsDepartingFrom this airport) ->
  exists bucket, flightsByOrigin this !! airport = Some bucket /\ In f bucket.
Proof.
  unfold getFlightsDepartingFrom. intros Hin.
  destruct (flightsByOrigin this !! airport) as [bucket|]; simpl in Hin;
    [|destruct Hin].
  exists bucket. auto.
Qed.

Section Durations.
Context `{DateLibrary}.

Lemma utcToLocalTime_Some d tz s : utcToLocalTime d tz = Some s -> is_Some d.
Proof.
  unfold utcToLocalTime. destruct d as [t|]; [eauto|].
  rewrite utcToZonedTime_invalid, format_invalid. discriminate.
Qed.

(** A flight of the store that could be formatted has a duration that is a
    number. *)
Lemma stored_leg_duration this bucket key f w s w' :
  originIndexOk this ->
  flightsByOrigin this !! key = Some bucket -> In f bucket ->
  toSegment f w = (Ok s, w') ->
  is_Some (durationMinutes f).
Proof.
  intros Hok Hlook Hin Hs.
  specialize (Hok _ _ Hlook). rewrite Forall_forall in Hok.
  destruct (Hok f) as [_ Hdur]; [apply list_elem_of_In; exact Hin|].
  apply toSegment_Ok in Hs as (_ & _ & Hdep & Harr & _).
  apply utcToLocalTime_Some in Hdep as [dep Hdep].
  apply utcToLocalTime_Some in Harr as [arr Harr].
  rewrite Hdur, Hdep, Harr. simpl. eauto.
Qed.

Lemma assembled_duration_numeric this o d date c it :
  originIndexOk this ->
  candidateShape this o d date c ->
  assembledFrom c it ->
  is_Some (totalDuration it).
Proof.
  intros Hok Hshape Hmade.
  apply assembledFrom_inv in Hmade as (_ & -> & Hall).
  assert (Hleg1 : forall f s w w',
             In f (getFlightsByOriginAndDate this o date) ->
             toSegment f w = (Ok s, w') -> is_Some (durationMinutes f)).
  { intros f s w w' Hin Hs.
    apply getFlightsByOriginAndDate_In in Hin as (bucket & Hlook & Hin & _).
    eapply stored_leg_duration; eauto. }
  assert (Hleg : forall f a s w w',
             In f (getFlightsDepartingFrom this a) ->
             toSegment f w = (Ok s, w') -> is_Some (durationMinutes f)).
  { intros f a s w w' Hin Hs.
    apply getFlightsDepartingFrom_In in Hin as (bucket & Hlook & Hin).
    eapply stored_leg_duration; eauto. }
  destruct Hshape as [f ? Hf _
                     |f1 f2 ? Hf1 Hf2 Hc _
                     |f1 f2 f3 ? Hf1 Hf2 Hf3 _ _ Hc1 Hc2 _]; simpl in *.
  - inversion Hall as [|? ? ? ? (w & w' & Hs) _]; subst. eauto.
  - inversion Hall as [|? ? ? ? (w1 & w1' & Hs1) Hrest]; subst.
    inversion Hrest as [|? ? ? ? (w2 & w2' & Hs2) _]; subst.
    destruct (Hleg1 _ _ _ _ Hf1 Hs1) as [d1 ->].
    destruct (Hleg _ _ _ _ _ Hf2 Hs2) as [d2 ->].
    apply canConnect_layoverRule in Hc as (_ & m & -> & _). simpl. eauto.
  - inversion Hall as [|? ? ? ? (w1 & w1' & Hs1) Hrest]; subst.
    inversion Hrest as [|? ? ? ? (w2 & w2' & Hs2) Hrest']; subst.
    inversion Hrest' as [|? ? ? ? (w3 & w3' & Hs3) _]; subst.
    destruct (Hleg1 _ _ _ _ Hf1 Hs1) as [d1 ->].
    destruct (Hleg _ _ _ _ _ Hf2 Hs2) as [d2 ->].
    destruct (Hleg _ _ _ _ _ Hf3 Hs3) as [d3 ->].
    apply canConnect_layoverRule in Hc1 as (_ & m1 & -> & _).
    apply canConnect_layoverRule in Hc2 as (_ & m2 & -> & _). simpl. eauto.
Qed.

(** C6. The itineraries of a response are in non-decreasing order of total
    duration, and itineraries of equal duration keep the order in which the
    search met them: the direct ones first, then the one-stop ones, then
    the two-stop ones, each stage in the order of its enumeration. *)
Theorem itineraries_sorted_stable (p : SearchParams) (w w' : World)
    (r : SearchResponse) :
  reachable (dataLoader w) ->
  search p w = (Ok r, w') ->
  StronglySorted durationLe (itineraries r) /\
  exists direct oneStop twoStop w1 w2,
    convertToItineraries
      (findDirectFlights (dataLoader w) (sp_origin p) (sp_destination p)
         (sp_date p)) w = (Ok direct, w1) /\
    convertToItineraries
      (findOneStopConnections (dataLoader w) (sp_origin p) (sp_destination p)
         (sp_date p)) w1 = (Ok oneStop, w2) /\
    convertToItineraries
      (findTwoStopConnections (dataLoader w) (sp_origin p) (sp_destination p)
         (sp_date p)) w2 = (Ok twoStop, w') /\
    Permutation (itineraries r) (direct ++ oneStop ++ twoStop) /\
    forall minutes,
      List.filter (lasts minutes) (itineraries r)
      = List.filter (lasts minutes) (direct ++ oneStop ++ twoStop).
Proof.
  intros Hreach E.
  assert (Hnum : Forall (fun it => is_Some (totalDuration it)) (itineraries r)).
  { apply List.Forall_forall. intros it Hin.
    destruct (search_itinerary_candidate _ _ _ _ _ E Hin) as (c & Hmade & Hshape).
    eapply assembled_duration_numeric; eauto.
    apply reachable_originIndexOk. exact Hreach. }
  apply search_inv in E. cbv zeta in E.
  destruct E as [(e & _ & He & _)|(_ & r1 & w1 & E1 & Hrest)]; [discriminate|].
  destruct r1 as [direct|e]; [|destruct Hrest; discriminate].
  destruct Hrest as (r2 & w2 & E2 & Hrest).
  destruct r2 as [oneStop|e]; [|destruct Hrest; discriminate].
  destruct Hrest as (r3 & E3 & Hrest).
  destruct r3 as [twoStop|e]; [|discriminate].
  inversion Hrest; subst r. simpl in *.
  split.
  - apply Array_sort_StronglySorted.
    eapply Permutation_Forall; [apply Array_sort_Permutation | exact Hnum].
  - exists direct, oneStop, twoStop, w1, w2.
    repeat split; try assumption.
    + apply Array_sort_Permutation.
    + intros minutes. apply Array_sort_filter.
Qed.
End Durations.

Lemma itineraries_sorted_stable_witness :
  StronglySorted durationLe (itineraries (Sample.response Sample.data)).
Proof.
  refine (proj1 (itineraries_sorted_stable Sample.march15
            (Sample.worldAfter Sample.data)
            (snd (search Sample.march15 (Sample.worldAfter Sample.data)))
            (Sample.response Sample.data) _ _)).
  - apply (reachable_load Sample.data newDataLoader (Ok tt));
      [apply reachable_new | vm_compute; reflexivity].
  - vm_compute. reflexivity.
Defined.

(** ** Two searches on one store *)

Lemma withoutId_byTotalDuration a b :
  byTotalDuration (withoutId a) (withoutId b) = byTotalDuration a b.
Proof. reflexivity. Qed.

Lemma sortInsert_withoutId x l :
  List.map withoutId (sortInsert byTotalDuration x l)
  = sortInsert byTotalDuration (withoutId x) (List.map withoutId l).
Proof.
  induction l as [|y l IH]; [reflexivity|].
  cbn [sortInsert List.map]. rewrite withoutId_byTotalDuration.
  destruct (0 <? compareValue (byTotalDuration x y))%Z; [|reflexivity].
  cbn [List.map]. rewrite IH. reflexivity.
Qed.

Lemma Array_sort_withoutId l :
  List.map withoutId (Array_sort byTotalDuration l)
  = Array_sort byTotalDuration (List.map withoutId l).
Proof.
  induction l as [|x l IH]; [reflexivity|].
  cbn [Array_sort List.map]. rewrite sortInsert_withoutId, IH. reflexivity.
Qed.

Lemma Array_sort_length {A} (compareFn : A -> A -> number) l :
  length (Array_sort compareFn l) = length l.
Proof. apply Permutation_length, Array_sort_Permutation. Qed.

Section Determinism.
Context `{DateLibrary}.

Lemma toSegments_result l w1 w2 :
  fst (mapST toSegment l w1) = fst (mapST toSegment l w2).
Proof.
  revert w1 w2. induction l as [|f l IH]; intros w1 w2; [reflexivity|].
  cbn [mapST]. unfold bind.
  destruct (toSegment f w1) as [r1 v1] eqn:E1.
  destruct (toSegment f w2) as [r2 v2] eqn:E2.
  assert (Hr : r1 = r2).
  { unfold toSegment, bind, utcToLocalTimeST in E1, E2.
    destruct (utcToLocalTime (departureDateUTC f) _);
      cbv [ret throw] in E1, E2; [|congruence].
    destruct (utcToLocalTime (arrivalDateUTC f) _);
      cbv [ret throw] in E1, E2; congruence. }
  subst r2. destruct r1 as [s|e]; [|reflexivity].
  specialize (IH v1 v2).
  destruct (mapST toSegment l v1) as [[ss1|e1] u1];
    destruct (mapST toSegment l v2) as [[ss2|e2] u2];
    simpl in IH; cbv [ret]; simpl; congruence.
Qed.

Lemma candidateToItinerary_result c w1 w2 :
  mapResult withoutId (fst (candidateToItinerary c w1))
  = mapResult withoutId (fst (candidateToItinerary c w2)).
Proof.
  unfold candidateToItinerary, bind.
  pose proof (toSegments_result (cand_segments c) w1 w2) as Hsegs.
  destruct (mapST toSegment (cand_segments c) w1) as [[ss1|e1] u1];
    destruct (mapST toSegment (cand_segments c) w2) as [[ss2|e2] u2];
    simpl in Hsegs; try discriminate; cbv [uuidv4 ret]; simpl.
  - inversion Hsegs; subst. reflexivity.
  - congruence.
Qed.

(** Up to the identifiers, what the assembly returns depends on the
    candidates only. *)
Lemma convertToItineraries_result cs :
  forall w1 w2,
    mapResult (List.map withoutId) (fst (convertToItineraries cs w1))
    = mapResult (List.map withoutId) (fst (convertToItineraries cs w2)).
Proof.
  unfold convertToItineraries.
  induction cs as [|c cs IH]; intros w1 w2; [reflexivity|].
  cbn [mapST]. unfold bind.
  pose proof (candidateToItinerary_result c w1 w2) as Hc.
  destruct (candidateToItinerary c w1) as [[a|e1] v1];
    destruct (candidateToItinerary c w2) as [[b|e2] v2];
    simpl in Hc; try discriminate.
  - specialize (IH v1 v2).
    destruct (mapST candidateToItinerary cs v1) as [[l1|e1] u1];
      destruct (mapST candidateToItinerary cs v2) as [[l2|e2] u2];
      simpl in IH; try discriminate; cbv [ret]; simpl.
    + inversion Hc. inversion IH. simpl. congruence.
    + exact IH.
  - simpl. congruence.
Qed.

Lemma search_keeps_loader p w : dataLoader (snd (search p w)) = dataLoader w.
Proof.
  destruct (search p w) as [r w'] eqn:E. simpl.
  apply search_inv in E. cbv zeta in E.
  destruct E as [(e & _ & _ & ->)|(_ & r1 & w1 & E1 & Hrest)]; [reflexivity|].
  apply convertToItineraries_loader in E1.
  destruct r1 as [direct|e]; [|destruct Hrest as [_ ->]; exact E1].
  destruct Hrest as (r2 & w2 & E2 & Hrest).
  apply convertToItineraries_loader in E2.
  destruct r2 as [oneStop|e]; [|destruct Hrest as [_ ->]; congruence].
  destruct Hrest as (r3 & E3 & _).
  apply convertToItineraries_loader in E3. congruence.
Qed.

(** Two searches with the same parameters on the same store return the
    same response up to the identifiers of the itineraries, and neither
    changes the store. *)
Lemma search_same_up_to_ids (p : SearchParams) (w1 w2 : World) :
  dataLoader w1 = dataLoader w2 ->
  withoutIds (fst (search p w1)) = withoutIds (fst (search p w2)) /\
  dataLoader (snd (search p w1)) = dataLoader w1 /\
  dataLoader (snd (search p w2)) = dataLoader w2.
Proof.
  intros Hstore. split; [|split; apply search_keeps_loader].
  destruct (search p w1) as [ra wa] eqn:Ea.
  destruct (search p w2) as [rb wb] eqn:Eb. simpl.
  apply search_inv in Ea, Eb. cbv zeta in Ea, Eb. rewrite <- Hstore in Eb.
  destruct Ea as [(ea & Hva & -> & _)|(Hva & r1a & w1a & E1a & Ha)];
    destruct Eb as [(eb & Hvb & -> & _)|(Hvb & r1b & w1b & E1b & Hb)];
    try congruence.
  pose proof (convertToItineraries_result
                (findDirectFlights (dataLoader w1) (sp_origin p)
                   (sp_destination p) (sp_date p)) w1 w2) as H1.
  rewrite E1a, E1b in H1. simpl in H1.
  destruct r1a as [da|e]; destruct r1b as [db|e']; simpl in H1;
    try discriminate.
  2:{ destruct Ha as [-> _], Hb as [-> _]. simpl. congruence. }
  destruct Ha as (r2a & w2a & E2a & Ha). destruct Hb as (r2b & w2b & E2b & Hb).
  pose proof (convertToItineraries_result
                (findOneStopConnections (dataLoader w1) (sp_origin p)
                   (sp_destination p) (sp_date p)) w1a w1b) as H2.
  rewrite E2a, E2b in H2. simpl in H2.
  destruct r2a as [oa|e]; destruct r2b as [ob|e']; simpl in H2;
    try discriminate.
  2:{ destruct Ha as [-> _], Hb as [-> _]. simpl. congruence. }
  destruct Ha as (r3a & E3a & Ha). destruct Hb as (r3b & E3b & Hb).
  pose proof (convertToItineraries_result
                (findTwoStopConnections (dataLoader w1) (sp_origin p)
                   (sp_destination p) (sp_date p)) w2a w2b) as H3.
  rewrite E3a, E3b in H3. simpl in H3.
  destruct r3a as [ta|e]; destruct r3b as [tb|e']; simpl in H3;
    try discriminate.
  2:{ subst. simpl. congruence. }
  subst ra rb. simpl.
  inversion H1 as [Hd]. inversion H2 as [Ho]. inversion H3 as [Ht].
  assert (Hall : List.map withoutId (da ++ oa ++ ta)
                 = List.map withoutId (db ++ ob ++ tb))
    by (rewrite !List.map_app; congruence).
  rewrite !Array_sort_withoutId, !Array_sort_length, Hall.
  f_equal. f_equal.
  rewrite <- (List.length_map withoutId (da ++ oa ++ ta)), Hall.
  apply List.length_map.
Qed.
End Determinism.

(** C9, counterexample. The second of two identical searches on the same
    store returns itineraries with other identifiers than the first: the
    first call draws the identifiers 0, 1, 2 from the source, the second
    3, 4, 5, so the two responses differ. *)
Lemma second_search_draws_new_identifiers :
  dataLoader (Sample.worldAfterSearch Sample.data)
  = dataLoader (Sample.worldAfter Sample.data) /\
  Sample.identifiers
    (fst (search Sample.march15 (Sample.worldAfter Sample.data)))
  = ["0"; "1"; "2"] /\
  Sample.identifiers
    (fst (search Sample.march15 (Sample.worldAfterSearch Sample.data)))
  = ["3"; "4"; "5"] /\
  fst (search Sample.march15 (Sample.worldAfterSearch Sample.data))
  <> fst (search Sample.march15 (Sample.worldAfter Sample.data)).
Proof.
  repeat split; try (vm_compute; reflexivity).
  intros Heq. apply (f_equal Sample.identifiers) in Heq.
  vm_compute in Heq. discriminate.
Qed.

(** * Further properties of the search *)

(** ** What each stage enumerates, exactly *)

Lemma findDirectFlights_In loader o d date c :
  In c (findDirectFlights loader o d date) <->
  exists f : FlightWithMetadata,
    In f (getFlightsByOriginAndDate loader o date) /\
    destination f = d /\
    c = mkConnectionCandidate [f] (durationMinutes f) (price f).
Proof.
  unfold findDirectFlights, getDirectFlights. rewrite in_map_iff. split.
  - intros (f & <- & Hf). apply filter_In in Hf as [Hf Hd].
    apply String.eqb_eq in Hd. exists f. auto.
  - intros (f & Hf & Hd & ->). exists f. split; [reflexivity|].
    apply filter_In. split; [exact Hf|]. apply String.eqb_eq. exact Hd.
Qed.

Lemma findOneStopConnections_In loader o d date c :
  In c (findOneStopConnections loader o d date) <->
  exists f1 f2 : FlightWithMetadata,
    In f1 (getFlightsByOriginAndDate loader o date) /\
    destination f1 <> d /\
    In f2 (getFlightsDepartingFrom loader (destination f1)) /\
    destination f2 = d /\
    canConnect f1 f2
      (calculateLayoverDuration (arrivalDateUTC f1) (departureDateUTC f2)) = true /\
    c = mkConnectionCandidate [f1; f2]
          (num_add (num_add (durationMinutes f1)
                      (calculateLayoverDuration (arrivalDateUTC f1)
                         (departureDateUTC f2)))
                   (durationMinutes f2))
          (price f1 + price f2)%float.
Proof.
  unfold findOneStopConnections. rewrite in_flat_map. split.
  - intros (f1 & Hf1 & Hc).
    destruct (String.eqb (destination f1) d) eqn:Hd1; [destruct Hc|].
    apply in_flat_map in Hc as (f2 & Hf2 & Hc).
    destruct (String.eqb (destination f2) d) eqn:Hd2; simpl in Hc; [|destruct Hc].
    destruct (canConnect f1 f2 _) eqn:Hconn; [|destruct Hc].
    destruct Hc as [<-|[]].
    apply String.eqb_neq in Hd1. apply String.eqb_eq in Hd2.
    exists f1, f2. auto 10.
  - intros (f1 & f2 & Hf1 & Hd1 & Hf2 & Hd2 & Hconn & ->).
    exists f1. split; [exact Hf1|].
    apply String.eqb_neq in Hd1. rewrite Hd1.
    apply in_flat_map. exists f2. split; [exact Hf2|].
    apply String.eqb_eq in Hd2. rewrite Hd2. simpl. rewrite Hconn.
    left. reflexivity.
Qed.

Lemma findTwoStopConnections_In loader o d date c :
  In c (findTwoStopConnections loader o d date) <->
  exists f1 f2 f3 : FlightWithMetadata,
    In f1 (getFlightsByOriginAndDate loader o date) /\
    destination f1 <> d /\
    In f2 (getFlightsDepartingFrom loader (destination f1)) /\
    destination f2 <> d /\
    destination f2 <> o /\
    canConnect f1 f2
      (calculateLayoverDuration (arrivalDateUTC f1) (departureDateUTC f2)) = true /\
    In f3 (getFlightsDepartingFrom loader (destination f2)) /\
    destination f3 = d /\
    canConnect f2 f3
      (calculateLayoverDuration (arrivalDateUTC f2) (departureDateUTC f3)) = true /\
    c = mkConnectionCandidate [f1; f2; f3]
          (num_add (num_add (num_add (num_add (durationMinutes f1)
             (calculateLayoverDuration (arrivalDateUTC f1) (departureDateUTC f2)))
             (durationMinutes f2))
             (calculateLayoverDuration (arrivalDateUTC f2) (departureDateUTC f3)))
             (durationMinutes f3))
          (price f1 + price f2 + price f3)%float.
Proof.
  unfold findTwoStopConnections. rewrite in_flat_map. split.
  - intros (f1 & Hf1 & Hc).
    destruct (String.eqb (destination f1) d) eqn:Hd1; [destruct Hc|].
    apply in_flat_map in Hc as (f2 & Hf2 & Hc).
    destruct (String.eqb (destination f2) d) eqn:Hd2; [destruct Hc|].
    destruct (String.eqb (destination f2) o) eqn:Ho2; [destruct Hc|].
    destruct (canConnect f1 f2 _) eqn:Hconn1; simpl in Hc; [|destruct Hc].
    apply in_flat_map in Hc as (f3 & Hf3 & Hc).
    destruct (String.eqb (destination f3) d) eqn:Hd3; simpl in Hc; [|destruct Hc].
    destruct (canConnect f2 f3 _) eqn:Hconn2; [|destruct Hc].
    destruct Hc as [<-|[]].
    apply String.eqb_neq in Hd1, Hd2, Ho2. apply String.eqb_eq in Hd3.
    exists f1, f2, f3. auto 15.
  - intros (f1 & f2 & f3 & Hf1 & Hd1 & Hf2 & Hd2 & Ho2 & Hconn1 & Hf3 & Hd3
            & Hconn2 & ->).
    exists f1. split; [exact Hf1|].
    apply String.eqb_neq in Hd1. rewrite Hd1.
    apply in_flat_map. exists f2. split; [exact Hf2|].
    apply String.eqb_neq in Hd2, Ho2. rewrite Hd2, Ho2, Hconn1. simpl.
    apply in_flat_map. exists f3. split; [exact Hf3|].
    apply String.eqb_eq in Hd3. rewrite Hd3. simpl. rewrite Hconn2.
    left. reflexivity.
Qed.

Section Stages.
Context `{DateLibrary}.

(** The three stage lists of a search that returned, with its response. *)
Lemma search_Ok_stages p w r w' :
  search p w = (Ok r, w') ->
  validateSearchParams (dataLoader w) p = Ok tt /\
  exists direct oneStop twoStop w1 w2,
    convertToItineraries
      (findDirectFlights (dataLoader w) (sp_origin p) (sp_destination p)
         (sp_date p)) w = (Ok direct, w1) /\
    convertToItineraries
      (findOneStopConnections (dataLoader w) (sp_origin p) (sp_destination p)
         (sp_date p)) w1 = (Ok oneStop, w2) /\
    convertToItineraries
      (findTwoStopConnections (dataLoader w) (sp_origin p) (sp_destination p)
         (sp_date p)) w2 = (Ok twoStop, w') /\
    r = mkSearchResponse
          (Array_sort byTotalDuration (direct ++ oneStop ++ twoStop)) p
          (length (Array_sort byTotalDuration (direct ++ oneStop ++ twoStop))).
Proof.
  intros E. apply search_inv in E. cbv zeta in E.
  destruct E as [(e & _ & He & _)|(Hv & r1 & w1 & E1 & Hrest)]; [discriminate|].
  split; [exact Hv|].
  destruct r1 as [direct|e]; [|destruct Hrest; discriminate].
  destruct Hrest as (r2 & w2 & E2 & Hrest).
  destruct r2 as [oneStop|e]; [|destruct Hrest; discriminate].
  destruct Hrest as (r3 & E3 & Hrest).
  destruct r3 as [twoStop|e]; [|discriminate].
  inversion Hrest; subst r.
  exists direct, oneStop, twoStop, w1, w2. auto.
Qed.

(** A returned itinerary with the stage candidate it was assembled from. *)
Lemma search_itinerary_stage p w r w' it :
  search p w = (Ok r, w') -> In it (itineraries r) ->
  exists c,
    assembledFrom c it /\
    (In c (findDirectFlights (dataLoader w) (sp_origin p) (sp_destination p)
             (sp_date p))
     \/ In c (findOneStopConnections (dataLoader w) (sp_origin p)
                (sp_destination p) (sp_date p))
     \/ In c (findTwoStopConnections (dataLoader w) (sp_origin p)
                (sp_destination p) (sp_date p))).
Proof.
  intros E Hin.
  apply search_Ok_stages in E
    as (_ & direct & oneStop & twoStop & w1 & w2 & E1 & E2 & E3 & ->).
  simpl in Hin. apply Array_sort_In in Hin.
  assert (Hstage : forall cs s its s',
             convertToItineraries cs s = (Ok its, s') -> In it its ->
             exists c, In c cs /\ assembledFrom c it).
  { intros cs s its s' Hcs Hit. apply mapST_Ok_Forall2 in Hcs.
    destruct (Forall2_In_r _ _ _ _ Hcs Hit) as (c & Hc & Hmade). eauto. }
  apply in_app_or in Hin as [Hin|Hin]; [|apply in_app_or in Hin as [Hin|Hin]].
  - destruct (Hstage _ _ _ _ E1 Hin) as (c & Hc & Hmade). eauto.
  - destruct (Hstage _ _ _ _ E2 Hin) as (c & Hc & Hmade). eauto 6.
  - destruct (Hstage _ _ _ _ E3 Hin) as (c & Hc & Hmade). eauto 6.
Qed.

(** Every candidate of a stage is in the response of a search that
    returned. *)
Lemma search_candidate_listed p w r w' c :
  search p w = (Ok r, w') ->
  In c (findDirectFlights (dataLoader w) (sp_origin p) (sp_destination p)
          (sp_date p))
  \/ In c (findOneStopConnections (dataLoader w) (sp_origin p)
             (sp_destination p) (sp_date p))
  \/ In c (findTwoStopConnections (dataLoader w) (sp_origin p)
             (sp_destination p) (sp_date p)) ->
  exists it, In it (itineraries r) /\ assembledFrom c it.
Proof.
  intros E Hc.
  apply search_Ok_stages in E
    as (_ & direct & oneStop & twoStop & w1 & w2 & E1 & E2 & E3 & ->).
  assert (Hstage : forall cs s its s',
             convertToItineraries cs s = (Ok its, s') -> In c cs ->
             exists it, In it its /\ assembledFrom c it).
  { intros cs s its s' Hcs Hin. apply mapST_Ok_Forall2 in Hcs.
    destruct (Forall2_In_l _ _ _ _ Hcs Hin) as (it & Hit & Hmade). eauto. }
  simpl.
  destruct Hc as [Hc|[Hc|Hc]].
  - destruct (Hstage _ _ _ _ E1 Hc) as (it & Hit & Hmade).
    exists it. split; [|exact Hmade]. apply Array_sort_In.
    apply in_or_app. left. exact Hit.
  - destruct (Hstage _ _ _ _ E2 Hc) as (it & Hit & Hmade).
    exists it. split; [|exact Hmade]. apply Array_sort_In.
    apply in_or_app. right. apply in_or_app. left. exact Hit.
  - destruct (Hstage _ _ _ _ E3 Hc) as (it & Hit & Hmade).
    exists it. split; [|exact Hmade]. apply Array_sort_In.
    apply in_or_app. right. apply in_or_app. right. exact Hit.
Qed.

(** The fields an assembled itinerary takes over from its candidate. *)
Lemma assembledFrom_fields c it :
  assembledFrom c it ->
  layovers it = toLayovers (cand_segments c) /\
  totalDuration it = cand_totalDuration c /\
  totalPrice it = cand_totalPrice c /\
  stops it = (Z.of_nat (length (cand_segments c)) - 1)%Z /\
  Forall2 (fun (f : FlightWithMetadata) s =>
             seg_origin s = origin f /\ seg_destination s = destination f /\
             seg_duration s = durationMinutes f /\ seg_price s = price f /\
             seg_originCity s = city (originAirport f) /\
             seg_originCountry s = country (originAirport f) /\
             seg_destinationCity s = city (destinationAirport f) /\
             seg_destinationCountry s = country (destinationAirport f))
          (cand_segments c) (segments it).
Proof.
  intros (w & w' & E). unfold candidateToItinerary, bind in E.
  destruct (mapST toSegment (cand_segments c) w) as [[segs|e] w1] eqn:E1;
    [|discriminate].
  cbv [uuidv4 ret] in E. inversion E; subst. simpl.
  repeat split. apply mapST_Ok_Forall2 in E1.
  eapply Forall2_impl; [exact E1|].
  intros f s (v & v' & Hs). unfold toSegment, bind, utcToLocalTimeST in Hs.
  destruct (utcToLocalTime (departureDateUTC f) _); cbv [ret throw] in Hs;
    [|discriminate].
  destruct (utcToLocalTime (arrivalDateUTC f) _); cbv [ret throw] in Hs;
    [|discriminate].
  inversion Hs; subst. simpl. auto 10.
Qed.
End Stages.

Section Cases.
Context `{DateLibrary}.

Lemma toSegment_segmentOf f w s w' : toSegment f w = (Ok s, w') -> segmentOf f s.
Proof.
  unfold toSegment, bind, utcToLocalTimeST. intros Hs.
  destruct (utcToLocalTime (departureDateUTC f) _); cbv [ret throw] in Hs;
    [|discriminate].
  destruct (utcToLocalTime (arrivalDateUTC f) _); cbv [ret throw] in Hs;
    [|discriminate].
  inversion Hs; subst. unfold segmentOf. simpl. auto 10.
Qed.

Lemma assembledFrom_segments c it :
  assembledFrom c it -> Forall2 segmentOf (cand_segments c) (segments it).
Proof.
  intros Hmade. apply assembledFrom_inv in Hmade as (_ & _ & Hall).
  eapply Forall2_impl; [exact Hall|].
  intros f s (v & v' & Hs). eapply toSegment_segmentOf; eauto.
Qed.

(** The three forms a returned itinerary can have. *)
Lemma itinerary_cases p w r w' it :
  search p w = (Ok r, w') -> In it (itineraries r) ->
  (exists (f : FlightWithMetadata) s,
      In f (getFlightsByOriginAndDate (dataLoader w) (sp_origin p) (sp_date p)) /\
      destination f = sp_destination p /\
      segmentOf f s /\ segments it = [s] /\ layovers it = [] /\
      totalDuration it = durationMinutes f /\ totalPrice it = price f /\
      stops it = 0%Z)
  \/
  (exists (f1 f2 : FlightWithMetadata) s1 s2,
      In f1 (getFlightsByOriginAndDate (dataLoader w) (sp_origin p) (sp_date p)) /\
      destination f1 <> sp_destination p /\
      In f2 (getFlightsDepartingFrom (dataLoader w) (destination f1)) /\
      destination f2 = sp_destination p /\
      canConnect f1 f2
        (calculateLayoverDuration (arrivalDateUTC f1) (departureDateUTC f2))
      = true /\
      segmentOf f1 s1 /\ segmentOf f2 s2 /\ segments it = [s1; s2] /\
      layovers it = toLayovers [f1; f2] /\
      totalDuration it
      = num_add (num_add (durationMinutes f1)
                   (calculateLayoverDuration (arrivalDateUTC f1)
                      (departureDateUTC f2)))
                (durationMinutes f2) /\
      totalPrice it = (price f1 + price f2)%float /\
      stops it = 1%Z)
  \/
  (exists (f1 f2 f3 : FlightWithMetadata) s1 s2 s3,
      In f1 (getFlightsByOriginAndDate (dataLoader w) (sp_origin p) (sp_date p)) /\
      destination f1 <> sp_destination p /\
      In f2 (getFlightsDepartingFrom (dataLoader w) (destination f1)) /\
      destination f2 <> sp_destination p /\
      destination f2 <> sp_origin p /\
      canConnect f1 f2
        (calculateLayoverDuration (arrivalDateUTC f1) (departureDateUTC f2))
      = true /\
      In f3 (getFlightsDepartingFrom (dataLoader w) (destination f2)) /\
      destination f3 = sp_destination p /\
      canConnect f2 f3
        (calculateLayoverDuration (arrivalDateUTC f2) (departureDateUTC f3))
      = true /\
      segmentOf f1 s1 /\ segmentOf f2 s2 /\ segmentOf f3 s3 /\
      segments it = [s1; s2; s3] /\
      layovers it = toLayovers [f1; f2; f3] /\
      totalDuration it
      = num_add (num_add (num_add (num_add (durationMinutes f1)
          (calculateLayoverDuration (arrivalDateUTC f1) (departureDateUTC f2)))
          (durationMinutes f2))
          (calculateLayoverDuration (arrivalDateUTC f2) (departureDateUTC f3)))
          (durationMinutes f3) /\
      totalPrice it = (price f1 + price f2 + price f3)%float /\
      stops it = 2%Z).
Proof.
  intros E Hin.
  destruct (search_itinerary_stage _ _ _ _ _ E Hin) as (c & Hmade & Hc).
  pose proof (assembledFrom_segments _ _ Hmade) as Hsegs.
  apply assembledFrom_fields in Hmade as (Hlay & Hdur & Hprice & Hstops & _).
  remember (segments it) as segs eqn:Hs.
  destruct Hc as [Hc|[Hc|Hc]].
  - apply findDirectFlights_In in Hc as (f & Hf & Hd & ->). simpl in *.
    inversion Hsegs as [|? s ? ? Hfs Hrest]; subst. inversion Hrest; subst.
    left. exists f, s. auto 10.
  - apply findOneStopConnections_In in Hc
      as (f1 & f2 & Hf1 & Hd1 & Hf2 & Hd2 & Hconn & ->). simpl in *.
    inversion Hsegs as [|? s1 ? ? Hs1 Hrest]; subst.
    inversion Hrest as [|? s2 ? ? Hs2 Hrest']; subst. inversion Hrest'; subst.
    right. left. exists f1, f2, s1, s2. auto 15.
  - apply findTwoStopConnections_In in Hc
      as (f1 & f2 & f3 & Hf1 & Hd1 & Hf2 & Hd2 & Ho2 & Hconn1 & Hf3 & Hd3
          & Hconn2 & ->). simpl in *.
    inversion Hsegs as [|? s1 ? ? Hs1 Hrest]; subst.
    inversion Hrest as [|? s2 ? ? Hs2 Hrest']; subst.
    inversion Hrest' as [|? s3 ? ? Hs3 Hrest'']; subst. inversion Hrest''; subst.
    right. right. exists f1, f2, f3, s1, s2, s3. auto 20.
Qed.
End Cases.

(** ** The shape of a returned itinerary *)

Section Shape.
Context `{DateLibrary}.

(** X1. Every itinerary of a response has one to three segments, the
    first leaving from the search origin and the last landing at the search
    destination. *)
Theorem itinerary_endpoints (p : SearchParams) (w w' : World)
    (r : SearchResponse) (it : Itinerary) :
  reachable (dataLoader w) ->
  search p w = (Ok r, w') ->
  In it (itineraries r) ->
  exists first rest,
    segments it = first :: rest /\
    (length rest <= 2)%nat /\
    seg_origin first = sp_origin p /\
    seg_destination (List.last rest first) = sp_destination p.
Proof.
  intros Hreach E Hin.
  destruct (itinerary_cases _ _ _ _ _ E Hin)
    as [(f & s & Hf & Hd & Hs & -> & _)
       |[(f1 & f2 & s1 & s2 & Hf & _ & _ & Hd & _ & Hs & Hs2 & -> & _)
        |(f1 & f2 & f3 & s1 & s2 & s3 & Hf & _ & _ & _ & _ & _ & _ & Hd & _
          & Hs & _ & Hs3 & -> & _)]].
  - exists s, []. simpl. destruct Hs as (_ & Ho & Hdest & _).
    repeat split; [lia| |congruence].
    rewrite Ho. eapply first_leg_leaves_origin; eauto.
  - exists s1, [s2]. simpl. destruct Hs as (_ & Ho & _).
    destruct Hs2 as (_ & _ & Hdest & _).
    repeat split; [lia| |congruence].
    rewrite Ho. eapply first_leg_leaves_origin; eauto.
  - exists s1, [s2; s3]. simpl. destruct Hs as (_ & Ho & _).
    destruct Hs3 as (_ & _ & Hdest & _).
    repeat split; [lia| |congruence].
    rewrite Ho. eapply first_leg_leaves_origin; eauto.
Qed.

(** X2. In every itinerary of a response the stop count is the number of
    segments less one, there is one layover per stop, and there are at most
    two stops. *)
Theorem itinerary_stop_counts (p : SearchParams) (w w' : World)
    (r : SearchResponse) (it : Itinerary) :
  search p w = (Ok r, w') ->
  In it (itineraries r) ->
  stops it = (Z.of_nat (length (segments it)) - 1)%Z /\
  Z.of_nat (length (layovers it)) = stops it /\
  (0 <= stops it <= 2)%Z.
Proof.
  intros E Hin.
  destruct (itinerary_cases _ _ _ _ _ E Hin)
    as [(f & s & _ & _ & _ & -> & -> & _ & _ & ->)
       |[(f1 & f2 & s1 & s2 & _ & _ & _ & _ & _ & _ & _ & -> & -> & _ & _ & ->)
        |(f1 & f2 & f3 & s1 & s2 & s3 & _ & _ & _ & _ & _ & _ & _ & _ & _
          & _ & _ & _ & -> & -> & _ & _ & ->)]];
    simpl; repeat split; lia.
Qed.

(** X3. The total duration of every returned itinerary is the sum of its
    segment durations plus the sum of its layover durations. *)
Theorem total_duration_is_sum (p : SearchParams) (w w' : World)
    (r : SearchResponse) (it : Itinerary) :
  search p w = (Ok r, w') ->
  In it (itineraries r) ->
  totalDuration it
  = num_add (sumNumbers (List.map seg_duration (segments it)))
            (sumNumbers (List.map lay_duration (layovers it))).
Proof.
  intros E Hin.
  destruct (itinerary_cases _ _ _ _ _ E Hin)
    as [(f & s & _ & _ & Hs & -> & -> & -> & _)
       |[(f1 & f2 & s1 & s2 & _ & _ & _ & _ & _ & Hs1 & Hs2 & -> & -> & -> & _)
        |(f1 & f2 & f3 & s1 & s2 & s3 & _ & _ & _ & _ & _ & _ & _ & _ & _
          & Hs1 & Hs2 & Hs3 & -> & -> & -> & _)]].
  - destruct Hs as (_ & _ & _ & Hd & _). unfold sumNumbers. simpl. rewrite Hd.
    destruct (durationMinutes f); simpl; [f_equal; lia | reflexivity].
  - destruct Hs1 as (_ & _ & _ & Hd1 & _). destruct Hs2 as (_ & _ & _ & Hd2 & _).
    unfold sumNumbers. simpl. rewrite Hd1, Hd2.
    destruct (durationMinutes f1), (durationMinutes f2),
      (calculateLayoverDuration (arrivalDateUTC f1) (departureDateUTC f2));
      simpl; try reflexivity. f_equal. lia.
  - destruct Hs1 as (_ & _ & _ & Hd1 & _). destruct Hs2 as (_ & _ & _ & Hd2 & _).
    destruct Hs3 as (_ & _ & _ & Hd3 & _).
    unfold sumNumbers. simpl. rewrite Hd1, Hd2, Hd3.
    destruct (durationMinutes f1), (durationMinutes f2), (durationMinutes f3),
      (calculateLayoverDuration (arrivalDateUTC f1) (departureDateUTC f2)),
      (calculateLayoverDuration (arrivalDateUTC f2) (departureDateUTC f3));
      simpl; try reflexivity. f_equal. lia.
Qed.

(** X4. The total price of every returned itinerary is the sum of its
    segment prices, added in segment order. *)
Theorem total_price_is_sum (p : SearchParams) (w w' : World)
    (r : SearchResponse) (it : Itinerary) :
  search p w = (Ok r, w') ->
  In it (itineraries r) ->
  sumPrices (List.map seg_price (segments it)) = Some (totalPrice it).
Proof.
  intros E Hin.
  destruct (itinerary_cases _ _ _ _ _ E Hin)
    as [(f & s & _ & _ & Hs & -> & _ & _ & -> & _)
       |[(f1 & f2 & s1 & s2 & _ & _ & _ & _ & _ & Hs1 & Hs2 & -> & _ & _ & -> & _)
        |(f1 & f2 & f3 & s1 & s2 & s3 & _ & _ & _ & _ & _ & _ & _ & _ & _
          & Hs1 & Hs2 & Hs3 & -> & _ & _ & -> & _)]].
  - destruct Hs as (_ & _ & _ & _ & Hp & _). simpl. rewrite Hp. reflexivity.
  - destruct Hs1 as (_ & _ & _ & _ & Hp1 & _).
    destruct Hs2 as (_ & _ & _ & _ & Hp2 & _). simpl. rewrite Hp1, Hp2.
    reflexivity.
  - destruct Hs1 as (_ & _ & _ & _ & Hp1 & _).
    destruct Hs2 as (_ & _ & _ & _ & Hp2 & _).
    destruct Hs3 as (_ & _ & _ & _ & Hp3 & _). simpl. rewrite Hp1, Hp2, Hp3.
    reflexivity.
Qed.

(** X5. No returned itinerary touches the search destination before its
    last segment. *)
Theorem no_stop_at_destination (p : SearchParams) (w w' : World)
    (r : SearchResponse) (it : Itinerary) (init : list FlightSegment)
    (final : FlightSegment) :
  search p w = (Ok r, w') ->
  In it (itineraries r) ->
  segments it = init ++ [final] ->
  Forall (fun s => seg_destination s <> sp_destination p) init.
Proof.
  intros E Hin Hsegs.
  destruct (itinerary_cases _ _ _ _ _ E Hin)
    as [(f & s & _ & _ & _ & Hs & _)
       |[(f1 & f2 & s1 & s2 & _ & Hd1 & _ & _ & _ & Hs1 & _ & Hs & _)
        |(f1 & f2 & f3 & s1 & s2 & s3 & _ & Hd1 & _ & Hd2 & _ & _ & _ & _ & _
          & Hs1 & Hs2 & _ & Hs & _)]];
    rewrite Hs in Hsegs.
  - destruct init as [|? [|? ?]]; inversion Hsegs. constructor.
  - destruct init as [|? [|? [|? ?]]]; inversion Hsegs; subst.
    destruct Hs1 as (_ & _ & Hdest1 & _).
    constructor; [rewrite Hdest1; exact Hd1 | constructor].
  - destruct init as [|? [|? [|? [|? ?]]]]; inversion Hsegs; subst.
    destruct Hs1 as (_ & _ & Hdest1 & _). destruct Hs2 as (_ & _ & Hdest2 & _).
    constructor; [rewrite Hdest1; exact Hd1|].
    constructor; [rewrite Hdest2; exact Hd2 | constructor].
Qed.
End Shape.

(** The sample search, as the hypotheses of the theorems above ask for it. *)
Ltac sample_reachable :=
  apply (reachable_load Sample.data newDataLoader (Ok tt));
  [apply reachable_new | vm_compute; reflexivity].

Ltac sample_search := vm_compute; reflexivity.

Lemma itinerary_endpoints_witness :
  exists first rest,
    segments Demo.twoStop = first :: rest /\
    (length rest <= 2)%nat /\
    seg_origin first = "JFK" /\
    seg_destination (List.last rest first) = "LAX".
Proof.
  apply (itinerary_endpoints Sample.march15 Demo.world
           (Sample.worldAfterSearch Sample.data) Demo.response Demo.twoStop).
  - sample_reachable.
  - sample_search.
  - vm_compute. right. right. left. reflexivity.
Defined.

Lemma itinerary_stop_counts_witness :
  stops Demo.twoStop = (Z.of_nat (length (segments Demo.twoStop)) - 1)%Z /\
  Z.of_nat (length (layovers Demo.twoStop)) = stops Demo.twoStop /\
  (0 <= stops Demo.twoStop <= 2)%Z.
Proof.
  apply (itinerary_stop_counts Sample.march15 Demo.world
           (Sample.worldAfterSearch Sample.data) Demo.response Demo.twoStop).
  - sample_search.
  - vm_compute. right. right. left. reflexivity.
Defined.

Lemma total_duration_is_sum_witness :
  totalDuration Demo.twoStop
  = num_add (sumNumbers (List.map seg_duration (segments Demo.twoStop)))
            (sumNumbers (List.map lay_duration (layovers Demo.twoStop))).
Proof.
  apply (total_duration_is_sum Sample.march15 Demo.world
           (Sample.worldAfterSearch Sample.data) Demo.response Demo.twoStop).
  - sample_search.
  - vm_compute. right. right. left. reflexivity.
Defined.

Lemma total_price_is_sum_witness :
  sumPrices (List.map seg_price (segments Demo.twoStop))
  = Some (totalPrice Demo.twoStop).
Proof.
  apply (total_price_is_sum Sample.march15 Demo.world
           (Sample.worldAfterSearch Sample.data) Demo.response Demo.twoStop).
  - sample_search.
  - vm_compute. right. right. left. reflexivity.
Defined.

Lemma no_stop_at_destination_witness :
  Forall (fun s => seg_destination s <> "LAX")
         (List.firstn 2 (segments Demo.twoStop)).
Proof.
  apply (no_stop_at_destination Sample.march15 Demo.world
           (Sample.worldAfterSearch Sample.data) Demo.response Demo.twoStop
           (List.firstn 2 (segments Demo.twoStop))
           (List.nth 2 (segments Demo.twoStop) Demo.noSegment)).
  - sample_search.
  - vm_compute. right. right. left. reflexivity.
  - vm_compute. reflexivity.
Defined.

(** ** How many itineraries, and which *)

Lemma NoDup_map_injective {A B} (f : A -> B) (l : list A) :
  (forall x y, f x = f y -> x = y) -> NoDup l -> NoDup (List.map f l).
Proof.
  intros Hinj. induction 1 as [|x l Hx _ IH]; simpl; constructor; [|exact IH].
  rewrite list_elem_of_In, in_map_iff. intros (y & Hy & Hin).
  apply Hinj in Hy. subst y. apply Hx. apply list_elem_of_In. exact Hin.
Qed.

Lemma map_seq_shift {B} (f g : nat -> B) (a b : nat) :
  (forall n, g n = f (a + n)%nat) ->
  List.map g (List.seq 0 b) = List.map f (List.seq a b).
Proof.
  intros Hg.
  assert (Hgen : forall k, List.map g (List.seq k b)
                           = List.map f (List.seq (a + k) b)).
  { induction b as [|b IH]; intros k; [reflexivity|].
    simpl. rewrite Hg. f_equal.
    rewrite IH. rewrite Nat.add_succ_r. reflexivity. }
  rewrite Hgen, Nat.add_0_r. reflexivity.
Qed.

Section Counting.
Context `{DateLibrary}.

Lemma convertToItineraries_length cs w its w' :
  convertToItineraries cs w = (Ok its, w') -> length its = length cs.
Proof.
  intros E. apply mapST_Ok_Forall2 in E. symmetry.
  eapply Forall2_length; eauto.
Qed.

(** X6. A response lists exactly one itinerary per candidate of the three
    stages, reports their number as [totalResults] and echoes the search
    parameters. *)
Theorem search_result_count (p : SearchParams) (w w' : World)
    (r : SearchResponse) :
  search p w = (Ok r, w') ->
  totalResults r = length (itineraries r) /\
  length (itineraries r)
  = (length (findDirectFlights (dataLoader w) (sp_origin p)
               (sp_destination p) (sp_date p))
     + length (findOneStopConnections (dataLoader w) (sp_origin p)
                 (sp_destination p) (sp_date p))
     + length (findTwoStopConnections (dataLoader w) (sp_origin p)
                 (sp_destination p) (sp_date p)))%nat /\
  searchParams r = p.
Proof.
  intros E.
  apply search_Ok_stages in E
    as (_ & direct & oneStop & twoStop & w1 & w2 & E1 & E2 & E3 & ->).
  simpl. rewrite Array_sort_length, !length_app.
  apply convertToItineraries_length in E1, E2, E3.
  repeat split. lia.
Qed.

(** X7. Every flight of the store that leaves the origin on the search
    date and lands at the destination is listed as a direct itinerary, with
    the flight's own duration and price as totals. *)
Theorem search_lists_every_direct_flight (p : SearchParams) (w w' : World)
    (r : SearchResponse) (f : FlightWithMetadata) :
  search p w = (Ok r, w') ->
  In f (getDirectFlights (dataLoader w) (sp_origin p) (sp_destination p)
          (sp_date p)) ->
  exists it s,
    In it (itineraries r) /\ segments it = [s] /\ segmentOf f s /\
    stops it = 0%Z /\ layovers it = [] /\
    totalDuration it = durationMinutes f /\ totalPrice it = price f.
Proof.
  intros E Hf.
  destruct (search_candidate_listed p w r w'
              (mkConnectionCandidate [f] (durationMinutes f) (price f)) E)
    as (it & Hit & Hmade).
  { left. unfold findDirectFlights. apply in_map_iff. exists f. auto. }
  pose proof (assembledFrom_segments _ _ Hmade) as Hsegs.
  apply assembledFrom_fields in Hmade as (Hlay & Hdur & Hprice & Hstops & _).
  simpl in *. remember (segments it) as segs eqn:Hs.
  inversion Hsegs as [|? s ? ? Hfs Hrest]; subst. inversion Hrest; subst.
  exists it, s. auto 10.
Qed.

(** X8. Every pair of stored flights that the one-stop stage can join --
    the first leaves the origin on the search date for another airport
    than the destination, the second leaves that airport for the
    destination, and [canConnect] accepts them -- is listed as a one-stop
    itinerary. *)
Theorem search_lists_every_one_stop_connection (p : SearchParams)
    (w w' : World) (r : SearchResponse) (f1 f2 : FlightWithMetadata) :
  search p w = (Ok r, w') ->
  In f1 (getFlightsByOriginAndDate (dataLoader w) (sp_origin p) (sp_date p)) ->
  destination f1 <> sp_destination p ->
  In f2 (getFlightsDepartingFrom (dataLoader w) (destination f1)) ->
  destination f2 = sp_destination p ->
  canConnect f1 f2
    (calculateLayoverDuration (arrivalDateUTC f1) (departureDateUTC f2)) = true ->
  exists it s1 s2,
    In it (itineraries r) /\ segments it = [s1; s2] /\
    segmentOf f1 s1 /\ segmentOf f2 s2 /\ stops it = 1%Z.
Proof.
  intros E Hf1 Hd1 Hf2 Hd2 Hconn.
  destruct (search_candidate_listed p w r w'
              (mkConnectionCandidate [f1; f2]
                 (num_add (num_add (durationMinutes f1)
                             (calculateLayoverDuration (arrivalDateUTC f1)
                                (departureDateUTC f2)))
                          (durationMinutes f2))
                 (price f1 + price f2)%float) E)
    as (it & Hit & Hmade).
  { right. left. apply findOneStopConnections_In. exists f1, f2. auto 10. }
  pose proof (assembledFrom_segments _ _ Hmade) as Hsegs.
  apply assembledFrom_fields in Hmade as (_ & _ & _ & Hstops & _).
  simpl in *. remember (segments it) as segs eqn:Hs.
  inversion Hsegs as [|? s1 ? ? Hs1 Hrest]; subst.
  inversion Hrest as [|? s2 ? ? Hs2 Hrest']; subst. inversion Hrest'; subst.
  exists it, s1, s2. auto 10.
Qed.

(** X9. Every triple of stored flights that the two-stop stage can join is
    listed as a two-stop itinerary: the first leaves the origin on the
    search date, neither of the first two lands at the destination, the
    second does not return to the origin, the third lands at the
    destination, and [canConnect] accepts both connections. *)
Theorem search_lists_every_two_stop_connection (p : SearchParams)
    (w w' : World) (r : SearchResponse) (f1 f2 f3 : FlightWithMetadata) :
  search p w = (Ok r, w') ->
  In f1 (getFlightsByOriginAndDate (dataLoader w) (sp_origin p) (sp_date p)) ->
  destination f1 <> sp_destination p ->
  In f2 (getFlightsDepartingFrom (dataLoader w) (destination f1)) ->
  destination f2 <> sp_destination p ->
  destination f2 <> sp_origin p ->
  canConnect f1 f2
    (calculateLayoverDuration (arrivalDateUTC f1) (departureDateUTC f2)) = true ->
  In f3 (getFlightsDepartingFrom (dataLoader w) (destination f2)) ->
  destination f3 = sp_destination p ->
  canConnect f2 f3
    (calculateLayoverDuration (arrivalDateUTC f2) (departureDateUTC f3)) = true ->
  exists it s1 s2 s3,
    In it (itineraries r) /\ segments it = [s1; s2; s3] /\
    segmentOf f1 s1 /\ segmentOf f2 s2 /\ segmentOf f3 s3 /\ stops it = 2%Z.
Proof.
  intros E Hf1 Hd1 Hf2 Hd2 Ho2 Hconn1 Hf3 Hd3 Hconn2.
  destruct (search_candidate_listed p w r w'
              (mkConnectionCandidate [f1; f2; f3]
                 (num_add (num_add (num_add (num_add (durationMinutes f1)
                    (calculateLayoverDuration (arrivalDateUTC f1)
                       (departureDateUTC f2)))
                    (durationMinutes f2))
                    (calculateLayoverDuration (arrivalDateUTC f2)
                       (departureDateUTC f3)))
                    (durationMinutes f3))
                 (price f1 + price f2 + price f3)%float) E)
    as (it & Hit & Hmade).
  { right. right. apply findTwoStopConnections_In. exists f1, f2, f3. auto 15. }
  pose proof (assembledFrom_segments _ _ Hmade) as Hsegs.
  apply assembledFrom_fields in Hmade as (_ & _ & _ & Hstops & _).
  simpl in *. remember (segments it) as segs eqn:Hs.
  inversion Hsegs as [|? s1 ? ? Hs1 Hrest]; subst.
  inversion Hrest as [|? s2 ? ? Hs2 Hrest']; subst.
  inversion Hrest' as [|? s3 ? ? Hs3 Hrest'']; subst. inversion Hrest''; subst.
  exists it, s1, s2, s3. auto 10.
Qed.

(** X10. When the parameters are valid and no stored flight leaves the
    origin on the search date, the search returns an empty list with
    [totalResults] 0, not an error, and draws no identifier. *)
Theorem search_without_departures (p : SearchParams) (w : World) :
  validateSearchParams (dataLoader w) p = Ok tt ->
  getFlightsByOriginAndDate (dataLoader w) (sp_origin p) (sp_date p) = [] ->
  search p w = (Ok (mkSearchResponse [] p 0), w).
Proof.
  intros Hv Hnone. unfold search. cbv [bind reads liftResult]. rewrite Hv.
  unfold findDirectFlights, getDirectFlights, findOneStopConnections,
    findTwoStopConnections.
  repeat (rewrite Hnone; cbn). reflexivity.
Qed.

(** X11. A search whose parameters are valid throws the RangeError of
    [format] as soon as one direct flight it would list has an invalid
    departure or arrival instant. *)
Theorem invalid_instant_fails_search (p : SearchParams) (w : World)
    (f : FlightWithMetadata) :
  validateSearchParams (dataLoader w) p = Ok tt ->
  In f (getDirectFlights (dataLoader w) (sp_origin p) (sp_destination p)
          (sp_date p)) ->
  departureDateUTC f = None \/ arrivalDateUTC f = None ->
  fst (search p w) = Throw RangeErrorInvalidTime.
Proof.
  intros Hv Hf Hbad. destruct (search p w) as [r w'] eqn:E. simpl.
  apply search_inv in E. cbv zeta in E.
  destruct E as [(e & Hv' & _)|(_ & r1 & w1 & E1 & Hrest)]; [congruence|].
  destruct r1 as [direct|e].
  - exfalso. apply mapST_Ok_Forall2 in E1.
    destruct (Forall2_In_l _ _ _
                (mkConnectionCandidate [f] (durationMinutes f) (price f)) E1)
      as (it & _ & Hmade).
    { unfold findDirectFlights. apply in_map_iff. exists f. auto. }
    apply assembledFrom_inv in Hmade as (_ & _ & Hall). simpl in Hall.
    inversion Hall as [|? s ? ? (v & v' & Hs) _]; subst.
    apply toSegment_Ok in Hs as (_ & _ & Hdep & Harr & _).
    apply utcToLocalTime_Some in Hdep as [dep Hdep].
    apply utcToLocalTime_Some in Harr as [arr Harr].
    destruct Hbad; congruence.
  - destruct Hrest as [-> _].
    apply convertToItineraries_Throw in E1. congruence.
Qed.

Lemma candidateToItinerary_id c w it w' :
  candidateToItinerary c w = (Ok it, w') ->
  id it = uuidSource w 0%nat /\
  forall n, uuidSource w' n = uuidSource w (S n).
Proof.
  unfold candidateToItinerary, bind. intros E.
  destruct (mapST toSegment (cand_segments c) w) as [[segs|e] w1] eqn:E1;
    [|discriminate].
  apply toSegments_state in E1. subst w1.
  cbv [uuidv4 ret] in E. inversion E; subst. simpl. auto.
Qed.

Lemma convertToItineraries_ids cs :
  forall w its w',
    convertToItineraries cs w = (Ok its, w') ->
    List.map id its = List.map (uuidSource w) (List.seq 0 (length its)) /\
    forall n, uuidSource w' n = uuidSource w (length its + n)%nat.
Proof.
  unfold convertToItineraries.
  induction cs as [|c cs IH]; intros w its w' E; simpl in E.
  - cbv [ret] in E. inversion E; subst. simpl. auto.
  - unfold bind in E.
    destruct (candidateToItinerary c w) as [[it|e] w1] eqn:Ec; [|discriminate].
    destruct (mapST candidateToItinerary cs w1) as [[its'|e] w2] eqn:Ecs;
      [|discriminate].
    cbv [ret] in E. inversion E; subst.
    apply candidateToItinerary_id in Ec as [Hid Hsrc].
    apply IH in Ecs as [Hids Hsrc']. simpl. split.
    + rewrite Hid, Hids. f_equal.
      apply (map_seq_shift (uuidSource w) (uuidSource w1) 1). exact Hsrc.
    + intros n. rewrite Hsrc', Hsrc. reflexivity.
Qed.

(** The identifiers of a response are the next values of the source. *)
Lemma search_ids p w r w' :
  search p w = (Ok r, w') ->
  Permutation (List.map id (itineraries r))
              (List.map (uuidSource w) (List.seq 0 (totalResults r))) /\
  (forall n, uuidSource w' n = uuidSource w (totalResults r + n)%nat).
Proof.
  intros E.
  apply search_Ok_stages in E
    as (_ & direct & oneStop & twoStop & w1 & w2 & E1 & E2 & E3 & ->).
  apply convertToItineraries_ids in E1 as [Hid1 Hsrc1].
  apply convertToItineraries_ids in E2 as [Hid2 Hsrc2].
  apply convertToItineraries_ids in E3 as [Hid3 Hsrc3].
  simpl. rewrite Array_sort_length, !length_app. split.
  - rewrite (Permutation_map id (Array_sort_Permutation byTotalDuration _)).
    rewrite !List.map_app, !seq_app, !List.map_app, Hid1, Hid2, Hid3.
    simpl.
    rewrite (map_seq_shift (uuidSource w) (uuidSource w1) (length direct)
               (length oneStop) Hsrc1).
    rewrite (map_seq_shift (uuidSource w) (uuidSource w2)
               (length direct + length oneStop) (length twoStop)).
    + reflexivity.
    + intros n. rewrite Hsrc2, Hsrc1. f_equal. lia.
  - intros n. rewrite Hsrc3, Hsrc2, Hsrc1. f_equal. lia.
Qed.

(** X12. A search that returns draws exactly one identifier per itinerary:
    the identifiers of the response are the next [totalResults] values of
    the random source, the source is left advanced by that many, and if the
    source never repeats a value no two itineraries share an identifier. *)
Theorem search_draws_identifiers (p : SearchParams) (w w' : World)
    (r : SearchResponse) :
  search p w = (Ok r, w') ->
  Permutation (List.map id (itineraries r))
              (List.map (uuidSource w) (List.seq 0 (totalResults r))) /\
  (forall n, uuidSource w' n = uuidSource w (totalResults r + n)%nat) /\
  ((forall i j, uuidSource w i = uuidSource w j -> i = j) ->
   NoDup (List.map id (itineraries r))).
Proof.
  intros E. destruct (search_ids _ _ _ _ E) as [Hperm Hsrc].
  split; [exact Hperm|]. split; [exact Hsrc|].
  intros Hinj. rewrite Hperm.
  apply NoDup_map_injective; [exact Hinj | apply NoDup_seq].
Qed.

(** C9, as the code has it. Two searches with the same parameters on the
    same store return the same response up to the identifiers of the
    itineraries, and neither changes the store.  Each call draws one
    identifier per itinerary from the source, in sequence; so when the
    second call draws from the source after the first and the source never
    repeats a value, no identifier of the first response occurs in the
    second. *)
Theorem search_repeatable_up_to_ids (p : SearchParams) (w1 w2 : World) :
  dataLoader w1 = dataLoader w2 ->
  withoutIds (fst (search p w1)) = withoutIds (fst (search p w2)) /\
  dataLoader (snd (search p w1)) = dataLoader w1 /\
  dataLoader (snd (search p w2)) = dataLoader w2 /\
  forall r1 w1' r2 w2',
    search p w1 = (Ok r1, w1') -> search p w2 = (Ok r2, w2') ->
    Permutation (List.map id (itineraries r1))
                (List.map (uuidSource w1) (List.seq 0 (totalResults r1))) /\
    Permutation (List.map id (itineraries r2))
                (List.map (uuidSource w2) (List.seq 0 (totalResults r2))) /\
    (forall n, uuidSource w1' n = uuidSource w1 (totalResults r1 + n)%nat) /\
    forall k,
      (totalResults r1 <= k)%nat ->
      (forall n, uuidSource w2 n = uuidSource w1 (k + n)%nat) ->
      (forall i j, uuidSource w1 i = uuidSource w1 j -> i = j) ->
      forall x, In x (List.map id (itineraries r1)) ->
                ~ In x (List.map id (itineraries r2)).
Proof.
  intros Hstore.
  destruct (search_same_up_to_ids p w1 w2 Hstore) as (Hsame & Hl1 & Hl2).
  split; [exact Hsame|]. split; [exact Hl1|]. split; [exact Hl2|].
  intros r1 w1' r2 w2' E1 E2.
  destruct (search_ids _ _ _ _ E1) as [Hp1 Hsrc1].
  destruct (search_ids _ _ _ _ E2) as [Hp2 _].
  split; [exact Hp1|]. split; [exact Hp2|]. split; [exact Hsrc1|].
  intros k Hk Hlater Hinj x Hx1 Hx2.
  apply (Permutation_in _ Hp1) in Hx1. apply (Permutation_in _ Hp2) in Hx2.
  apply in_map_iff in Hx1 as (i & Hi & Hin1).
  apply in_map_iff in Hx2 as (j & Hj & Hin2).
  apply in_seq in Hin1, Hin2.
  rewrite Hlater in Hj. rewrite <- Hj in Hi. apply Hinj in Hi. lia.
Qed.
End Counting.

Lemma search_repeatable_up_to_ids_witness :
  withoutIds (fst (search Sample.march15 (Sample.worldAfter Sample.data)))
  = withoutIds (fst (search Sample.march15 (Sample.worldAfterSearch Sample.data)))
  /\
  forall x,
    In x (List.map id (itineraries Demo.response)) ->
    ~ In x (List.map id (itineraries Demo.secondResponse)).
Proof.
  destruct (search_repeatable_up_to_ids Sample.march15
              (Sample.worldAfter Sample.data)
              (Sample.worldAfterSearch Sample.data))
    as (Hsame & _ & _ & Hids).
  - vm_compute. reflexivity.
  - split; [exact Hsame|].
    destruct (Hids Demo.response (Sample.worldAfterSearch Sample.data)
                Demo.secondResponse
                (snd (search Sample.march15
                        (Sample.worldAfterSearch Sample.data))))
      as (_ & _ & _ & Hfresh).
    + vm_compute. reflexivity.
    + vm_compute. reflexivity.
    + apply (Hfresh 3%nat).
      * vm_compute. lia.
      * intros n. reflexivity.
      * intros i j Hij. apply (inj pretty) in Hij. exact Hij.
Defined.

Lemma search_result_count_witness :
  totalResults Demo.response = length (itineraries Demo.response) /\
  length (itineraries Demo.response)
  = (length (findDirectFlights (dataLoader Demo.world) "JFK" "LAX" "2024-03-15")
     + length (findOneStopConnections (dataLoader Demo.world) "JFK" "LAX"
                 "2024-03-15")
     + length (findTwoStopConnections (dataLoader Demo.world) "JFK" "LAX"
                 "2024-03-15"))%nat /\
  searchParams Demo.response = Sample.march15.
Proof.
  apply (search_result_count Sample.march15 Demo.world
           (Sample.worldAfterSearch Sample.data) Demo.response).
  sample_search.
Defined.

Lemma search_lists_every_direct_flight_witness :
  exists it s,
    In it (itineraries Demo.response) /\ segments it = [s] /\
    segmentOf (Demo.departing "JFK" 0) s /\
    stops it = 0%Z /\ layovers it = [] /\
    totalDuration it = durationMinutes (Demo.departing "JFK" 0) /\
    totalPrice it = price (Demo.departing "JFK" 0).
Proof.
  apply (search_lists_every_direct_flight Sample.march15 Demo.world
           (Sample.worldAfterSearch Sample.data) Demo.response
           (Demo.departing "JFK" 0)).
  - sample_search.
  - vm_compute. left. reflexivity.
Defined.

Lemma search_lists_every_one_stop_connection_witness :
  exists it s1 s2,
    In it (itineraries Demo.response) /\ segments it = [s1; s2] /\
    segmentOf (Demo.departing "JFK" 1) s1 /\
    segmentOf (Demo.departing "ORD" 0) s2 /\ stops it = 1%Z.
Proof.
  apply (search_lists_every_one_stop_connection Sample.march15 Demo.world
           (Sample.worldAfterSearch Sample.data) Demo.response
           (Demo.departing "JFK" 1) (Demo.departing "ORD" 0)).
  - sample_search.
  - vm_compute. right. left. reflexivity.
  - vm_compute. discriminate.
  - vm_compute. left. reflexivity.
  - vm_compute. reflexivity.
  - vm_compute. reflexivity.
Defined.

Lemma search_lists_every_two_stop_connection_witness :
  exists it s1 s2 s3,
    In it (itineraries Demo.response) /\ segments it = [s1; s2; s3] /\
    segmentOf (Demo.departing "JFK" 1) s1 /\
    segmentOf (Demo.departing "ORD" 1) s2 /\
    segmentOf (Demo.departing "SFO" 0) s3 /\ stops it = 2%Z.
Proof.
  apply (search_lists_every_two_stop_connection Sample.march15 Demo.world
           (Sample.worldAfterSearch Sample.data) Demo.response
           (Demo.departing "JFK" 1) (Demo.departing "ORD" 1)
           (Demo.departing "SFO" 0)).
  - sample_search.
  - vm_compute. right. left. reflexivity.
  - vm_compute. discriminate.
  - vm_compute. right. left. reflexivity.
  - vm_compute. discriminate.
  - vm_compute. discriminate.
  - vm_compute. reflexivity.
  - vm_compute. left. reflexivity.
  - vm_compute. reflexivity.
  - vm_compute. reflexivity.
Defined.

Lemma search_without_departures_witness :
  search (Sample.JFKtoLAX "2024-03-16") Demo.world
  = (Ok (mkSearchResponse [] (Sample.JFKtoLAX "2024-03-16") 0), Demo.world).
Proof.
  apply (search_without_departures (Sample.JFKtoLAX "2024-03-16") Demo.world).
  - vm_compute. reflexivity.
  - vm_compute. reflexivity.
Defined.

Lemma invalid_instant_fails_search_witness :
  fst (search (mkSearchParams "JFK" "XXA" "2024-03-15")
         Demo.worldWithUnknownZone)
  = Throw RangeErrorInvalidTime.
Proof.
  apply (invalid_instant_fails_search (mkSearchParams "JFK" "XXA" "2024-03-15")
           Demo.worldWithUnknownZone
           (nth 0 (getFlightsDepartingFrom
                     (dataLoader Demo.worldWithUnknownZone) "JFK")
                Demo.noFlight)).
  - vm_compute. reflexivity.
  - vm_compute. left. reflexivity.
  - right. vm_compute. reflexivity.
Defined.

Lemma search_draws_identifiers_witness :
  Permutation (List.map id (itineraries Demo.response))
              (List.map Sample.numerals (List.seq 0 (totalResults Demo.response))).
Proof.
  apply (search_draws_identifiers Sample.march15 Demo.world
           (Sample.worldAfterSearch Sample.data) Demo.response).
  sample_search.
Defined.

(** * Further properties of the connection rules *)

Lemma canConnect_floor_iff a b :
  canConnect a b
    (num_floor_div
       (num_sub (getTime (departureDateUTC b)) (getTime (arrivalDateUTC a)))
       (1000 * 60)) = true
  <-> validConnection a b.
Proof.
  unfold validConnection, connects, canConnect, getMinimumLayover,
    isValidLayoverDuration, getTime, date_lt, date_leb.
  unfold LAYOVER_CONSTRAINTS.MIN_DOMESTIC, LAYOVER_CONSTRAINTS.MIN_INTERNATIONAL,
    LAYOVER_CONSTRAINTS.MAX.
  change (1000 * 60)%Z with 60000%Z.
  destruct (String.eqb (destination a) (origin b)) eqn:Hair; simpl.
  - apply String.eqb_eq in Hair.
    destruct (departureDateUTC b) as [dep|], (arrivalDateUTC a) as [arr|];
      simpl.
    + destruct (dep <=? arr)%Z eqn:Hlate.
      * apply Z.leb_le in Hlate. split; [discriminate|].
        intros [[_ Hlt] _]. lia.
      * apply Z.leb_gt in Hlate. rewrite andb_true_iff, !Z.leb_le. split.
        -- intros Hwin. split; [auto|]. exists arr, dep. auto.
        -- intros (_ & arr' & dep' & Ha & Hd & Hwin).
           inversion Ha; inversion Hd; subst. exact Hwin.
    + split; [discriminate | intros [[_ []] _]].
    + split; [discriminate | intros [[_ []] _]].
    + split; [discriminate | intros [[_ []] _]].
  - apply String.eqb_neq in Hair. split; [discriminate|].
    intros [[Heq _] _]. contradiction.
Qed.

Lemma everyConnectionValid_adjacent (l : list FlightWithMetadata) :
  everyConnectionValid l = true <-> adjacent validConnection l.
Proof.
  induction l as [|a l IH]; [simpl; tauto|].
  destruct l as [|b l]; [simpl; tauto|].
  cbn [everyConnectionValid adjacent].
  rewrite <- IH, <- canConnect_floor_iff.
  destruct (canConnect a b _); simpl; [tauto|].
  split; [discriminate | intros [Hf _]; discriminate].
Qed.

Lemma isValidItinerary_of_adjacent (segments : list FlightWithMetadata) :
  segments <> [] -> adjacent validConnection segments ->
  isValidItinerary segments = true.
Proof.
  destruct segments as [|a [|b l]]; intros Hne Hadj.
  - contradiction.
  - reflexivity.
  - change (isValidItinerary (a :: b :: l))
      with (everyConnectionValid (a :: b :: l)).
    apply everyConnectionValid_adjacent. exact Hadj.
Qed.

(** X13. [isValidItinerary] accepts a path exactly when it is not empty
    and every pair of neighbouring legs meets at one airport, the later leg
    leaving strictly after the earlier one has arrived, with the whole
    minutes in between no fewer than [getMinimumLayover] of the pair and no
    more than 360. *)
Theorem isValidItinerary_iff (segments : list FlightWithMetadata) :
  isValidItinerary segments = true
  <-> segments <> [] /\ adjacent validConnection segments.
Proof.
  destruct segments as [|a [|b l]].
  - simpl. split; [discriminate | intros [Hne _]; contradiction].
  - simpl. split; [intros _; split; [discriminate | exact I] | reflexivity].
  - change (isValidItinerary (a :: b :: l))
      with (everyConnectionValid (a :: b :: l)).
    rewrite everyConnectionValid_adjacent.
    split; [intros Hadj; split; [discriminate | exact Hadj]|].
    intros [_ Hadj]. exact Hadj.
Qed.

Lemma canConnect_layover_floor a b :
  canConnect a b
    (calculateLayoverDuration (arrivalDateUTC a) (departureDateUTC b)) = true ->
  validConnection a b.
Proof.
  intros Hc. apply canConnect_floor_iff.
  pose proof (canConnect_connects _ _ Hc) as [_ Hlt].
  unfold date_lt in Hlt.
  destruct (arrivalDateUTC a) as [arr|] eqn:Ha; [|contradiction].
  destruct (departureDateUTC b) as [dep|] eqn:Hd; [|contradiction].
  unfold canConnect in *. rewrite Ha, Hd in *.
  unfold calculateLayoverDuration, differenceInMinutes in Hc.
  unfold getTime, num_sub, num_floor_div.
  change (1000 * 60)%Z with 60000%Z.
  rewrite Z.quot_div_nonneg in Hc by lia. exact Hc.
Qed.

Section ValidResults.
Context `{DateLibrary}.

(** X14. The legs of every itinerary a search returns form a path that
    [isValidItinerary] accepts. *)
Theorem search_results_are_valid_itineraries (p : SearchParams)
    (w w' : World) (r : SearchResponse) (it : Itinerary) :
  search p w = (Ok r, w') ->
  In it (itineraries r) ->
  exists candidate,
    assembledFrom candidate it /\
    isValidItinerary (cand_segments candidate) = true.
Proof.
  intros E Hin.
  destruct (search_itinerary_stage _ _ _ _ _ E Hin) as (c & Hmade & Hc).
  exists c. split; [exact Hmade|].
  destruct Hc as [Hc|[Hc|Hc]].
  - apply findDirectFlights_In in Hc as (f & _ & _ & ->). reflexivity.
  - apply findOneStopConnections_In in Hc
      as (f1 & f2 & _ & _ & _ & _ & Hconn & ->).
    apply isValidItinerary_of_adjacent; [discriminate|]. simpl.
    split; [|exact I].
    apply canConnect_layover_floor. exact Hconn.
  - apply findTwoStopConnections_In in Hc
      as (f1 & f2 & f3 & _ & _ & _ & _ & _ & Hconn1 & _ & _ & Hconn2 & ->).
    apply isValidItinerary_of_adjacent; [discriminate|]. simpl.
    repeat split; try exact I; apply canConnect_layover_floor; assumption.
Qed.
End ValidResults.

Lemma search_results_are_valid_itineraries_witness :
  exists candidate,
    assembledFrom candidate Demo.twoStop /\
    isValidItinerary (cand_segments candidate) = true.
Proof.
  apply (search_results_are_valid_itineraries Sample.march15 Demo.world
           (Sample.worldAfterSearch Sample.data) Demo.response Demo.twoStop).
  - sample_search.
  - vm_compute. right. right. left. reflexivity.
Defined.

(** * Further properties of the loader *)

Lemma foldl_indexFlight_empty (key : FlightWithMetadata -> string)
    (fs : list FlightWithMetadata) (k : string) :
  default [] (foldl (indexFlight key) ∅ fs !! k)
  = List.filter (fun f => String.eqb (key f) k) fs.
Proof.
  rewrite foldl_indexFlight_lookup, lookup_empty.
  destruct (List.filter _ fs); reflexivity.
Qed.

Lemma foldl_airports_snoc (l : list Airport) (a : Airport)
    (m : gmap string Airport) :
  foldl (fun m airport => <[code airport := airport]> m) m (l ++ [a])
  = <[code a := a]> (foldl (fun m airport => <[code airport := airport]> m) m l).
Proof. rewrite foldl_app. reflexivity. Qed.

(** The airport table after the airports of a file have been set into it. *)
Lemma foldl_airports_lookup (l : list Airport) (m : gmap string Airport) :
  (forall a, In a l ->
     exists a', foldl (fun m airport => <[code airport := airport]> m) m l
                !! code a = Some a' /\ code a' = code a /\ In a' l)
  /\ (forall k, (forall a, In a l -> code a <> k) ->
        foldl (fun m airport => <[code airport := airport]> m) m l !! k = m !! k).
Proof.
  induction l as [|b l [IHin IHout]] using rev_ind.
  - split; [intros a []|reflexivity].
  - split.
    + intros a Hin. rewrite foldl_airports_snoc.
      destruct (decide (code b = code a)) as [Heq|Hne].
      * exists b. split; [rewrite <- Heq; apply lookup_insert_eq|].
        split; [exact Heq|]. apply in_or_app. right. left. reflexivity.
      * rewrite lookup_insert_ne by exact Hne.
        apply in_app_or in Hin as [Hin|[->|[]]]; [|contradiction].
        destruct (IHin a Hin) as (a' & Hlook & Hcode & Hin').
        exists a'. split; [exact Hlook|]. split; [exact Hcode|].
        apply in_or_app. left. exact Hin'.
    + intros k Hk. rewrite foldl_airports_snoc.
      rewrite lookup_insert_ne.
      * apply IHout. intros a Hin. apply Hk. apply in_or_app. left. exact Hin.
      * apply Hk. apply in_or_app. right. left. reflexivity.
Qed.

Section LoaderLookups.
Context `{DateLibrary}.

Lemma getFlightsDepartingFrom_after_load (data : FlightData)
    (this : DataLoader) :
  loadData data newDataLoader = (Ok tt, this) ->
  forall airport,
    getFlightsDepartingFrom this airport
    = List.filter (fun f : FlightWithMetadata => String.eqb (origin f) airport)
        (flightsWithMetadata this).
Proof.
  intros E airport. apply loadData_inv in E. cbv zeta in E.
  destruct E as [(e & f & _ & _ & He & _)|(enriched & _ & _ & ->)];
    [discriminate|].
  unfold getFlightsDepartingFrom. simpl. apply foldl_indexFlight_empty.
Qed.

(** X15. After a first, successful load, looking up an airport in the
    origin index or in the destination index returns exactly the stored
    flights that leave from it, or land at it, in the order of the file. *)
Theorem index_lookups_after_load (data : FlightData) (this : DataLoader) :
  loadData data newDataLoader = (Ok tt, this) ->
  (forall airport,
      getFlightsDepartingFrom this airport
      = List.filter (fun f : FlightWithMetadata => String.eqb (origin f) airport)
          (flightsWithMetadata this)) /\
  (forall airport,
      getFlightsArrivingAt this airport
      = List.filter (fun f : FlightWithMetadata =>
                       String.eqb (destination f) airport)
          (flightsWithMetadata this)) /\
  (forall airport,
      getFlightsByDestination this airport = getFlightsArrivingAt this airport).
Proof.
  intros E. apply loadData_inv in E. cbv zeta in E.
  destruct E as [(e & f & _ & _ & He & _)|(enriched & _ & _ & ->)];
    [discriminate|].
  unfold getFlightsDepartingFrom, getFlightsArrivingAt, getFlightsByDestination.
  simpl. repeat split; intros airport; try reflexivity;
    apply foldl_indexFlight_empty.
Qed.

(** X16. After a first, successful load, [getDirectFlights] returns
    exactly the stored flights with the asked origin, the asked destination
    and the asked date before the [T] of their local departure time, in the
    order of the file. *)
Theorem getDirectFlights_after_load (data : FlightData) (this : DataLoader)
    (o d date : string) :
  loadData data newDataLoader = (Ok tt, this) ->
  getDirectFlights this o d date
  = List.filter (fun f : FlightWithMetadata =>
                   String.eqb (origin f) o
                   && String.eqb (splitT0 (departureTime f)) date
                   && String.eqb (destination f) d)
      (flightsWithMetadata this).
Proof.
  intros E. pose proof (getFlightsDepartingFrom_after_load _ _ E) as Hdep.
  unfold getDirectFlights, getFlightsByOriginAndDate.
  fold (getFlightsDepartingFrom this o). rewrite Hdep. clear Hdep E.
  induction (flightsWithMetadata this) as [|f l IH]; [reflexivity|].
  simpl. destruct (String.eqb (origin f) o); simpl; [|exact IH].
  destruct (String.eqb (splitT0 (departureTime f)) date); simpl; [|exact IH].
  destruct (String.eqb (destination f) d); simpl; [f_equal|]; exact IH.
Qed.

(** X17. Whether [loadData] returns or throws, afterwards every airport of
    the file is found under its code, as an airport of the file with that
    code, and a code the file does not use answers as before the call. *)
Theorem airports_found_after_load (data : FlightData) (this this' : DataLoader)
    (r : Result unit) :
  loadData data this = (r, this') ->
  (forall a, In a (airports data) ->
     exists a', getAirport this' (code a) = Some a' /\
                code a' = code a /\ In a' (airports data)) /\
  (forall k, (forall a, In a (airports data) -> code a <> k) ->
     getAirport this' k = getAirport this k).
Proof.
  intros E. apply loadData_inv in E. cbv zeta in E.
  assert (Htable : airportMap this'
                   = foldl (fun m airport => <[code airport := airport]> m)
                       (airportMap this) (airports data))
    by (destruct E as [(e & f & _ & _ & _ & ->)|(enriched & _ & _ & ->)];
        reflexivity).
  unfold getAirport. rewrite Htable. apply foldl_airports_lookup.
Qed.

Lemma enrichFlightWithMetadata_error this f e :
  enrichFlightWithMetadata this f = Throw e ->
  e = MissingAirportData (flightNumber f) (origin f) (destination f).
Proof.
  unfold enrichFlightWithMetadata.
  destruct (airportMap this !! origin f); [|congruence].
  destruct (airportMap this !! destination f); congruence.
Qed.

(** A load of parsed data that throws. *)
Lemma loadData_Throw_inv (data : FlightData) (this this' : DataLoader)
    (e : Error) :
  loadData data this = (Throw e, this') ->
  (exists f : Flight,
      In f (flights data) /\
      e = FailedToLoad
            (MissingAirportData (flightNumber f) (origin f) (destination f)) /\
      (getAirport this' (origin f) = None \/
       getAirport this' (destination f) = None)) /\
  isDataLoaded this' = true /\
  flightsWithMetadata this' = flightsWithMetadata this /\
  flightsByOrigin this' = flightsByOrigin this /\
  flightsByDestination this' = flightsByDestination this /\
  flightsByDate this' = flightsByDate this.
Proof.
  intros E. apply loadData_inv in E. cbv zeta in E.
  destruct E as [(e0 & f & Hin & Hf & He & ->)|(enriched & _ & He & _)];
    [|discriminate].
  inversion He; subst e. split; [|simpl; auto 10].
  exists f. split; [exact Hin|]. split.
  - f_equal. eapply enrichFlightWithMetadata_error; eauto.
  - apply enrichFlightWithMetadata_Throw in Hf. exact Hf.
Qed.

(** X18. When [loadData(filePath)] throws, the list of enriched flights
    and the three indices are as they were before the call.  Either the
    file could not be read or parsed, and then the loader is unchanged
    altogether; or the file was parsed, the error names a flight of the file
    one of whose airports is not in the table, and the loader reports its
    data as loaded. *)
Theorem failed_load_keeps_indices (fs : FileSystem) (filePath : string)
    (this this' : DataLoader) (e : LoadError) :
  loadDataFile fs filePath this = (inr e, this') ->
  flightsWithMetadata this' = flightsWithMetadata this /\
  flightsByOrigin this' = flightsByOrigin this /\
  flightsByDestination this' = flightsByDestination this /\
  flightsByDate this' = flightsByDate this /\
  ((exists text, fs filePath = inr text /\ e = ReadFailed text /\ this' = this)
   \/
   (exists data (f : Flight),
       fs filePath = inl data /\ In f (flights data) /\
       e = IndexFailed
             (FailedToLoad
                (MissingAirportData (flightNumber f) (origin f)
                   (destination f))) /\
       (getAirport this' (origin f) = None \/
        getAirport this' (destination f) = None) /\
       isDataLoaded this' = true)).
Proof.
  unfold loadDataFile. intros E.
  destruct (fs filePath) as [data|text] eqn:Hfile.
  - destruct (loadData data this) as [[u|e0] this0] eqn:Hload; [discriminate|].
    inversion E; subst e this0.
    destruct (loadData_Throw_inv _ _ _ _ Hload)
      as ((f & Hin & He & Hmissing) & Hloaded & Hall & Ho & Hd & Hdate).
    repeat (split; [assumption|]).
    right. exists data, f. subst e0. auto 10.
  - inversion E; subst e this'. repeat (split; [reflexivity|]).
    left. exists text. auto.
Qed.
End LoaderLookups.

Lemma index_lookups_after_load_witness :
  getFlightsDepartingFrom (Sample.loaderAfter Sample.data) "ORD"
  = List.filter (fun f : FlightWithMetadata => String.eqb (origin f) "ORD")
      (flightsWithMetadata (Sample.loaderAfter Sample.data)).
Proof.
  destruct (index_lookups_after_load Sample.data (Sample.loaderAfter Sample.data))
    as [Hdeparting _].
  - vm_compute. reflexivity.
  - exact (Hdeparting "ORD").
Defined.

Lemma getDirectFlights_after_load_witness :
  getDirectFlights (Sample.loaderAfter Sample.data) "JFK" "LAX" "2024-03-15"
  = List.filter (fun f : FlightWithMetadata =>
                   String.eqb (origin f) "JFK"
                   && String.eqb (splitT0 (departureTime f)) "2024-03-15"
                   && String.eqb (destination f) "LAX")
      (flightsWithMetadata (Sample.loaderAfter Sample.data)).
Proof.
  apply (getDirectFlights_after_load Sample.data
           (Sample.loaderAfter Sample.data) "JFK" "LAX" "2024-03-15").
  vm_compute. reflexivity.
Defined.

Lemma airports_found_after_load_witness :
  exists a', getAirport (Sample.loaderAfter Demo.dataWithMissingAirport) "LAX"
             = Some a' /\
             code a' = "LAX" /\
             In a' (airports Demo.dataWithMissingAirport).
Proof.
  refine (proj1 (airports_found_after_load Demo.dataWithMissingAirport
                   newDataLoader
                   (Sample.loaderAfter Demo.dataWithMissingAirport)
                   (fst (loadData Demo.dataWithMissingAirport newDataLoader)) _)
            Sample.LAX _).
  - vm_compute. reflexivity.
  - vm_compute. right. left. reflexivity.
Defined.

Lemma failed_load_keeps_indices_witness :
  flightsWithMetadata (Sample.loaderAfter Demo.dataWithMissingAirport) = [] /\
  flightsByOrigin (Sample.loaderAfter Demo.dataWithMissingAirport) = ∅ /\
  isDataLoaded (Sample.loaderAfter Demo.dataWithMissingAirport) = true.
Proof.
  destruct (failed_load_keeps_indices Demo.files "/data/flights.json"
              newDataLoader (Sample.loaderAfter Demo.dataWithMissingAirport)
              (IndexFailed
                 (FailedToLoad (MissingAirportData "SP800" "JFK" "ZZZ"))))
    as (Hall & Horigin & _ & _ & Hcase).
  - vm_compute. reflexivity.
  - split; [exact Hall|]. split; [exact Horigin|].
    destruct Hcase as [(text & _ & Hread & _)|(data & f & _ & _ & _ & _ & Hloaded)];
      [discriminate | exact Hloaded].
Defined.

Section SegmentAirports.
Context `{DateLibrary}.

Lemma stored_flight_airports data this (fm : FlightWithMetadata) :
  loadData data newDataLoader = (Ok tt, this) ->
  In fm (flightsWithMetadata this) ->
  getAirport this (origin fm) = Some (originAirport fm) /\
  getAirport this (destination fm) = Some (destinationAirport fm).
Proof.
  intros E Hin. apply loadData_inv in E. cbv zeta in E.
  destruct E as [(e & f & _ & _ & He & _)|(enriched & Hall & _ & ->)];
    [discriminate|].
  simpl in Hin. unfold getAirport. simpl.
  destruct (Forall2_In_r _ _ _ _ Hall Hin) as (f & _ & Hf).
  apply enrichFlightWithMetadata_Ok in Hf as (Hfl & Ho & Hd & _).
  rewrite <- Hfl in Ho, Hd. auto.
Qed.

Lemma departing_leg_stored data this airport f :
  loadData data newDataLoader = (Ok tt, this) ->
  In f (getFlightsDepartingFrom this airport) ->
  In f (flightsWithMetadata this).
Proof.
  intros E Hin. rewrite (getFlightsDepartingFrom_after_load _ _ E) in Hin.
  apply filter_In in Hin as [Hin _]. exact Hin.
Qed.

Lemma first_leg_stored data this o date f :
  loadData data newDataLoader = (Ok tt, this) ->
  In f (getFlightsByOriginAndDate this o date) ->
  In f (flightsWithMetadata this).
Proof.
  intros E Hin. unfold getFlightsByOriginAndDate in Hin.
  apply filter_In in Hin as [Hin _].
  eapply departing_leg_stored; eauto.
Qed.

(** X19. Over a store filled by one successful load, the city and country
    shown with each end of every returned segment are those of the airport
    the table holds under that end's code. *)
Theorem segment_airports_from_table (data : FlightData) (p : SearchParams)
    (w w' : World) (r : SearchResponse) (it : Itinerary) (s : FlightSegment) :
  loadData data newDataLoader = (Ok tt, dataLoader w) ->
  search p w = (Ok r, w') ->
  In it (itineraries r) ->
  In s (segments it) ->
  (exists a, getAirport (dataLoader w) (seg_origin s) = Some a /\
             seg_originCity s = city a /\ seg_originCountry s = country a) /\
  (exists a, getAirport (dataLoader w) (seg_destination s) = Some a /\
             seg_destinationCity s = city a /\
             seg_destinationCountry s = country a).
Proof.
  intros Hload E Hin Hs.
  assert (Hleg : forall f : FlightWithMetadata,
             In f (flightsWithMetadata (dataLoader w)) -> segmentOf f s ->
             (exists a, getAirport (dataLoader w) (seg_origin s) = Some a /\
                        seg_originCity s = city a /\
                        seg_originCountry s = country a) /\
             (exists a, getAirport (dataLoader w) (seg_destination s) = Some a /\
                        seg_destinationCity s = city a /\
                        seg_destinationCountry s = country a)).
  { intros f Hf (_ & Ho & Hd & _ & _ & Hoc & Hon & Hdc & Hdn).
    destruct (stored_flight_airports _ _ _ Hload Hf) as [Hao Had].
    rewrite Ho, Hd. split; eauto. }
  destruct (itinerary_cases _ _ _ _ _ E Hin)
    as [(f & s0 & Hf & _ & Hs0 & Hsegs & _)
       |[(f1 & f2 & s1 & s2 & Hf1 & _ & Hf2 & _ & _ & Hs1 & Hs2 & Hsegs & _)
        |(f1 & f2 & f3 & s1 & s2 & s3 & Hf1 & _ & Hf2 & _ & _ & _ & Hf3 & _ & _
          & Hs1 & Hs2 & Hs3 & Hsegs & _)]];
    rewrite Hsegs in Hs; simpl in Hs.
  - destruct Hs as [<-|[]].
    apply (Hleg f); [eapply first_leg_stored; eauto | exact Hs0].
  - destruct Hs as [<-|[<-|[]]].
    + apply (Hleg f1); [eapply first_leg_stored; eauto | exact Hs1].
    + apply (Hleg f2); [eapply departing_leg_stored; eauto | exact Hs2].
  - destruct Hs as [<-|[<-|[<-|[]]]].
    + apply (Hleg f1); [eapply first_leg_stored; eauto | exact Hs1].
    + apply (Hleg f2); [eapply departing_leg_stored; eauto | exact Hs2].
    + apply (Hleg f3); [eapply departing_leg_stored; eauto | exact Hs3].
Qed.
End SegmentAirports.

Lemma segment_airports_from_table_witness :
  (exists a, getAirport (dataLoader Demo.world)
               (seg_origin (nth 1 (segments Demo.twoStop) Demo.noSegment))
             = Some a /\
             seg_originCity (nth 1 (segments Demo.twoStop) Demo.noSegment)
             = city a /\
             seg_originCountry (nth 1 (segments Demo.twoStop) Demo.noSegment)
             = country a) /\
  (exists a, getAirport (dataLoader Demo.world)
               (seg_destination (nth 1 (segments Demo.twoStop) Demo.noSegment))
             = Some a /\
             seg_destinationCity (nth 1 (segments Demo.twoStop) Demo.noSegment)
             = city a /\
             seg_destinationCountry (nth 1 (segments Demo.twoStop) Demo.noSegment)
             = country a).
Proof.
  apply (segment_airports_from_table Sample.data Sample.march15 Demo.world
           (Sample.worldAfterSearch Sample.data) Demo.response Demo.twoStop).
  - vm_compute. reflexivity.
  - sample_search.
  - vm_compute. right. right. left. reflexivity.
  - vm_compute. right. left. reflexivity.
Defined.

(** * Durations *)

(** X20. How [formatDuration] prints a whole count of minutes of
    magnitude below 2^53, the range in which the division of doubles in the
    code is the division of integers: below zero only an hour count,
    rounded towards minus infinity, with no minutes; from 0 to 59 the
    minutes alone; from 60 on the hours, followed by the minutes unless they
    are zero. *)
Theorem formatDuration_cases (minutes : Z) :
  (- 2 ^ 53 < minutes < 2 ^ 53)%Z ->
  formatDuration (Some minutes)
  = (if (minutes <? 0)%Z then pretty (minutes / 60)%Z ++ "h"
     else if (minutes <? 60)%Z then pretty minutes ++ "m"
     else if (minutes mod 60 =? 0)%Z then pretty (minutes / 60)%Z ++ "h"
     else pretty (minutes / 60)%Z ++ "h " ++ pretty (minutes mod 60)%Z ++ "m"
    )%string.
Proof.
  intros _. unfold formatDuration, num_floor_div, num_rem, num_eqb, num_gtb,
    numberToString.
  destruct (minutes <? 0)%Z eqn:Hneg.
  - apply Z.ltb_lt in Hneg.
    assert (Hh : (minutes / 60 <> 0)%Z)
      by (pose proof (Z.div_lt_upper_bound minutes 60 0); lia).
    apply Z.eqb_neq in Hh. rewrite Hh.
    assert (Hm : (0 <? Z.rem minutes 60)%Z = false).
    { apply Z.ltb_ge. pose proof (Z.rem_nonpos minutes 60). lia. }
    rewrite Hm. reflexivity.
  - apply Z.ltb_ge in Hneg. rewrite Z.rem_mod_nonneg by lia.
    destruct (minutes <? 60)%Z eqn:Hsmall.
    + apply Z.ltb_lt in Hsmall.
      rewrite Z.div_small, Z.mod_small by lia. reflexivity.
    + apply Z.ltb_ge in Hsmall.
      assert (Hh : (minutes / 60 <> 0)%Z)
        by (pose proof (Z.div_le_lower_bound minutes 60 1); lia).
      apply Z.eqb_neq in Hh. rewrite Hh.
      destruct (minutes mod 60 =? 0)%Z eqn:Hzero.
      * apply Z.eqb_eq in Hzero. rewrite Hzero. reflexivity.
      * apply Z.eqb_neq in Hzero.
        assert (Hpos : (0 <? minutes mod 60)%Z = true).
        { apply Z.ltb_lt. pose proof (Z.mod_pos_bound minutes 60). lia. }
        rewrite Hpos. reflexivity.
Qed.

Lemma formatDuration_cases_witness :
  (- 2 ^ 53 < -240 < 2 ^ 53)%Z /\ formatDuration (Some (-240)%Z) = "-4h".
Proof.
  split; [split; reflexivity|].
  rewrite (formatDuration_cases (-240)) by (split; reflexivity).
  vm_compute. reflexivity.
Defined.

Lemma whole_minutes_superadditive (a b c : Z) :
  (0 <= a -> 0 <= b -> 0 <= c ->
   a / 60000 + b / 60000 + c / 60000 <= (a + b + c) / 60000
   <= a / 60000 + b / 60000 + c / 60000 + 2)%Z.
Proof. intros. Z.to_euclidean_division_equations; lia. Qed.

Lemma whole_minutes_additive (a b c : Z) :
  (a mod 60000 = 0 -> b mod 60000 = 0 -> c mod 60000 = 0 ->
   a / 60000 + b / 60000 + c / 60000 = (a + b + c) / 60000)%Z.
Proof. intros. Z.to_euclidean_division_equations; lia. Qed.

(** X21. For a one-stop journey whose four instants are time values of
    valid Dates, in order and less than 2^53 ms from first to last (the
    range in which the library's arithmetic on doubles is exact), the
    duration the search adds up from the two flights and the layover, each
    in whole minutes, is at most the whole minutes from first departure to
    last arrival and falls short of them by at most two; when every instant
    is on a whole minute the two are equal. *)
Theorem one_stop_total_within_elapsed (dep1 arr1 dep2 arr2 : Z) :
  (- 8640000000000000 <= dep1)%Z -> (arr2 <= 8640000000000000)%Z ->
  (arr2 - dep1 < 2 ^ 53)%Z ->
  (dep1 <= arr1)%Z -> (arr1 <= dep2)%Z -> (dep2 <= arr2)%Z ->
  exists total elapsed,
    num_add (num_add (calculateDuration (Some dep1) (Some arr1))
               (calculateLayoverDuration (Some arr1) (Some dep2)))
            (calculateDuration (Some dep2) (Some arr2)) = Some total /\
    calculateDuration (Some dep1) (Some arr2) = Some elapsed /\
    (total <= elapsed <= total + 2)%Z /\
    (dep1 mod 60000 = 0 -> arr1 mod 60000 = 0 -> dep2 mod 60000 = 0 ->
     arr2 mod 60000 = 0 -> total = elapsed)%Z.
Proof.
  intros _ _ _ H1 H2 H3.
  unfold calculateDuration, calculateLayoverDuration, differenceInMinutes.
  simpl. rewrite !Z.quot_div_nonneg by lia.
  eexists. eexists. split; [reflexivity|]. split; [reflexivity|].
  replace (arr2 - dep1)%Z
    with ((arr1 - dep1) + (dep2 - arr1) + (arr2 - dep2))%Z by lia.
  split.
  - apply whole_minutes_superadditive; lia.
  - intros M1 M2 M3 M4.
    apply whole_minutes_additive; rewrite Zminus_mod;
      rewrite ?M1, ?M2, ?M3, ?M4; reflexivity.
Qed.

Lemma one_stop_total_within_elapsed_witness :
  exists total elapsed,
    num_add (num_add (calculateDuration (Some 0%Z) (Some 90000%Z))
               (calculateLayoverDuration (Some 90000%Z) (Some 2850000%Z)))
            (calculateDuration (Some 2850000%Z) (Some 3000000%Z)) = Some total /\
    calculateDuration (Some 0%Z) (Some 3000000%Z) = Some elapsed /\
    (total <= elapsed <= total + 2)%Z /\
    (0 mod 60000 = 0 -> 90000 mod 60000 = 0 -> 2850000 mod 60000 = 0 ->
     3000000 mod 60000 = 0 -> total = elapsed)%Z.
Proof.
  apply (one_stop_total_within_elapsed 0 90000 2850000 3000000); lia.
Defined.

Section RoundTrip.
Context `{DateLibrary}.

(** X22. Whatever the date library: let the string parse to the time value
    [wall], let the library show the zone [o] ms ahead of UTC at the instant
    [wall], and [o'] ms ahead at the instant [wall - o].  Then
    [localTimeToUTC] answers the instant [wall - o], and reading that instant
    back in the zone gives the wall-clock time of the string exactly when
    the two offsets are the same.  All time values are those of valid
    Dates. *)
Theorem round_trip_when_offsets_agree (t tz : string) (wall o o' : Z) :
  (Z.abs wall <= 8640000000000000)%Z ->
  (Z.abs (wall + o) <= 8640000000000000)%Z ->
  (Z.abs (wall - o) <= 8640000000000000)%Z ->
  parseISO t = Some wall ->
  utcToZonedTime (Some wall) tz = Some (wall + o)%Z ->
  utcToZonedTime (Some (wall - o)%Z) tz = Some (wall - o + o')%Z ->
  localTimeToUTC t tz = Some (wall - o)%Z /\
  (utcToZonedTime (localTimeToUTC t tz) tz = parseISO t <-> o' = o).
Proof.
  intros _ _ Hrange Hparse Hzoned Hback.
  assert (Hutc : localTimeToUTC t tz = Some (wall - o)%Z).
  { unfold localTimeToUTC. rewrite Hparse, Hzoned. simpl.
    replace (wall - (wall + o - wall))%Z with (wall - o)%Z by lia.
    apply Z.leb_le in Hrange. rewrite Hrange. reflexivity. }
  split; [exact Hutc|].
  rewrite Hutc, Hback, Hparse. split.
  - intros Heq. injection Heq. lia.
  - intros ->. f_equal. lia.
Qed.
End RoundTrip.

Lemma round_trip_when_offsets_agree_witness :
  localTimeToUTC "2024-03-15T08:30:00" "America/New_York"
  = Some (1710491400000 - -14400000)%Z /\
  (utcToZonedTime (localTimeToUTC "2024-03-15T08:30:00" "America/New_York")
                  "America/New_York"
   = parseISO "2024-03-15T08:30:00"
   <-> (-14400000 = -14400000)%Z).
Proof.
  apply (round_trip_when_offsets_agree "2024-03-15T08:30:00" "America/New_York"
           1710491400000 (-14400000) (-14400000)).
  - vm_compute. discriminate.
  - vm_compute. discriminate.
  - vm_compute. discriminate.
  - vm_compute. reflexivity.
  - vm_compute. reflexivity.
  - vm_compute. reflexivity.
Defined.

(** * What the middleware and the pages make of a search *)

(** ** Errors of a search, as the error middleware answers them *)

Lemma validateSearchParams_Throw_cases loader p e :
  validateSearchParams loader p = Throw e ->
  e = InvalidOriginAirport (sp_origin p)
  \/ e = InvalidDestinationAirport (sp_destination p)
  \/ e = SameOriginDestination
  \/ e = InvalidDateFormat.
Proof.
  unfold validateSearchParams.
  destruct (getAirport loader (sp_origin p)); [|intros [= <-]; auto].
  destruct (getAirport loader (sp_destination p)); [|intros [= <-]; auto].
  destruct (String.eqb _ _); [intros [= <-]; auto|].
  destruct (negb _); [intros [= <-]; auto | discriminate].
Qed.

Section SearchErrors.
Context `{DateLibrary}.

(** X23. Whatever exception a search raises, the error middleware answers
    it with status 400 and code VALIDATION_ERROR, carrying the message of
    the exception, and with the stack only in development.  This includes
    the RangeError that formatting a stored instant raises, whose text is
    the date library's, as long as that text contains the word Invalid, as
    the library's two texts do. *)
Theorem search_errors_answered_as_validation (development : bool)
    (p : SearchParams) (w : World) (e : Error) (libraryText stack : string) :
  fst (search p w) = Throw e ->
  (e = RangeErrorInvalidTime -> includes libraryText "Invalid" = true) ->
  errorHandler development (thrown libraryText e stack)
  = mkErrorResponse 400 (errorMessage libraryText e) "VALIDATION_ERROR"
      (if development then Some stack else None).
Proof.
  intros Hs Htext.
  assert (He : e = RangeErrorInvalidTime
               \/ e = InvalidOriginAirport (sp_origin p)
               \/ e = InvalidDestinationAirport (sp_destination p)
               \/ e = SameOriginDestination
               \/ e = InvalidDateFormat).
  { destruct e; try (left; reflexivity); right;
      (eapply validateSearchParams_Throw_cases;
       apply search_Throw_origin; [exact Hs | discriminate]). }
  destruct He as [->|[->|[->|[->| ->]]]];
    try (destruct development; reflexivity).
  specialize (Htext eq_refl).
  unfold errorHandler, thrown. cbn [err_app err_message err_stack errorMessage].
  destruct libraryText as [|a rest]; [discriminate|].
  cbn [String.eqb negb]. rewrite Htext. reflexivity.
Qed.
End SearchErrors.

Lemma search_errors_answered_as_validation_witness :
  errorHandler false
    (thrown "Invalid time zone specified: Mars/Olympus" RangeErrorInvalidTime
       "RangeError: Invalid time zone specified: Mars/Olympus")
  = mkErrorResponse 400 "Invalid time zone specified: Mars/Olympus"
      "VALIDATION_ERROR" None.
Proof.
  apply (search_errors_answered_as_validation false
           (mkSearchParams "JFK" "XXA" "2024-03-15")
           Demo.worldWithUnknownZone RangeErrorInvalidTime
           "Invalid time zone specified: Mars/Olympus"
           "RangeError: Invalid time zone specified: Mars/Olympus").
  - vm_compute. reflexivity.
  - intros _. vm_compute. reflexivity.
Defined.

(** ** The counters of the result page *)

Lemma filter_length_Permutation {A} (f : A -> bool) (l l' : list A) :
  Permutation l l' -> length (List.filter f l) = length (List.filter f l').
Proof.
  induction 1 as [|x l l' _ IH|x y l|l l' l'' _ IH1 _ IH2].
  - reflexivity.
  - simpl. destruct (f x); simpl; congruence.
  - simpl. destruct (f x), (f y); reflexivity.
  - congruence.
Qed.

Lemma filter_length_all {A} (f : A -> bool) (l : list A) :
  Forall (fun x => f x = true) l -> length (List.filter f l) = length l.
Proof.
  induction 1 as [|x l Hx _ IH]; [reflexivity|].
  simpl. rewrite Hx. simpl. congruence.
Qed.

Lemma filter_length_none {A} (f : A -> bool) (l : list A) :
  Forall (fun x => f x = false) l -> length (List.filter f l) = 0%nat.
Proof.
  induction 1 as [|x l Hx _ IH]; [reflexivity|].
  simpl. rewrite Hx. exact IH.
Qed.

Lemma stopCount_sorted_app (n : Z) (direct oneStop twoStop : list Itinerary) :
  Frontend.stopCount n (Array_sort byTotalDuration (direct ++ oneStop ++ twoStop))
  = (Frontend.stopCount n direct + Frontend.stopCount n oneStop
     + Frontend.stopCount n twoStop)%nat.
Proof.
  unfold Frontend.stopCount.
  rewrite (filter_length_Permutation _ _ _ (Array_sort_Permutation _ _)).
  rewrite !List.filter_app, !length_app. lia.
Qed.

Section Counters.
Context `{DateLibrary}.

(** The itineraries made of candidates of [k + 1] legs all have [k] stops. *)
Lemma stopCount_stage cs w its w' (k : nat) (n : Z) :
  convertToItineraries cs w = (Ok its, w') ->
  Forall (fun c => length (cand_segments c) = S k) cs ->
  Frontend.stopCount n its
  = if (Z.of_nat k =? n)%Z then length cs else 0%nat.
Proof.
  intros E Hlegs.
  pose proof (convertToItineraries_length _ _ _ _ E) as Hlen.
  apply mapST_Ok_Forall2 in E.
  assert (Hstops : Forall (fun it => stops it = Z.of_nat k) its).
  { apply List.Forall_forall. intros it Hin.
    destruct (Forall2_In_r _ _ _ _ E Hin) as (c & Hc & Hmade).
    apply assembledFrom_fields in Hmade as (_ & _ & _ & -> & _).
    rewrite (proj1 (List.Forall_forall _ _) Hlegs c Hc). lia. }
  unfold Frontend.stopCount. destruct (Z.of_nat k =? n)%Z eqn:Hk.
  - rewrite <- Hlen. apply filter_length_all.
    eapply List.Forall_impl; [|exact Hstops]. simpl. intros it ->. exact Hk.
  - apply filter_length_none.
    eapply List.Forall_impl; [|exact Hstops]. simpl. intros it ->. exact Hk.
Qed.

(** X24. The three counters in the header of the result page are the
    numbers of candidates the direct, the one-stop and the two-stop stage of
    the search found, and they add up to [totalResults]. *)
Theorem header_counters (p : SearchParams) (w w' : World) (r : SearchResponse) :
  search p w = (Ok r, w') ->
  Frontend.stopCount 0 (itineraries r)
  = length (findDirectFlights (dataLoader w) (sp_origin p) (sp_destination p)
              (sp_date p)) /\
  Frontend.stopCount 1 (itineraries r)
  = length (findOneStopConnections (dataLoader w) (sp_origin p)
              (sp_destination p) (sp_date p)) /\
  Frontend.stopCount 2 (itineraries r)
  = length (findTwoStopConnections (dataLoader w) (sp_origin p)
              (sp_destination p) (sp_date p)) /\
  (Frontend.stopCount 0 (itineraries r) + Frontend.stopCount 1 (itineraries r)
   + Frontend.stopCount 2 (itineraries r))%nat = totalResults r.
Proof.
  intros E.
  apply search_Ok_stages in E
    as (_ & direct & oneStop & twoStop & w1 & w2 & E1 & E2 & E3 & ->).
  cbn [itineraries totalResults].
  assert (H1 : Forall (fun c => length (cand_segments c) = 1%nat)
                 (findDirectFlights (dataLoader w) (sp_origin p)
                    (sp_destination p) (sp_date p))).
  { apply List.Forall_forall. intros c Hc.
    apply findDirectFlights_In in Hc as (f & _ & _ & ->). reflexivity. }
  assert (H2 : Forall (fun c => length (cand_segments c) = 2%nat)
                 (findOneStopConnections (dataLoader w) (sp_origin p)
                    (sp_destination p) (sp_date p))).
  { apply List.Forall_forall. intros c Hc.
    apply findOneStopConnections_In in Hc
      as (f1 & f2 & _ & _ & _ & _ & _ & ->). reflexivity. }
  assert (H3 : Forall (fun c => length (cand_segments c) = 3%nat)
                 (findTwoStopConnections (dataLoader w) (sp_origin p)
                    (sp_destination p) (sp_date p))).
  { apply List.Forall_forall. intros c Hc.
    apply findTwoStopConnections_In in Hc
      as (f1 & f2 & f3 & _ & _ & _ & _ & _ & _ & _ & _ & _ & ->). reflexivity. }
  rewrite Array_sort_length, !length_app, !stopCount_sorted_app.
  rewrite !(stopCount_stage _ _ _ _ 0 _ E1 H1).
  rewrite !(stopCount_stage _ _ _ _ 1 _ E2 H2).
  rewrite !(stopCount_stage _ _ _ _ 2 _ E3 H3).
  apply convertToItineraries_length in E1, E2, E3.
  change (Z.of_nat 0 =? 0)%Z with true. change (Z.of_nat 0 =? 1)%Z with false.
  change (Z.of_nat 0 =? 2)%Z with false. change (Z.of_nat 1 =? 0)%Z with false.
  change (Z.of_nat 1 =? 1)%Z with true. change (Z.of_nat 1 =? 2)%Z with false.
  change (Z.of_nat 2 =? 0)%Z with false. change (Z.of_nat 2 =? 1)%Z with false.
  change (Z.of_nat 2 =? 2)%Z with true.
  cbv iota. rewrite E1, E2, E3. repeat split; lia.
Qed.

(** ** Domestic and international layovers *)

(** X25. Over a store filled by one successful load, every layover of
    every returned itinerary is flagged domestic, so no result card shows
    the International badge: both legs of a connection take their airport
    from the one table entry of the connecting airport, and its country is
    compared with itself. *)
Theorem layovers_always_domestic (data : FlightData) (p : SearchParams)
    (w w' : World) (r : SearchResponse) (it : Itinerary) :
  loadData data newDataLoader = (Ok tt, dataLoader w) ->
  search p w = (Ok r, w') ->
  In it (itineraries r) ->
  Forall (fun l => lay_isDomestic l = true) (layovers it) /\
  Frontend.showsInternational it = false.
Proof.
  intros Hload E Hin.
  assert (Hdom : forall f1 f2 : FlightWithMetadata,
             In f1 (flightsWithMetadata (dataLoader w)) ->
             In f2 (flightsWithMetadata (dataLoader w)) ->
             canConnect f1 f2
               (calculateLayoverDuration (arrivalDateUTC f1)
                  (departureDateUTC f2)) = true ->
             isDomesticConnection f1 f2 = true).
  { intros f1 f2 Hf1 Hf2 Hc. apply canConnect_connects in Hc as [Hair _].
    destruct (stored_flight_airports _ _ _ Hload Hf1) as [_ Hd].
    destruct (stored_flight_airports _ _ _ Hload Hf2) as [Ho _].
    rewrite Hair, Ho in Hd. injection Hd as Hsame.
    unfold isDomesticConnection. rewrite Hsame. apply String.eqb_refl. }
  assert (Hall : Forall (fun l => lay_isDomestic l = true) (layovers it)).
  { destruct (itinerary_cases _ _ _ _ _ E Hin)
      as [(f & s & _ & _ & _ & _ & -> & _)
         |[(f1 & f2 & s1 & s2 & Hf1 & _ & Hf2 & _ & Hc & _ & _ & _ & -> & _)
          |(f1 & f2 & f3 & s1 & s2 & s3 & Hf1 & _ & Hf2 & _ & _ & Hc1 & Hf3 & _
            & Hc2 & _ & _ & _ & _ & -> & _)]].
    - constructor.
    - apply (first_leg_stored _ _ _ _ _ Hload) in Hf1.
      apply (departing_leg_stored _ _ _ _ Hload) in Hf2.
      simpl. repeat constructor. simpl. auto.
    - apply (first_leg_stored _ _ _ _ _ Hload) in Hf1.
      apply (departing_leg_stored _ _ _ _ Hload) in Hf2.
      apply (departing_leg_stored _ _ _ _ Hload) in Hf3.
      simpl. repeat constructor; simpl; auto. }
  split; [exact Hall|].
  unfold Frontend.showsInternational. apply negb_false_iff.
  apply forallb_forall. apply List.Forall_forall. exact Hall.
Qed.
End Counters.

Lemma header_counters_witness :
  Frontend.stopCount 0 (itineraries Demo.response)
  = length (findDirectFlights (dataLoader Demo.world) "JFK" "LAX" "2024-03-15") /\
  Frontend.stopCount 1 (itineraries Demo.response)
  = length (findOneStopConnections (dataLoader Demo.world) "JFK" "LAX"
              "2024-03-15") /\
  Frontend.stopCount 2 (itineraries Demo.response)
  = length (findTwoStopConnections (dataLoader Demo.world) "JFK" "LAX"
              "2024-03-15") /\
  (Frontend.stopCount 0 (itineraries Demo.response)
   + Frontend.stopCount 1 (itineraries Demo.response)
   + Frontend.stopCount 2 (itineraries Demo.response))%nat
  = totalResults Demo.response.
Proof.
  apply (header_counters Sample.march15 Demo.world
           (Sample.worldAfterSearch Sample.data) Demo.response).
  sample_search.
Defined.

Lemma layovers_always_domestic_witness :
  Forall (fun l => lay_isDomestic l = true) (layovers Demo.twoStop) /\
  Frontend.showsInternational Demo.twoStop = false.
Proof.
  apply (layovers_always_domestic Sample.data Sample.march15 Demo.world
           (Sample.worldAfterSearch Sample.data) Demo.response Demo.twoStop).
  - vm_compute. reflexivity.
  - sample_search.
  - vm_compute. right. right. left. reflexivity.
Defined.

(** * The statistics of the store *)

Lemma String_compare_Lt_trans (x : string) :
  forall y z,
    String.compare x y = Lt -> String.compare y z = Lt ->
    String.compare x z = Lt.
Proof.
  induction x as [|a x IH]; intros [|b y] [|c z]; simpl; try congruence.
  unfold Ascii.compare.
  destruct (N.compare_spec (N_of_ascii a) (N_of_ascii b)) as [Hab|Hab|Hab];
    destruct (N.compare_spec (N_of_ascii b) (N_of_ascii c)) as [Hbc|Hbc|Hbc];
    try congruence; intros Hxy Hyz.
  - rewrite Hab, Hbc, N.compare_refl. eapply IH; eauto.
  - rewrite Hab. apply N.compare_lt_iff in Hbc. rewrite Hbc. reflexivity.
  - rewrite <- Hbc. apply N.compare_lt_iff in Hab. rewrite Hab. reflexivity.
  - assert (Hac : (N_of_ascii a < N_of_ascii c)%N) by lia.
    apply N.compare_lt_iff in Hac. rewrite Hac. reflexivity.
Qed.

Lemma ltb_trans x y z :
  String.ltb x y = true -> String.ltb y z = true -> String.ltb x z = true.
Proof.
  unfold String.ltb.
  destruct (String.compare x y) eqn:Hxy; try discriminate.
  destruct (String.compare y z) eqn:Hyz; try discriminate.
  rewrite (String_compare_Lt_trans _ _ _ Hxy Hyz). reflexivity.
Qed.

Lemma ltb_total x y :
  String.ltb x y = false -> x <> y -> String.ltb y x = true.
Proof.
  unfold String.ltb. intros Hxy Hne. rewrite String.compare_antisym.
  destruct (String.compare x y) eqn:Hc; try discriminate; [|reflexivity].
  apply String.compare_eq_iff in Hc. contradiction.
Qed.

Lemma sortInsert_compareStrings x l :
  StronglySorted (fun a b => String.ltb a b = true) l ->
  ~ In x l ->
  StronglySorted (fun a b => String.ltb a b = true)
    (sortInsert compareStrings x l).
Proof.
  induction 1 as [|y l Hsorted IH Hyl]; intros Hnew; simpl.
  - repeat constructor.
  - assert (Hne : x <> y) by (intros ->; apply Hnew; left; reflexivity).
    assert (Hnew' : ~ In x l) by (intros Hin; apply Hnew; right; exact Hin).
    unfold compareStrings at 1.
    destruct (String.ltb x y) eqn:Hxy; simpl.
    + constructor; [constructor; assumption|].
      constructor; [exact Hxy|].
      eapply List.Forall_impl; [|exact Hyl].
      intros z Hyz. eapply ltb_trans; eauto.
    + rewrite (ltb_total _ _ Hxy Hne). simpl.
      constructor; [apply IH; exact Hnew'|].
      eapply Permutation_Forall; [symmetry; apply sortInsert_Permutation|].
      constructor; [apply ltb_total; assumption | exact Hyl].
Qed.

Lemma Array_sort_compareStrings l :
  List.NoDup l ->
  StronglySorted (fun a b => String.ltb a b = true) (Array_sort compareStrings l).
Proof.
  induction 1 as [|x l Hx _ IH]; simpl; [constructor|].
  apply sortInsert_compareStrings; [exact IH|].
  rewrite Array_sort_In. exact Hx.
Qed.

Lemma keys_In {V} (m : gmap string V) k :
  In k (List.map fst (map_to_list m)) <-> is_Some (m !! k).
Proof.
  rewrite in_map_iff. split.
  - intros ((k' & v) & <- & Hin). exists v.
    apply elem_of_map_to_list, list_elem_of_In. exact Hin.
  - intros (v & Hv). exists (k, v). split; [reflexivity|].
    apply list_elem_of_In, elem_of_map_to_list. exact Hv.
Qed.

(** X26. The statistics name every code of the airport table, each once,
    and [totalAirports] is their number; when the codes of the table are
    ASCII strings they are listed in strictly increasing order. *)
Theorem getStats_airports (this : DataLoader) :
  totalAirports (getStats this) = length (stats_airports (getStats this)) /\
  (forall c, In c (stats_airports (getStats this))
             <-> is_Some (getAirport this c)) /\
  List.NoDup (stats_airports (getStats this)) /\
  ((forall c, is_Some (getAirport this c) -> isASCII c = true) ->
   StronglySorted (fun a b => String.ltb a b = true)
     (stats_airports (getStats this))).
Proof.
  unfold getStats, getAirport. cbn [totalAirports stats_airports].
  assert (Hkeys : List.NoDup (List.map fst (map_to_list (airportMap this)))).
  { apply NoDup_ListNoDup. apply (NoDup_fst_map_to_list (airportMap this)). }
  split; [|split; [|split]].
  - rewrite Array_sort_length, length_map, length_map_to_list. reflexivity.
  - intros c. rewrite Array_sort_In. apply keys_In.
  - eapply Permutation_NoDup; [|exact Hkeys].
    symmetry. apply Array_sort_Permutation.
  - intros _. apply Array_sort_compareStrings. exact Hkeys.
Qed.

Lemma getStats_airports_witness :
  StronglySorted (fun a b => String.ltb a b = true)
    (stats_airports (getStats (Sample.loaderAfter Sample.data))).
Proof.
  apply (getStats_airports (Sample.loaderAfter Sample.data)).
  intros c Hc. unfold getAirport in Hc. apply keys_In in Hc.
  assert (Hall : List.forallb isASCII
                   (List.map fst
                      (map_to_list (airportMap (Sample.loaderAfter Sample.data))))
                 = true) by (vm_compute; reflexivity).
  exact (proj1 (forallb_forall _ _) Hall c Hc).
Defined.

Lemma foldl_airports_keys (l : list Airport) :
  forall (m : gmap string Airport) k,
    is_Some (foldl (fun m airport => <[code airport := airport]> m) m l !! k)
    <-> is_Some (m !! k) \/ exists a, In a l /\ code a = k.
Proof.
  induction l as [|a l IH]; intros m k; simpl.
  - split; [auto | intros [Hm|(a & [] & _)]; exact Hm].
  - rewrite IH, lookup_insert_is_Some'. split.
    + intros [[Heq|Hm]|(a' & Hin & Hcode)]; eauto.
    + intros [Hm|(a' & [->|Hin] & Hcode)]; eauto.
Qed.

Section StatsAfterLoad.
Context `{DateLibrary}.

(** X27. A call of [loadData], whether it returns or throws, adds the
    codes of the file's airports to those the statistics name and removes
    none.  When it returns, [totalFlights] is the number of flights of that
    file, whatever was loaded before; when it throws, [totalFlights] is
    unchanged. *)
Theorem stats_after_load (data : FlightData) (this this' : DataLoader)
    (r : Result unit) :
  loadData data this = (r, this') ->
  (forall c, In c (stats_airports (getStats this'))
             <-> In c (stats_airports (getStats this))
                 \/ exists a, In a (airports data) /\ code a = c) /\
  totalFlights (getStats this')
  = match r with
    | Ok _ => length (flights data)
    | Throw _ => totalFlights (getStats this)
    end.
Proof.
  intros E.
  assert (Hkeys : forall that c,
             In c (stats_airports (getStats that))
             <-> is_Some (airportMap that !! c)).
  { intros that c. unfold getStats. cbn [stats_airports].
    rewrite Array_sort_In. apply keys_In. }
  apply loadData_inv in E. cbv zeta in E.
  destruct E as [(e & f & _ & _ & -> & ->)|(enriched & Hall & -> & ->)].
  - split; [|reflexivity].
    intros c. rewrite !Hkeys. apply foldl_airports_keys.
  - split.
    + intros c. rewrite !Hkeys. apply foldl_airports_keys.
    + simpl. symmetry. eapply Forall2_length; eauto.
Qed.
End StatsAfterLoad.

Lemma stats_after_load_witness :
  (forall c, In c (stats_airports (getStats (Sample.loaderAfterTwo Sample.data)))
             <-> In c (stats_airports (getStats (Sample.loaderAfter Sample.data)))
                 \/ exists a, In a (airports Sample.data) /\ code a = c) /\
  totalFlights (getStats (Sample.loaderAfterTwo Sample.data))
  = length (flights Sample.data).
Proof.
  apply (stats_after_load Sample.data (Sample.loaderAfter Sample.data)
           (Sample.loaderAfterTwo Sample.data) (Ok tt)).
  vm_compute. reflexivity.
Defined.
